(** * Support relay bot: record store and conversation router

    A shallow embedding of the in-memory record store ([MemStorage],
    server/storage part of routes.ts), of the table declarations of the
    shared schema, and of the webhook router (server/telegram.ts),
    followed by the properties of the specification that concern them.

    Conventions.
    - The router runs over [MemStorage], the store whose source is part
      of the repository; [storage] is that store.
    - JavaScript numbers that hold identifiers, counters and timestamps
      are integers within the range in which [toString] prints every
      digit: they are values of [Z].  A [Date] is its [getTime()] value
      in milliseconds.
    - A [Map] is an insertion-ordered association list, as in JavaScript:
      [set] on an existing key keeps the position of the entry.
    - [async] functions run to completion one after the other; a
      rejected promise is a thrown exception.  Effects are threaded by a
      state-and-exception monad over [World].
    - [console.error] output is not part of the model. *)

From Stdlib Require Import ZArith List String Ascii Bool Lia.
From Stdlib Require Import DecimalString Permutation Sorted.
From Stdlib Require DecimalPos.
Import ListNotations.

Local Open Scope string_scope.
Local Open Scope Z_scope.

(** ** JavaScript built-ins used by the sources *)

Module JS.

(** A [number]; only integers and [NaN] arise here. *)
Inductive number : Type :=
| NaN
| Num (z : Z).

(** A [Date], as the milliseconds returned by [getTime()]. *)
Definition Date : Type := Z.

(** Truthiness of a [string | null | undefined]: the empty string is
    falsy. *)
Definition truthy (s : option string) : bool :=
  match s with
  | Some s' => negb (s' =? "")%string
  | None => false
  end.

(** [s || null]. *)
Definition or_null (s : option string) : option string :=
  if truthy s then s else None.

(** [s || d]. *)
Definition or_else (s : option string) (d : string) : string :=
  match s with
  | Some s' => if (s' =? "")%string then d else s'
  | None => d
  end.

(** [!!b] for a [boolean | undefined]. *)
Definition to_boolean (b : option bool) : bool :=
  match b with
  | Some b' => b'
  | None => false
  end.

(** [n.toString()] for an integer [n]. *)
Definition toString (n : Z) : string :=
  NilZero.string_of_int (Z.to_int n).

Definition is_space (c : ascii) : bool :=
  let n := nat_of_ascii c in
  ((n =? 32) || (n =? 9) || (n =? 10) || (n =? 11) || (n =? 12) || (n =? 13))%nat.

Fixpoint trim_start (s : string) : string :=
  match s with
  | String c s' => if is_space c then trim_start s' else s
  | EmptyString => s
  end.

(** Value of a digit in the given radix (10 or 16). *)
Definition digit_value (radix : Z) (c : ascii) : option Z :=
  let n := Z.of_nat (nat_of_ascii c) in
  let v :=
    if (48 <=? n) && (n <=? 57) then Some (n - 48)
    else if (97 <=? n) && (n <=? 102) then Some (n - 87)
    else if (65 <=? n) && (n <=? 70) then Some (n - 55)
    else None in
  match v with
  | Some d => if d <? radix then Some d else None
  | None => None
  end.

(** Longest prefix of digits, accumulated from the left. *)
Fixpoint parse_digits (radix : Z) (acc : option Z) (s : string) : option Z :=
  match s with
  | String c s' =>
      match digit_value radix c with
      | Some d =>
          parse_digits radix
            (Some (match acc with Some a => a * radix + d | None => d end)) s'
      | None => acc
      end
  | EmptyString => acc
  end.

(** [parseInt(s)] with no radix argument: leading white space, a
    sign, an optional [0x] prefix, then the longest run of digits. *)
Definition parseInt (s : string) : number :=
  let s1 := trim_start s in
  let '(neg, s2) :=
    match s1 with
    | String "-" r => (true, r)
    | String "+" r => (false, r)
    | _ => (false, s1)
    end in
  let '(radix, s3) :=
    match s2 with
    | String "0" (String "x" r) => (16, r)
    | String "0" (String "X" r) => (16, r)
    | _ => (10, s2)
    end in
  match parse_digits radix None s3 with
  | Some v => Num (if neg then - v else v)
  | None => NaN
  end.

(** *** [Map<number, V>] *)

Definition Map (V : Type) : Type := list (Z * V).

Definition Map_empty {V} : Map V := [].

Fixpoint Map_get {V} (k : Z) (m : Map V) : option V :=
  match m with
  | [] => None
  | (k', v) :: m' => if k' =? k then Some v else Map_get k m'
  end.

Fixpoint Map_set {V} (k : Z) (v : V) (m : Map V) : Map V :=
  match m with
  | [] => [(k, v)]
  | (k', v') :: m' =>
      if k' =? k then (k, v) :: m' else (k', v') :: Map_set k v m'
  end.

(** [Array.from(m.values())] and the keys, in insertion order. *)
Definition Map_values {V} (m : Map V) : list V := map snd m.
Definition Map_keys {V} (m : Map V) : list Z := map fst m.

(** *** Arrays *)

(** [Array.prototype.sort(cmp)]: the sort is stable; [cmp a b <= 0]
    keeps [a] before [b]. *)
Fixpoint sort_insert {A} (cmp : A -> A -> Z) (x : A) (l : list A) : list A :=
  match l with
  | [] => [x]
  | y :: l' =>
      if cmp x y <=? 0 then x :: y :: l' else y :: sort_insert cmp x l'
  end.

Fixpoint sort {A} (cmp : A -> A -> Z) (l : list A) : list A :=
  match l with
  | [] => []
  | x :: l' => sort_insert cmp x (sort cmp l')
  end.

(** [a.slice(start)]: a negative [start] counts from the end. *)
Definition slice_from {A} (start : Z) (l : list A) : list A :=
  let len := Z.of_nat (List.length l) in
  let k := if start <? 0 then Z.max (len + start) 0 else Z.min start len in
  skipn (Z.to_nat k) l.

(** [a.slice(0, stop)] for a non-negative or negative [stop]. *)
Definition slice_to {A} (stop : Z) (l : list A) : list A :=
  let len := Z.of_nat (List.length l) in
  let k := if stop <? 0 then Z.max (len + stop) 0 else Z.min stop len in
  firstn (Z.to_nat k) l.

(** Last element of an array, [a[a.length - 1]]. *)
Definition last_elem {A} (l : list A) : option A :=
  nth_error l (List.length l - 1)%nat.

End JS.

(** ** The shared schema: selected rows and insert shapes

    A nullable column is an [option]; a timestamp column that the store
    always fills with [new Date()] is a [JS.Date]. *)

Module User.
Record t : Type := mk {
  id : Z;
  telegramId : string;
  username : option string;
  firstName : string;
  lastName : option string;
  languageCode : option string;
  isPremium : option bool;
  bio : option string;
  joinedAt : JS.Date;
  profilePhoto : option string
}.
End User.

Module InsertUser.
Record t : Type := mk {
  telegramId : string;
  username : option string;
  firstName : string;
  lastName : option string;
  languageCode : option string;
  isPremium : option bool;
  bio : option string;
  profilePhoto : option string
}.

(** [Partial<InsertUser>]: [None] is an absent key. *)
Record partial : Type := mk_partial {
  p_telegramId : option string;
  p_username : option (option string);
  p_firstName : option string;
  p_lastName : option (option string);
  p_languageCode : option (option string);
  p_isPremium : option (option bool);
  p_bio : option (option string);
  p_profilePhoto : option (option string)
}.

Definition no_updates : partial :=
  mk_partial None None None None None None None None.
End InsertUser.

Module Conversation.
Record t : Type := mk {
  id : Z;
  telegramUserId : string;
  threadId : option string;
  status : string;
  lastMessageAt : JS.Date;
  createdAt : JS.Date
}.
End Conversation.

Module InsertConversation.
Record t : Type := mk {
  telegramUserId : string;
  threadId : option string;
  status : string
}.

(** [Partial<InsertConversation>]: [None] is an absent key. *)
Record partial : Type := mk_partial {
  p_telegramUserId : option string;
  p_threadId : option (option string);
  p_status : option string
}.

(** The empty object literal. *)
Definition no_updates : partial := mk_partial None None None.
End InsertConversation.

Module Message.
Record t : Type := mk {
  id : Z;
  conversationId : Z;
  telegramMessageId : option string;
  senderId : string;
  senderType : string;
  senderName : option string;
  content : option string;
  mediaType : option string;
  mediaUrl : option string;
  sentAt : JS.Date
}.
End Message.

Module InsertMessage.
Record t : Type := mk {
  conversationId : Z;
  telegramMessageId : option string;
  senderId : string;
  senderType : string;
  senderName : option string;
  content : option string;
  mediaType : option string;
  mediaUrl : option string
}.
End InsertMessage.

Module SupportIssue.
Record t : Type := mk {
  id : Z;
  userId : string;
  conversationId : Z;
  title : string;
  status : string;
  openedAt : JS.Date;
  closedAt : option JS.Date;
  assignedTo : option string
}.
End SupportIssue.

Module InsertSupportIssue.
Record t : Type := mk {
  userId : string;
  conversationId : Z;
  title : string;
  status : string;
  assignedTo : option string
}.
End InsertSupportIssue.

(** ** The messaging platform: inbound messages and outbound calls *)

Module Telegram.

(** [TelegramBot.User]. *)
Record TgUser : Type := mkUser {
  id : Z;
  first_name : string;
  last_name : option string;
  username : option string;
  language_code : option string;
  is_premium : option bool
}.

(** [PhotoSize], [Document], [Video], [Audio], [Voice]: only the
    [file_id] is read. *)
Record TgFile : Type := mkFile { file_id : string }.

(** The replied-to message: only its [message_id] is read. *)
Record TgReply : Type := mkReply { reply_message_id : Z }.

(** [TelegramBot.Message]. *)
Record Message : Type := mkMessage {
  message_id : Z;
  from : option TgUser;
  chat_id : Z;
  text : option string;
  caption : option string;
  reply_to_message : option TgReply;
  photo : option (list TgFile);
  document : option TgFile;
  video : option TgFile;
  audio : option TgFile;
  voice : option TgFile
}.

Record WebhookUpdate : Type := mkUpdate {
  update_id : Z;
  message : option Message;
  edited_message : option Message;
  channel_post : option Message;
  edited_channel_post : option Message
}.

(** A chat identifier is passed as a number or as a string. *)
Inductive ChatId : Type :=
| ChatNum (n : Z)
| ChatStr (s : string).

(** Options of the send calls; an absent key is [None]. *)
Record SendOptions : Type := mkOptions {
  opt_caption : option string;
  reply_to_message_id : option JS.number;
  parse_mode : option string
}.

(** Calls made on the bot client. *)
Inductive Call : Type :=
| SendMessage (chatId : ChatId) (text : string) (options : option SendOptions)
| SendPhoto (chatId : ChatId) (fileId : string) (options : SendOptions)
| SendDocument (chatId : ChatId) (fileId : string) (options : SendOptions)
| SendVideo (chatId : ChatId) (fileId : string) (options : SendOptions)
| GetUserProfilePhotos (userId : JS.number) (offset limit : Z)
| GetFileLink (fileId : string)
| CreateForumTopic (chatId : ChatId) (name : string).

(** A call together with whether its promise resolved. *)
Record Exchange : Type := mkExchange {
  call : Call;
  resolved : bool
}.

(** What the platform and the system clock answer.  Answers may
    depend on the exchanges so far; [None] or [false] is a rejected
    promise. *)
Record Env : Type := mkEnv {
  clock : nat -> JS.Date;
  toLocaleString : JS.Date -> string;
  sendMessage_answer :
    list Exchange -> ChatId -> string -> option SendOptions -> option Z;
  sendMedia_answer : list Exchange -> Call -> bool;
  getUserProfilePhotos_answer :
    list Exchange -> JS.number -> Z -> Z -> option (list (list TgFile));
  getFileLink_answer : list Exchange -> string -> option string;
  createForumTopic_answer : list Exchange -> ChatId -> string -> bool
}.

End Telegram.

(** ** The in-memory record store and the process state *)

Module MemStorage.

Record CurrentIds : Type := mkIds {
  next_users : Z;
  next_conversations : Z;
  next_messages : Z;
  next_supportIssues : Z
}.

Record t : Type := mk {
  users : JS.Map User.t;
  conversations : JS.Map Conversation.t;
  messages : JS.Map Message.t;
  supportIssues : JS.Map SupportIssue.t;
  currentIds : CurrentIds
}.

(** The constructor. *)
Definition new : t :=
  mk JS.Map_empty JS.Map_empty JS.Map_empty JS.Map_empty (mkIds 1 1 1 1).

End MemStorage.

(** The state of the process: the store, the module variable
    [supportGroupId], the exchanges with the platform so far (oldest
    first) and the number of [new Date()] evaluations so far. *)
Record World : Type := mkWorld {
  storage : MemStorage.t;
  supportGroupId : option string;
  outbox : list Telegram.Exchange;
  ticks : nat
}.

(** The process at start-up. *)
Definition initial_world : World := mkWorld MemStorage.new None [] 0%nat.

(** ** The effect monad *)

Inductive Error : Type :=
| GatewayError (c : Telegram.Call)
| TypeError.

Inductive Outcome (A : Type) : Type :=
| Returned (a : A)
| Thrown (e : Error).

Arguments Returned {A} a.
Arguments Thrown {A} e.

Definition M (A : Type) : Type := World -> Outcome A * World.

Definition ret {A} (a : A) : M A := fun w => (Returned a, w).

Definition bind {A B} (m : M A) (f : A -> M B) : M B :=
  fun w =>
    match m w with
    | (Returned a, w') => f a w'
    | (Thrown e, w') => (Thrown e, w')
    end.

Definition throw {A} (e : Error) : M A := fun w => (Thrown e, w).

(** [try { m } catch (error) { h }]. *)
Definition try_catch {A} (m : M A) (h : Error -> M A) : M A :=
  fun w =>
    match m w with
    | (Returned a, w') => (Returned a, w')
    | (Thrown e, w') => h e w'
    end.

Definition gets {A} (f : World -> A) : M A := fun w => (Returned (f w), w).

Definition modify (f : World -> World) : M unit := fun w => (Returned tt, f w).

Notation "x <- c1 ;; c2" := (bind c1 (fun x => c2))
  (at level 61, c1 at next level, right associativity).
Notation "c1 ;;; c2" := (bind c1 (fun _ => c2))
  (at level 61, right associativity).

Definition with_storage (f : MemStorage.t -> MemStorage.t) (w : World) : World :=
  mkWorld (f (storage w)) (supportGroupId w) (outbox w) (ticks w).

(** The calls exchanged between two states of the same run, oldest
    first. *)
Definition sent_since (w w' : World) : list Telegram.Exchange :=
  skipn (List.length (outbox w)) (outbox w').

(** ** [MemStorage] methods *)

Section Store.

Variable env : Telegram.Env.

(** [new Date()]. *)
Definition newDate : M JS.Date :=
  fun w =>
    (Returned (Telegram.clock env (ticks w)),
     mkWorld (storage w) (supportGroupId w) (outbox w) (S (ticks w))).

(** [this.currentIds.users++] and its siblings. *)
Definition next_user_id : M Z :=
  fun w =>
    let s := storage w in
    let ids := MemStorage.currentIds s in
    (Returned (MemStorage.next_users ids),
     with_storage (fun s =>
       MemStorage.mk (MemStorage.users s) (MemStorage.conversations s)
         (MemStorage.messages s) (MemStorage.supportIssues s)
         (MemStorage.mkIds (MemStorage.next_users ids + 1)
            (MemStorage.next_conversations ids)
            (MemStorage.next_messages ids)
            (MemStorage.next_supportIssues ids))) w).

Definition next_conversation_id : M Z :=
  fun w =>
    let s := storage w in
    let ids := MemStorage.currentIds s in
    (Returned (MemStorage.next_conversations ids),
     with_storage (fun s =>
       MemStorage.mk (MemStorage.users s) (MemStorage.conversations s)
         (MemStorage.messages s) (MemStorage.supportIssues s)
         (MemStorage.mkIds (MemStorage.next_users ids)
            (MemStorage.next_conversations ids + 1)
            (MemStorage.next_messages ids)
            (MemStorage.next_supportIssues ids))) w).

Definition next_message_id : M Z :=
  fun w =>
    let s := storage w in
    let ids := MemStorage.currentIds s in
    (Returned (MemStorage.next_messages ids),
     with_storage (fun s =>
       MemStorage.mk (MemStorage.users s) (MemStorage.conversations s)
         (MemStorage.messages s) (MemStorage.supportIssues s)
         (MemStorage.mkIds (MemStorage.next_users ids)
            (MemStorage.next_conversations ids)
            (MemStorage.next_messages ids + 1)
            (MemStorage.next_supportIssues ids))) w).

Definition next_supportIssue_id : M Z :=
  fun w =>
    let s := storage w in
    let ids := MemStorage.currentIds s in
    (Returned (MemStorage.next_supportIssues ids),
     with_storage (fun s =>
       MemStorage.mk (MemStorage.users s) (MemStorage.conversations s)
         (MemStorage.messages s) (MemStorage.supportIssues s)
         (MemStorage.mkIds (MemStorage.next_users ids)
            (MemStorage.next_conversations ids)
            (MemStorage.next_messages ids)
            (MemStorage.next_supportIssues ids + 1))) w).

(** [this.users.set(id, user)] and its siblings. *)
Definition users_set (id : Z) (user : User.t) : M unit :=
  modify (with_storage (fun s =>
    MemStorage.mk (JS.Map_set id user (MemStorage.users s))
      (MemStorage.conversations s) (MemStorage.messages s)
      (MemStorage.supportIssues s) (MemStorage.currentIds s))).

Definition conversations_set (id : Z) (c : Conversation.t) : M unit :=
  modify (with_storage (fun s =>
    MemStorage.mk (MemStorage.users s)
      (JS.Map_set id c (MemStorage.conversations s)) (MemStorage.messages s)
      (MemStorage.supportIssues s) (MemStorage.currentIds s))).

Definition messages_set (id : Z) (m : Message.t) : M unit :=
  modify (with_storage (fun s =>
    MemStorage.mk (MemStorage.users s) (MemStorage.conversations s)
      (JS.Map_set id m (MemStorage.messages s))
      (MemStorage.supportIssues s) (MemStorage.currentIds s))).

Definition supportIssues_set (id : Z) (i : SupportIssue.t) : M unit :=
  modify (with_storage (fun s =>
    MemStorage.mk (MemStorage.users s) (MemStorage.conversations s)
      (MemStorage.messages s)
      (JS.Map_set id i (MemStorage.supportIssues s)) (MemStorage.currentIds s))).

(** [{ ...user, ...updates }]. *)
Definition merge_user (u : User.t) (updates : InsertUser.partial) : User.t :=
  let pick {A} (o : option A) (d : A) := match o with Some a => a | None => d end in
  User.mk (User.id u)
    (pick (InsertUser.p_telegramId updates) (User.telegramId u))
    (pick (InsertUser.p_username updates) (User.username u))
    (pick (InsertUser.p_firstName updates) (User.firstName u))
    (pick (InsertUser.p_lastName updates) (User.lastName u))
    (pick (InsertUser.p_languageCode updates) (User.languageCode u))
    (pick (InsertUser.p_isPremium updates) (User.isPremium u))
    (pick (InsertUser.p_bio updates) (User.bio u))
    (User.joinedAt u)
    (pick (InsertUser.p_profilePhoto updates) (User.profilePhoto u)).

(** [{ ...conversation, ...updates, lastMessageAt: now }]. *)
Definition merge_conversation (c : Conversation.t)
    (updates : InsertConversation.partial) (now : JS.Date) : Conversation.t :=
  let pick {A} (o : option A) (d : A) := match o with Some a => a | None => d end in
  Conversation.mk (Conversation.id c)
    (pick (InsertConversation.p_telegramUserId updates) (Conversation.telegramUserId c))
    (pick (InsertConversation.p_threadId updates) (Conversation.threadId c))
    (pick (InsertConversation.p_status updates) (Conversation.status c))
    now
    (Conversation.createdAt c).

(** *** User methods *)

Definition getUser (id : Z) : M (option User.t) :=
  gets (fun w => JS.Map_get id (MemStorage.users (storage w))).

Definition getUserByTelegramId (telegramId : string) : M (option User.t) :=
  gets (fun w =>
    find (fun user => (User.telegramId user =? telegramId)%string)
      (JS.Map_values (MemStorage.users (storage w)))).

Definition createUser (insertUser : InsertUser.t) : M User.t :=
  id <- next_user_id ;;
  now <- newDate ;;
  let user :=
    User.mk id
      (InsertUser.telegramId insertUser) (InsertUser.username insertUser)
      (InsertUser.firstName insertUser) (InsertUser.lastName insertUser)
      (InsertUser.languageCode insertUser) (InsertUser.isPremium insertUser)
      (InsertUser.bio insertUser) now (InsertUser.profilePhoto insertUser) in
  users_set id user ;;;
  ret user.

Definition updateUser (id : Z) (updates : InsertUser.partial)
    : M (option User.t) :=
  user <- getUser id ;;
  match user with
  | None => ret None
  | Some user =>
      let updatedUser := merge_user user updates in
      users_set id updatedUser ;;;
      ret (Some updatedUser)
  end.

(** *** Conversation methods *)

Definition getConversation (id : Z) : M (option Conversation.t) :=
  gets (fun w => JS.Map_get id (MemStorage.conversations (storage w))).

Definition getConversationByTelegramUserId (telegramUserId : string)
    : M (option Conversation.t) :=
  gets (fun w =>
    find (fun conversation =>
            (Conversation.telegramUserId conversation =? telegramUserId)%string)
      (JS.Map_values (MemStorage.conversations (storage w)))).

Definition getConversationByThreadId (threadId : string)
    : M (option Conversation.t) :=
  gets (fun w =>
    find (fun conversation =>
            match Conversation.threadId conversation with
            | Some t => (t =? threadId)%string
            | None => false
            end)
      (JS.Map_values (MemStorage.conversations (storage w)))).

Definition createConversation (insertConversation : InsertConversation.t)
    : M Conversation.t :=
  id <- next_conversation_id ;;
  now <- newDate ;;
  let conversation :=
    Conversation.mk id
      (InsertConversation.telegramUserId insertConversation)
      (InsertConversation.threadId insertConversation)
      (InsertConversation.status insertConversation)
      now now in
  conversations_set id conversation ;;;
  ret conversation.

Definition updateConversation (id : Z) (updates : InsertConversation.partial)
    : M (option Conversation.t) :=
  conversation <- getConversation id ;;
  match conversation with
  | None => ret None
  | Some conversation =>
      now <- newDate ;;
      let updatedConversation := merge_conversation conversation updates now in
      conversations_set id updatedConversation ;;;
      ret (Some updatedConversation)
  end.

(** [limit] is [None] when the argument is omitted (default 50). *)
Definition listConversations (limit : option Z) : M (list Conversation.t) :=
  let limit := match limit with Some l => l | None => 50 end in
  gets (fun w =>
    JS.slice_to limit
      (JS.sort
         (fun a b => Conversation.lastMessageAt b - Conversation.lastMessageAt a)
         (JS.Map_values (MemStorage.conversations (storage w))))).

(** *** Message methods *)

Definition createMessage (insertMessage : InsertMessage.t) : M Message.t :=
  id <- next_message_id ;;
  now <- newDate ;;
  let message :=
    Message.mk id
      (InsertMessage.conversationId insertMessage)
      (InsertMessage.telegramMessageId insertMessage)
      (InsertMessage.senderId insertMessage)
      (InsertMessage.senderType insertMessage)
      (InsertMessage.senderName insertMessage)
      (InsertMessage.content insertMessage)
      (InsertMessage.mediaType insertMessage)
      (InsertMessage.mediaUrl insertMessage)
      now in
  messages_set id message ;;;
  conversation <- getConversation (Message.conversationId message) ;;
  match conversation with
  | Some conversation =>
      updateConversation (Conversation.id conversation)
        InsertConversation.no_updates ;;;
      ret message
  | None => ret message
  end.

(** [limit] is [None] when the argument is omitted (default 50). *)
Definition getMessagesByConversationId (conversationId : Z) (limit : option Z)
    : M (list Message.t) :=
  let limit := match limit with Some l => l | None => 50 end in
  gets (fun w =>
    JS.slice_from (- limit)
      (JS.sort (fun a b => Message.sentAt a - Message.sentAt b)
         (filter (fun message => Message.conversationId message =? conversationId)
            (JS.Map_values (MemStorage.messages (storage w)))))).

(** *** Support issue methods *)

Definition getSupportIssueByConversationId (conversationId : Z)
    : M (option SupportIssue.t) :=
  gets (fun w =>
    find (fun issue => SupportIssue.conversationId issue =? conversationId)
      (JS.Map_values (MemStorage.supportIssues (storage w)))).

Definition createSupportIssue (insertIssue : InsertSupportIssue.t)
    : M SupportIssue.t :=
  id <- next_supportIssue_id ;;
  now <- newDate ;;
  let issue :=
    SupportIssue.mk id
      (InsertSupportIssue.userId insertIssue)
      (InsertSupportIssue.conversationId insertIssue)
      (InsertSupportIssue.title insertIssue)
      (InsertSupportIssue.status insertIssue)
      now None
      (InsertSupportIssue.assignedTo insertIssue) in
  supportIssues_set id issue ;;;
  ret issue.

End Store.

(** ** The router (server/telegram.ts) *)

Section Router.

Variable env : Telegram.Env.

Import Telegram.

Definition nl : string := String (ascii_of_nat 10) EmptyString.

Definition WELCOME : string :=
  "👋 Welcome to our support bot! How can I help you today?".

(** *** Calls on the bot client

    Every call is recorded in the outbox with its outcome. *)

Definition record (c : Call) (ok : bool) (w : World) : World :=
  mkWorld (storage w) (supportGroupId w)
    (outbox w ++ [mkExchange c ok]) (ticks w).

Definition bot_sendMessage (chatId : ChatId) (text : string)
    (options : option SendOptions) : M Z :=
  fun w =>
    let c := SendMessage chatId text options in
    match sendMessage_answer env (outbox w) chatId text options with
    | Some message_id => (Returned message_id, record c true w)
    | None => (Thrown (GatewayError c), record c false w)
    end.

Definition bot_sendMedia (c : Call) : M unit :=
  fun w =>
    if sendMedia_answer env (outbox w) c
    then (Returned tt, record c true w)
    else (Thrown (GatewayError c), record c false w).

Definition bot_sendPhoto (chatId : ChatId) (fileId : string)
    (options : SendOptions) : M unit :=
  bot_sendMedia (SendPhoto chatId fileId options).

Definition bot_sendDocument (chatId : ChatId) (fileId : string)
    (options : SendOptions) : M unit :=
  bot_sendMedia (SendDocument chatId fileId options).

Definition bot_sendVideo (chatId : ChatId) (fileId : string)
    (options : SendOptions) : M unit :=
  bot_sendMedia (SendVideo chatId fileId options).

Definition bot_getUserProfilePhotos (userId : JS.number) (offset limit : Z)
    : M (list (list TgFile)) :=
  fun w =>
    let c := GetUserProfilePhotos userId offset limit in
    match getUserProfilePhotos_answer env (outbox w) userId offset limit with
    | Some photos => (Returned photos, record c true w)
    | None => (Thrown (GatewayError c), record c false w)
    end.

Definition bot_getFileLink (fileId : string) : M string :=
  fun w =>
    let c := GetFileLink fileId in
    match getFileLink_answer env (outbox w) fileId with
    | Some link => (Returned link, record c true w)
    | None => (Thrown (GatewayError c), record c false w)
    end.

Definition bot_createForumTopic (chatId : ChatId) (name : string) : M unit :=
  fun w =>
    let c := CreateForumTopic chatId name in
    if createForumTopic_answer env (outbox w) chatId name
    then (Returned tt, record c true w)
    else (Thrown (GatewayError c), record c false w).

(** *** Schema validation

    The insert schemas derived from the tables require the [notNull]
    columns to be strings or integers and let the others be null.
    The record types above already say so: on the data the router
    builds, [parse] returns its argument. *)

Definition insertUserSchema_parse (d : InsertUser.t) : M InsertUser.t := ret d.
Definition insertConversationSchema_parse (d : InsertConversation.t)
    : M InsertConversation.t := ret d.
Definition insertMessageSchema_parse (d : InsertMessage.t)
    : M InsertMessage.t := ret d.
Definition insertSupportIssueSchema_parse (d : InsertSupportIssue.t)
    : M InsertSupportIssue.t := ret d.

(** *** Module variable *)

Definition setSupportGroupId (groupId : string) : M unit :=
  modify (fun w => mkWorld (storage w) (Some groupId) (outbox w) (ticks w)).

Definition getSupportGroupId : M (option string) := gets supportGroupId.

(** *** Media utilities *)

Definition getMediaType (message : Message) : option string :=
  match photo message with
  | Some _ => Some "photo"
  | None =>
  match document message with
  | Some _ => Some "document"
  | None =>
  match video message with
  | Some _ => Some "video"
  | None =>
  match audio message with
  | Some _ => Some "audio"
  | None =>
  match voice message with
  | Some _ => Some "voice"
  | None => None
  end end end end end.

(** Reading [file_id] of the last element of an empty [photo] array
    throws. *)
Definition getFileId (message : Message) : M (option string) :=
  match photo message with
  | Some sizes =>
      match JS.last_elem sizes with
      | Some size => ret (Some (file_id size))
      | None => throw TypeError
      end
  | None =>
  match document message with
  | Some f => ret (Some (file_id f))
  | None =>
  match video message with
  | Some f => ret (Some (file_id f))
  | None =>
  match audio message with
  | Some f => ret (Some (file_id f))
  | None =>
  match voice message with
  | Some f => ret (Some (file_id f))
  | None => ret None
  end end end end end.

Definition getMediaUrl (message : Message) : M (option string) :=
  fileId <- getFileId message ;;
  ret fileId.

(** [message.photo || message.document || message.video ||
    message.audio || message.voice]. *)
Definition has_media (message : Message) : bool :=
  match photo message, document message, video message,
        audio message, voice message with
  | None, None, None, None, None => false
  | _, _, _, _, _ => true
  end.

(** [first_name + (last_name ? ` ${last_name}` : '')]. *)
Definition senderName (from : TgUser) : string :=
  first_name from ++
  (if JS.truthy (last_name from) then " " ++ JS.or_else (last_name from) "" else "").

(** *** Messages sent from users directly to the bot *)

(** Lines 68-91: get or create the user, welcoming a new one. *)
Definition getOrCreateUser (message : Message) (from : TgUser)
    (telegramId : string) : M User.t :=
  user <- getUserByTelegramId telegramId ;;
  match user with
  | Some user => ret user
  | None =>
      let userData :=
        InsertUser.mk telegramId
          (JS.or_null (username from))
          (first_name from)
          (JS.or_null (last_name from))
          (JS.or_null (language_code from))
          (Some (JS.to_boolean (is_premium from)))
          None None in
      validatedUser <- insertUserSchema_parse userData ;;
      user <- createUser env validatedUser ;;
      bot_sendMessage (ChatNum (chat_id message)) WELCOME None ;;;
      ret user
  end.

(** Lines 93-106: get or create the conversation. *)
Definition getOrCreateConversation (telegramId : string) : M Conversation.t :=
  conversation <- getConversationByTelegramUserId telegramId ;;
  match conversation with
  | Some conversation => ret conversation
  | None =>
      let conversationData := InsertConversation.mk telegramId None "open" in
      validatedConversation <- insertConversationSchema_parse conversationData ;;
      createConversation env validatedConversation
  end.

(** Lines 108-121: store the user message. *)
Definition storeUserMessage (message : Message) (from : TgUser)
    (telegramId : string) (conversation : Conversation.t) : M Message.t :=
  mediaUrl <- getMediaUrl message ;;
  let messageData :=
    InsertMessage.mk (Conversation.id conversation)
      (Some (JS.toString (message_id message)))
      telegramId
      "user"
      (Some (senderName from))
      (JS.or_null (text message))
      (getMediaType message)
      mediaUrl in
  validatedMessage <- insertMessageSchema_parse messageData ;;
  createMessage env validatedMessage.

(** The introduction posted to the support group. *)
Definition userInfoText (from : TgUser) (telegramId : string) (now : JS.Date)
    : string :=
  nl ++ "📱 <b>New Support Request</b>" ++ nl ++ nl ++
  "<b>User:</b> " ++ first_name from ++ " " ++ JS.or_else (last_name from) "" ++ nl ++
  "<b>Username:</b> " ++
    (if JS.truthy (username from)
     then "@" ++ JS.or_else (username from) "" else "Not set") ++ nl ++
  "<b>User ID:</b> " ++ telegramId ++ nl ++
  "<b>Language:</b> " ++ JS.or_else (language_code from) "Unknown" ++ nl ++
  "<b>Premium:</b> " ++
    (if JS.to_boolean (is_premium from) then "Yes" else "No") ++ nl ++
  "<b>Date Joined:</b> " ++ toLocaleString env now ++ nl ++ "      ".

(** Lines 127-143: the profile photo, best effort. *)
Definition fetchProfilePhoto (telegramId : string) (user : User.t) : M unit :=
  try_catch
    (photos <- bot_getUserProfilePhotos (JS.parseInt telegramId) 0 1 ;;
     match photos with
     | [] => ret tt
     | sizes :: _ =>
         match sizes with
         | [] => throw TypeError
         | photo :: _ =>
             fileLink <- bot_getFileLink (file_id photo) ;;
             updateUser (User.id user)
               (InsertUser.mk_partial None None None None None None None
                  (Some (Some fileLink))) ;;;
             ret tt
         end
     end)
    (fun _ => ret tt).

(** Lines 126-187: create the thread of a conversation that has none.
    Returns the local [conversation], reassigned when the topic was
    created.  Inside the second [try] only [createForumTopic] can
    throw, so the [catch] leaves [conversation] as it was. *)
Definition createThread (from : TgUser) (telegramId : string)
    (groupId : string) (user : User.t) (conversation : Conversation.t)
    : M Conversation.t :=
  fetchProfilePhoto telegramId user ;;;
  now <- newDate env ;;
  threadMessage <-
    bot_sendMessage (ChatStr groupId) (userInfoText from telegramId now)
      (Some (mkOptions None None (Some "HTML"))) ;;
  try_catch
    (bot_createForumTopic (ChatStr groupId) (first_name from) ;;;
     updateConversation env (Conversation.id conversation)
       (InsertConversation.mk_partial None
          (Some (Some (JS.toString threadMessage))) None) ;;;
     let conversation :=
       Conversation.mk (Conversation.id conversation)
         (Conversation.telegramUserId conversation)
         (Some (JS.toString threadMessage))
         (Conversation.status conversation)
         (Conversation.lastMessageAt conversation)
         (Conversation.createdAt conversation) in
     let issueData :=
       InsertSupportIssue.mk telegramId (Conversation.id conversation)
         "New Support Request" "pending" None in
     validatedIssue <- insertSupportIssueSchema_parse issueData ;;
     createSupportIssue env validatedIssue ;;;
     ret conversation)
    (fun _ => ret conversation).

(** [parseInt(conversation.threadId || '0')]. *)
Definition thread_reply_target (conversation : Conversation.t) : JS.number :=
  JS.parseInt (JS.or_else (Conversation.threadId conversation) "0").

(** Lines 189-195: forward the text to the support group. *)
Definition forwardTextToSupport (message : Message) (from : TgUser)
    (groupId : string) (conversation : Conversation.t) : M unit :=
  match text message with
  | Some text =>
      if JS.truthy (Some text) then
        bot_sendMessage (ChatStr groupId)
          ("<b>" ++ first_name from ++ ":</b> " ++ text)
          (Some (mkOptions None (Some (thread_reply_target conversation))
                   (Some "HTML"))) ;;;
        ret tt
      else ret tt
  | None => ret tt
  end.

(** Lines 197-221: forward the media to the support group. *)
Definition forwardMediaToSupport (message : Message) (from : TgUser)
    (groupId : string) (conversation : Conversation.t) : M unit :=
  if has_media message then
    fileId <- getFileId message ;;
    match fileId with
    | Some fileId =>
        if JS.truthy (Some fileId) then
          let options :=
            mkOptions
              (Some ("<b>" ++ first_name from ++ ":</b> " ++
                     JS.or_else (caption message) ""))
              (Some (thread_reply_target conversation))
              (Some "HTML") in
          match photo message, document message, video message with
          | Some _, _, _ => bot_sendPhoto (ChatStr groupId) fileId options
          | None, Some _, _ => bot_sendDocument (ChatStr groupId) fileId options
          | None, None, Some _ => bot_sendVideo (ChatStr groupId) fileId options
          | None, None, None => ret tt
          end
        else ret tt
    | None => ret tt
    end
  else ret tt.

(** Lines 125-187: create the thread if it does not exist. *)
Definition ensureThread (from : TgUser) (telegramId : string)
    (groupId : string) (user : User.t) (conversation : Conversation.t)
    : M Conversation.t :=
  if negb (JS.truthy (Conversation.threadId conversation))
  then createThread from telegramId groupId user conversation
  else ret conversation.

(** Lines 123-222: forward the message to the support group, when one
    is configured. *)
Definition forwardToSupport (message : Message) (from : TgUser)
    (telegramId : string) (user : User.t) (conversation : Conversation.t)
    : M unit :=
  supportGroupId <- getSupportGroupId ;;
  match supportGroupId with
  | Some groupId =>
      if JS.truthy (Some groupId) then
        conversation <- ensureThread from telegramId groupId user conversation ;;
        forwardTextToSupport message from groupId conversation ;;;
        forwardMediaToSupport message from groupId conversation
      else ret tt
  | None => ret tt
  end.

Definition handleUserDirectMessage (message : Message) : M unit :=
  match from message with
  | None => ret tt
  | Some from =>
      let telegramId := JS.toString (id from) in
      user <- getOrCreateUser message from telegramId ;;
      conversation <- getOrCreateConversation telegramId ;;
      storeUserMessage message from telegramId conversation ;;;
      forwardToSupport message from telegramId user conversation
  end.

(** *** Messages sent within the support group *)

(** Lines 238-251: store the admin message. *)
Definition storeAdminMessage (message : Message) (from : TgUser)
    (conversation : Conversation.t) : M Message.t :=
  mediaUrl <- getMediaUrl message ;;
  let messageData :=
    InsertMessage.mk (Conversation.id conversation)
      (Some (JS.toString (message_id message)))
      (JS.toString (id from))
      "admin"
      (Some (senderName from))
      (JS.or_null (text message))
      (getMediaType message)
      mediaUrl in
  validatedMessage <- insertMessageSchema_parse messageData ;;
  createMessage env validatedMessage.

(** Lines 256-258: forward the text to the user. *)
Definition forwardTextToUser (message : Message) (userTelegramId : string)
    : M unit :=
  match text message with
  | Some text =>
      if JS.truthy (Some text) then
        bot_sendMessage (ChatStr userTelegramId) text None ;;;
        ret tt
      else ret tt
  | None => ret tt
  end.

(** Lines 260-278: forward the media to the user. *)
Definition forwardMediaToUser (message : Message) (userTelegramId : string)
    : M unit :=
  if has_media message then
    fileId <- getFileId message ;;
    match fileId with
    | Some fileId =>
        if JS.truthy (Some fileId) then
          let options := mkOptions (caption message) None None in
          match photo message, document message, video message with
          | Some _, _, _ => bot_sendPhoto (ChatStr userTelegramId) fileId options
          | None, Some _, _ => bot_sendDocument (ChatStr userTelegramId) fileId options
          | None, None, Some _ => bot_sendVideo (ChatStr userTelegramId) fileId options
          | None, None, None => ret tt
          end
        else ret tt
    | None => ret tt
    end
  else ret tt.

Definition handleSupportGroupMessage (message : Message) : M unit :=
  match from message, reply_to_message message with
  | Some from, Some reply_to_message =>
      let replyToMsgId := JS.toString (reply_message_id reply_to_message) in
      conversation <- getConversationByThreadId replyToMsgId ;;
      match conversation with
      | None => ret tt
      | Some conversation =>
          storeAdminMessage message from conversation ;;;
          let userTelegramId := Conversation.telegramUserId conversation in
          forwardTextToUser message userTelegramId ;;;
          forwardMediaToUser message userTelegramId
      end
  | _, _ => ret tt
  end.

(** *** Dispatch *)

Definition handleIncomingMessage (message : Message) : M unit :=
  supportGroupId <- getSupportGroupId ;;
  if JS.truthy supportGroupId &&
     match supportGroupId with
     | Some groupId => (JS.toString (chat_id message) =? groupId)%string
     | None => false
     end
  then handleSupportGroupMessage message
  else handleUserDirectMessage message.

(** The [catch] logs the error and drops the event. *)
Definition processUpdate (update : WebhookUpdate) : M unit :=
  try_catch
    (match Telegram.message update with
     | Some message => handleIncomingMessage message
     | None =>
         match edited_message update with
         | Some _ => ret tt
         | None => ret tt
         end
     end)
    (fun _ => ret tt).

End Router.

(** ** The remaining [MemStorage] methods *)

(** [Partial<InsertSupportIssue>]: [None] is an absent key. *)
Module SupportIssueUpdates.
Record t : Type := mk {
  userId : option string;
  conversationId : option Z;
  title : option string;
  status : option string;
  assignedTo : option (option string)
}.
End SupportIssueUpdates.

(** [{ ...issue, ...updates }]. *)
Definition merge_issue (i : SupportIssue.t) (updates : SupportIssueUpdates.t)
    : SupportIssue.t :=
  let pick {A} (o : option A) (d : A) := match o with Some a => a | None => d end in
  SupportIssue.mk (SupportIssue.id i)
    (pick (SupportIssueUpdates.userId updates) (SupportIssue.userId i))
    (pick (SupportIssueUpdates.conversationId updates) (SupportIssue.conversationId i))
    (pick (SupportIssueUpdates.title updates) (SupportIssue.title i))
    (pick (SupportIssueUpdates.status updates) (SupportIssue.status i))
    (SupportIssue.openedAt i)
    (SupportIssue.closedAt i)
    (pick (SupportIssueUpdates.assignedTo updates) (SupportIssue.assignedTo i)).

Definition getMessage (id : Z) : M (option Message.t) :=
  gets (fun w => JS.Map_get id (MemStorage.messages (storage w))).

Definition getSupportIssue (id : Z) : M (option SupportIssue.t) :=
  gets (fun w => JS.Map_get id (MemStorage.supportIssues (storage w))).

Definition updateSupportIssue (id : Z) (updates : SupportIssueUpdates.t)
    : M (option SupportIssue.t) :=
  issue <- getSupportIssue id ;;
  match issue with
  | None => ret None
  | Some issue =>
      let updatedIssue := merge_issue issue updates in
      supportIssues_set id updatedIssue ;;;
      ret (Some updatedIssue)
  end.

Definition listSupportIssuesByUserId (userId : string)
    : M (list SupportIssue.t) :=
  gets (fun w =>
    JS.sort (fun a b => SupportIssue.openedAt b - SupportIssue.openedAt a)
      (filter (fun issue => (SupportIssue.userId issue =? userId)%string)
         (JS.Map_values (MemStorage.supportIssues (storage w))))).

(** ** The HTTP routes (server/routes.ts)

    A handler is named after its method and path.  What it writes to
    [res] is its result: [res.json({ success: true, data })] is
    [Success data], [res.status(s).json({ success: false, error })] is
    [Failure s error] and [res.status(s).send(text)] is [Text s text]. *)

Module Routes.

Inductive Response (A : Type) : Type :=
| Success (data : A)
| Failure (status : Z) (error : string)
| Text (status : Z) (text : string).

Arguments Success {A} data.
Arguments Failure {A} status error.
Arguments Text {A} status text.

(** The status line of a response; [res.json] alone answers 200. *)
Definition status_of {A} (r : Response A) : Z :=
  match r with
  | Success _ => 200
  | Failure s _ => s
  | Text s _ => s
  end.

(** The [data] of [GET /api/conversations/:id/messages]. *)
Record ConversationData : Type := mkConversationData {
  conversation : Conversation.t;
  messages : list Message.t;
  user : option User.t;
  supportIssue : option SupportIssue.t
}.

(** The [data] of [GET /api/users/:id]. *)
Record UserData : Type := mkUserData {
  the_user : User.t;
  supportIssues : list SupportIssue.t
}.

Section Handlers.

Variable env : Telegram.Env.

(** [POST /api/webhook]. *)
Definition post_webhook (body : Telegram.WebhookUpdate) : M (Response unit) :=
  try_catch
    (processUpdate env body ;;;
     ret (Text 200 "OK"))
    (fun _ => ret (Text 500 "Error processing webhook")).

(** [POST /api/bot/support-group].  [groupId] is the field of that name
    in the body when it is a string; the schema rejects any other body. *)
Definition post_support_group (groupId : option string) : M (Response string) :=
  try_catch
    (match groupId with
     | Some groupId =>
         setSupportGroupId groupId ;;;
         ret (Success groupId)
     | None => throw TypeError
     end)
    (fun _ => ret (Failure 500 "Failed to set support group ID")).

(** [GET /api/bot/support-group]. *)
Definition get_support_group : M (Response (option string)) :=
  try_catch
    (groupId <- getSupportGroupId ;;
     ret (Success groupId))
    (fun _ => ret (Failure 500 "Failed to get support group ID")).

(** [GET /api/conversations]. *)
Definition get_conversations : M (Response (list Conversation.t)) :=
  try_catch
    (conversations <- listConversations None ;;
     ret (Success conversations))
    (fun _ => ret (Failure 500 "Failed to get conversations")).

(** [GET /api/conversations/:id]. *)
Definition get_conversation (id : string) : M (Response Conversation.t) :=
  try_catch
    (match JS.parseInt id with
     | JS.NaN => ret (Failure 400 "Invalid conversation ID")
     | JS.Num id =>
         conversation <- getConversation id ;;
         match conversation with
         | None => ret (Failure 404 "Conversation not found")
         | Some conversation => ret (Success conversation)
         end
     end)
    (fun _ => ret (Failure 500 "Failed to get conversation")).

(** [GET /api/conversations/:id/messages]. *)
Definition get_conversation_messages (id : string)
    : M (Response ConversationData) :=
  try_catch
    (match JS.parseInt id with
     | JS.NaN => ret (Failure 400 "Invalid conversation ID")
     | JS.Num id =>
         conversation <- getConversation id ;;
         match conversation with
         | None => ret (Failure 404 "Conversation not found")
         | Some conversation =>
             messages <- getMessagesByConversationId id None ;;
             user <- getUserByTelegramId
                       (Conversation.telegramUserId conversation) ;;
             supportIssue <- getSupportIssueByConversationId id ;;
             ret (Success
                    (mkConversationData conversation messages user supportIssue))
         end
     end)
    (fun _ => ret (Failure 500 "Failed to get conversation messages")).

(** [GET /api/users]: the handler reads the store's map directly. *)
Definition get_users : M (Response (list User.t)) :=
  try_catch
    (users <- gets (fun w =>
       JS.sort (fun a b => User.joinedAt b - User.joinedAt a)
         (JS.Map_values (MemStorage.users (storage w)))) ;;
     ret (Success users))
    (fun _ => ret (Failure 500 "Failed to get users")).

(** [GET /api/users/:id]. *)
Definition get_user (id : string) : M (Response UserData) :=
  try_catch
    (match JS.parseInt id with
     | JS.NaN => ret (Failure 400 "Invalid user ID")
     | JS.Num id =>
         user <- getUser id ;;
         match user with
         | None => ret (Failure 404 "User not found")
         | Some user =>
             supportIssues <- listSupportIssuesByUserId (User.telegramId user) ;;
             ret (Success (mkUserData user supportIssues))
         end
     end)
    (fun _ => ret (Failure 500 "Failed to get user")).

End Handlers.

End Routes.

(** ** Views of the store and of the outbox *)

(** The platform calls that carry media. *)
Definition is_media_call (c : Telegram.Call) : bool :=
  match c with
  | Telegram.SendPhoto _ _ _
  | Telegram.SendDocument _ _ _
  | Telegram.SendVideo _ _ _ => true
  | _ => false
  end.

(** Views of the store: what the lookups by secondary key read.
    [Map_view f m] keeps the keys and the order of [m]. *)
Definition Map_view {V W} (f : V -> W) (m : JS.Map V) : JS.Map W :=
  map (fun e => (fst e, f (snd e))) m.

(** The four collections and the counters. *)
Definition the_messages (w : World) : JS.Map Message.t :=
  MemStorage.messages (storage w).

Definition the_issues (w : World) : JS.Map SupportIssue.t :=
  MemStorage.supportIssues (storage w).

Definition the_conversations (w : World) : JS.Map Conversation.t :=
  MemStorage.conversations (storage w).

Definition the_users (w : World) : JS.Map User.t :=
  MemStorage.users (storage w).

Definition the_ids (w : World) : MemStorage.CurrentIds :=
  MemStorage.currentIds (storage w).

(** The external id of every user. *)
Definition user_index (w : World) : JS.Map string :=
  Map_view User.telegramId (the_users w).

(** Every field of a conversation but the last-activity timestamp. *)
Record ConversationCore : Type := mkCore {
  core_id : Z;
  core_owner : string;
  core_thread : option string;
  core_status : string;
  core_createdAt : JS.Date
}.

Definition conversation_core (c : Conversation.t) : ConversationCore :=
  mkCore (Conversation.id c) (Conversation.telegramUserId c)
    (Conversation.threadId c) (Conversation.status c)
    (Conversation.createdAt c).

Definition conversation_index (w : World) : JS.Map ConversationCore :=
  Map_view conversation_core (the_conversations w).

(** The conversation the router picks for an external user id, and the
    user it picks. *)
Definition conversation_of (telegramUserId : string) (w : World)
    : option Conversation.t :=
  find (fun c => (Conversation.telegramUserId c =? telegramUserId)%string)
    (JS.Map_values (the_conversations w)).

Definition user_of (telegramId : string) (w : World) : option User.t :=
  find (fun u => (User.telegramId u =? telegramId)%string)
    (JS.Map_values (the_users w)).

(** The support issues bound to a conversation. *)
Definition issues_of (conversationId : Z) (w : World) : list SupportIssue.t :=
  filter (fun i => SupportIssue.conversationId i =? conversationId)
    (JS.Map_values (the_issues w)).

(** The test of [handleIncomingMessage]: a support group is configured
    and the message comes from its chat. *)
Definition in_support_group (w : World) (message : Telegram.Message) : bool :=
  JS.truthy (supportGroupId w) &&
  match supportGroupId w with
  | Some groupId => (JS.toString (Telegram.chat_id message) =? groupId)%string
  | None => false
  end.

(** ** Example inputs *)

Module Examples.
Import Telegram.

(** A platform on which every call resolves; the n-th exchange
    returns message id 500 + n. *)
Definition ok_env : Env :=
  mkEnv (fun n => 1000 + Z.of_nat n) (fun d => JS.toString d)
    (fun h _ _ _ => Some (500 + Z.of_nat (List.length h)))
    (fun _ _ => true)
    (fun _ _ _ _ => Some [])
    (fun _ f => Some ("https://files/" ++ f))
    (fun _ _ _ => true).

(** As [ok_env], but forum topics cannot be created. *)
Definition no_topic_env : Env :=
  mkEnv (clock ok_env) (toLocaleString ok_env)
    (sendMessage_answer ok_env) (sendMedia_answer ok_env)
    (getUserProfilePhotos_answer ok_env) (getFileLink_answer ok_env)
    (fun _ _ _ => false).

(** As [ok_env], but text messages are rejected. *)
Definition no_send_env : Env :=
  mkEnv (clock ok_env) (toLocaleString ok_env)
    (fun _ _ _ _ => None) (sendMedia_answer ok_env)
    (getUserProfilePhotos_answer ok_env) (getFileLink_answer ok_env)
    (createForumTopic_answer ok_env).

Definition alice : TgUser := mkUser 111 "Alice" None None None None.
Definition bob : TgUser := mkUser 5 "Bob" None None None None.

Definition plain (message_id : Z) (from : option TgUser) (chat : Z)
    (text : option string) : Message :=
  mkMessage message_id from chat text None None None None None None None.

(** Alice writes "help" to the bot, then "hello?". *)
Definition msg_help : Message := plain 7 (Some alice) 111 (Some "help").
Definition msg_again : Message := plain 8 (Some alice) 111 (Some "hello?").

(** A message with no sender. *)
Definition msg_anonymous : Message := plain 9 None 111 (Some "help").

(** A photo that also carries a document, and a voice note. *)
Definition msg_photo_and_document : Message :=
  mkMessage 10 (Some alice) 111 None (Some "see") None
    (Some [mkFile "small"; mkFile "large"]) (Some (mkFile "doc")) None None None.
Definition msg_voice : Message :=
  mkMessage 11 (Some alice) 111 None None None
    None None None None (Some (mkFile "ogg")).

(** The support group is chat -100. *)
Definition support_world : World := mkWorld MemStorage.new (Some "-100") [] 0%nat.

(** The state after Alice's first message, with and without a topic. *)
Definition after_help : World :=
  snd (handleUserDirectMessage ok_env msg_help support_world).
Definition after_help_no_topic : World :=
  snd (handleUserDirectMessage no_topic_env msg_help support_world).

(** Messages in the support group: a reply to Alice's thread, a reply
    to an unknown message, and one that is no reply. *)
Definition reply_to (thread : Z) (m : Message) : Message :=
  mkMessage (message_id m) (from m) (chat_id m) (text m) (caption m)
    (Some (mkReply thread)) (photo m) (document m) (video m) (audio m) (voice m).
Definition admin_reply : Message :=
  reply_to 502 (plain 20 (Some bob) (-100) (Some "On it")).
Definition stray_reply : Message :=
  reply_to 999 (plain 21 (Some bob) (-100) (Some "lunch?")).
Definition chatter : Message := plain 22 (Some bob) (-100) (Some "lunch?").
Definition admin_photo_reply : Message :=
  reply_to 502
    (mkMessage 23 (Some bob) (-100) None (Some "look") None
       (Some [mkFile "thumb"; mkFile "full"]) None None None None).

Definition alice_conversation : Conversation.t :=
  Conversation.mk 1 "111" (Some "502") "open" 1005 1001.

Definition alice_insert : InsertUser.t :=
  InsertUser.mk "111" None "Alice" None None (Some false) None None.

(** Three stored messages of conversation 1 and one of conversation 2. *)
Definition stored (id conversationId sentAt : Z) : Message.t :=
  Message.mk id conversationId None "111" "user" None None None None sentAt.
Definition messages_world : World :=
  mkWorld
    (MemStorage.mk [] [] [(1, stored 1 1 10); (2, stored 2 2 11);
                            (3, stored 3 1 12); (4, stored 4 1 13)] []
       (MemStorage.mkIds 1 1 5 1))
    None [] 0%nat.

End Examples.

(** ** Reading a run: relations, invariants and policies *)

Local Open Scope list_scope.

(** [respects R m]: whatever [m] returns or throws, the state it leaves
    is related by [R] to the state it started from.  For a reflexive and
    transitive [R] this passes through the monad's combinators. *)
Definition respects {A} (R : World -> World -> Prop) (m : M A) : Prop :=
  forall w, R w (snd (m w)).

(** A projection of the state is left as it was. *)
Definition same {X} (f : World -> X) : World -> World -> Prop :=
  fun w w' => f w' = f w.

(** The outbox grows, by exchanges that all satisfy [P]. *)
Definition sends (P : Telegram.Exchange -> Prop) : World -> World -> Prop :=
  fun w w' => exists new, outbox w' = outbox w ++ new /\ Forall P new.

(** Two relations at once. *)
Definition both (R1 R2 : World -> World -> Prop) : World -> World -> Prop :=
  fun w w' => R1 w w' /\ R2 w w'.

(** Reflexive and transitive relations on states. *)
Record preorder (R : World -> World -> Prop) : Prop := {
  pre_refl : forall w, R w w;
  pre_trans : forall w1 w2 w3, R w1 w2 -> R w2 w3 -> R w1 w3
}.

(** The stored messages of a conversation, in insertion order. *)
Definition stored_messages (conversationId : Z) (w : World) : list Message.t :=
  filter (fun m => Message.conversationId m =? conversationId)
    (JS.Map_values (the_messages w)).

(** Every message in the store either was there before, under the same
    key, or satisfies [Q]. *)
Definition stores (Q : Message.t -> Prop) : World -> World -> Prop :=
  fun w w' =>
    forall k m, JS.Map_get k (the_messages w') = Some m ->
                JS.Map_get k (the_messages w) = Some m \/ Q m.

(** The media fields of a stored message are those of the inbound
    message: the kind is [getMediaType]'s and the reference is what
    [getFileId] returns. *)
Definition recorded_media (message : Telegram.Message) (m : Message.t) : Prop :=
  Message.mediaType m = getMediaType message /\
  forall w, getFileId message w = (Returned (Message.mediaUrl m), w).

(** The identifiers in use, in insertion order. *)
Definition conversation_keys (w : World) : list Z :=
  JS.Map_keys (the_conversations w).

Definition user_keys (w : World) : list Z := JS.Map_keys (the_users w).

(** The owner of every conversation. *)
Definition conversation_owner_index (w : World) : JS.Map string :=
  Map_view Conversation.telegramUserId (the_conversations w).

(** The welcome message, whatever the chat. *)
Definition is_welcome_call (x : Telegram.Exchange) : bool :=
  match Telegram.call x with
  | Telegram.SendMessage (Telegram.ChatNum _) t None => (t =? WELCOME)%string
  | _ => false
  end.

(** The creation of a forum topic. *)
Definition is_topic_call (x : Telegram.Exchange) : bool :=
  match Telegram.call x with
  | Telegram.CreateForumTopic _ _ => true
  | _ => false
  end.

(** What holds of every store the router builds from the empty one:
    identifiers are below the counters, a conversation is filed under
    its own id and belongs to a stored user, a thread reference is null
    or a non-empty string, and a support issue belongs to a conversation
    whose thread reference is set, at most one per conversation. *)
Record WellFormed (w : World) : Prop := {
  wf_user_keys :
    forall k, In k (JS.Map_keys (user_index w)) ->
              k < MemStorage.next_users (the_ids w);
  wf_conversation_keys :
    forall k, In k (JS.Map_keys (conversation_index w)) ->
              k < MemStorage.next_conversations (the_ids w);
  wf_issue_keys :
    forall k, In k (JS.Map_keys (the_issues w)) ->
              k < MemStorage.next_supportIssues (the_ids w);
  wf_conversation_nodup : NoDup (JS.Map_keys (conversation_index w));
  wf_conversation_ids :
    forall k x, In (k, x) (conversation_index w) -> core_id x = k;
  wf_conversation_users :
    forall x, In x (JS.Map_values (conversation_index w)) ->
              In (core_owner x) (JS.Map_values (user_index w));
  wf_threads :
    forall x, In x (JS.Map_values (conversation_index w)) ->
              core_thread x = None \/ JS.truthy (core_thread x) = true;
  wf_issues :
    forall i, In i (JS.Map_values (the_issues w)) ->
      exists x, JS.Map_get (SupportIssue.conversationId i) (conversation_index w)
                = Some x /\
                JS.truthy (core_thread x) = true;
  wf_issue_unique :
    forall conversationId, (List.length (issues_of conversationId w) <= 1)%nat
}.

(** The calls made while a thread is set up, before the topic itself. *)
Definition is_thread_setup_call (x : Telegram.Exchange) : bool :=
  match Telegram.call x with
  | Telegram.GetUserProfilePhotos _ _ _ => true
  | Telegram.GetFileLink _ => true
  | _ => false
  end.

(** The local [conversation] of a handler agrees with the store: it is
    filed under its id, and it is the conversation the router picks for
    its owner (up to the last-activity timestamp). *)
Definition tracks (c : Conversation.t) (w : World) : Prop :=
  JS.Map_get (Conversation.id c) (conversation_index w)
  = Some (conversation_core c) /\
  find (fun x => (core_owner x =? Conversation.telegramUserId c)%string)
    (JS.Map_values (conversation_index w))
  = Some (conversation_core c).

(** [{ ...conversation, threadId }]. *)
Definition with_thread (c : Conversation.t) (thread : string) : Conversation.t :=
  Conversation.mk (Conversation.id c) (Conversation.telegramUserId c)
    (Some thread) (Conversation.status c) (Conversation.lastMessageAt c)
    (Conversation.createdAt c).

(** The outcomes of the topic creations among some exchanges. *)
Definition topic_outcomes (sent : list Telegram.Exchange) : list bool :=
  map Telegram.resolved (filter is_topic_call sent).

(** The states of a process that started with an empty store and has
    since handled webhook updates and changes of the support group. *)
Inductive reachable (env : Telegram.Env) : World -> Prop :=
| reach_initial : reachable env initial_world
| reach_update update w :
    reachable env w -> reachable env (snd (processUpdate env update w))
| reach_group groupId w :
    reachable env w -> reachable env (snd (setSupportGroupId groupId w)).

(** The states that come after a state, by the same steps. *)
Inductive later (env : Telegram.Env) (w : World) : World -> Prop :=
| later_now : later env w w
| later_update update w1 :
    later env w w1 -> later env w (snd (processUpdate env update w1))
| later_group groupId w1 :
    later env w w1 -> later env w (snd (setSupportGroupId groupId w1)).



(** The policy of the specification: photo, document and video are
    relayed to the other side, by the call of the same name; audio and
    voice are not. *)
Definition forwardable (mediaType : option string) : bool :=
  match mediaType with
  | Some kind =>
      (kind =? "photo")%string || (kind =? "document")%string
      || (kind =? "video")%string
  | None => false
  end.

(** The call that relays a media kind, if any. *)
Definition media_call (mediaType : option string) (chatId : Telegram.ChatId)
    (fileId : string) (options : Telegram.SendOptions) : option Telegram.Call :=
  match mediaType with
  | Some kind =>
      if (kind =? "photo")%string
      then Some (Telegram.SendPhoto chatId fileId options)
      else if (kind =? "document")%string
      then Some (Telegram.SendDocument chatId fileId options)
      else if (kind =? "video")%string
      then Some (Telegram.SendVideo chatId fileId options)
      else None
  | None => None
  end.

(** The options of a media forward, in each direction. *)
Definition support_media_options (message : Telegram.Message)
    (from : Telegram.TgUser) (conversation : Conversation.t)
    : Telegram.SendOptions :=
  Telegram.mkOptions
    (Some ("<b>" ++ Telegram.first_name from ++ ":</b> "
           ++ JS.or_else (Telegram.caption message) "")%string)
    (Some (thread_reply_target conversation))
    (Some "HTML"%string).

Definition user_media_options (message : Telegram.Message)
    : Telegram.SendOptions :=
  Telegram.mkOptions (Telegram.caption message) None None.

(** ** Example runs *)

Module Runs.

(** Alice's first message and a reply from the support group, as
    webhook updates handled one after the other. *)
Definition help_update : Telegram.WebhookUpdate :=
  Telegram.mkUpdate 1 (Some Examples.msg_help) None None None.

Definition after_help_update : World :=
  snd (processUpdate Examples.ok_env help_update Examples.support_world).

Definition reply_update : Telegram.WebhookUpdate :=
  Telegram.mkUpdate 2 (Some Examples.admin_reply) None None None.

Definition after_reply_update : World :=
  snd (processUpdate Examples.ok_env reply_update after_help_update).

(** An edited message: the update carries no [message]. *)
Definition edit_update : Telegram.WebhookUpdate :=
  Telegram.mkUpdate 3 None (Some Examples.msg_help) None None.

End Runs.

(** [keeps I]: a step that starts where [I] holds ends where [I] holds. *)
Definition keeps (I : World -> Prop) : World -> World -> Prop :=
  fun w w' => I w -> I w'.

(** The clock is read more and more often. *)
Definition ticks_grow : World -> World -> Prop :=
  fun w w' => (ticks w <= ticks w')%nat.

(** No two users share an external id, and no two conversations an
    owner. *)
Definition unique_owners (w : World) : Prop :=
  NoDup (JS.Map_values (user_index w)) /\
  NoDup (JS.Map_values (conversation_owner_index w)).

(** Every thread reference is the printed id of a message. *)
Definition threads_printed (w : World) : Prop :=
  forall c, In c (JS.Map_values (the_conversations w)) ->
    Conversation.threadId c = None \/
    exists threadMessage,
      Conversation.threadId c = Some (JS.toString threadMessage).

(** The clock never runs backwards. *)
Definition monotone_clock (env : Telegram.Env) : Prop :=
  forall i j, (i <= j)%nat -> Telegram.clock env i <= Telegram.clock env j.

(** The messages are stored in the order of their timestamps, none of
    them later than the next clock reading, under identifiers below the
    counter. *)
Record messages_in_order (env : Telegram.Env) (w : World) : Prop := {
  ordered_keys :
    forall k, In k (JS.Map_keys (the_messages w)) ->
              k < MemStorage.next_messages (the_ids w);
  ordered_stamps :
    StronglySorted (fun a b => Message.sentAt a <= Message.sentAt b)
      (JS.Map_values (the_messages w));
  ordered_past :
    Forall (fun m => Message.sentAt m <= Telegram.clock env (ticks w))
      (JS.Map_values (the_messages w))
}.

(** Every stored message belongs to a stored conversation and is marked
    as written by a user or by an admin. *)
Definition messages_filed (w : World) : Prop :=
  forall k m, JS.Map_get k (the_messages w) = Some m ->
              In (Message.conversationId m) (conversation_keys w) /\
              (Message.senderType m = "user"%string \/
               Message.senderType m = "admin"%string).

(** Messages are only added, under identifiers that were not in use:
    where the identifiers in use are below the counter, they stay so and
    every stored message is still there, unchanged. *)
Definition messages_kept : World -> World -> Prop :=
  fun w w' =>
    (forall k, In k (JS.Map_keys (the_messages w)) ->
               k < MemStorage.next_messages (the_ids w)) ->
    (forall k, In k (JS.Map_keys (the_messages w')) ->
               k < MemStorage.next_messages (the_ids w')) /\
    (forall k m, JS.Map_get k (the_messages w) = Some m ->
                 JS.Map_get k (the_messages w') = Some m).

(** Every support issue is as the router opened it: pending, not
    closed, not assigned. *)
Definition issues_pending (w : World) : Prop :=
  forall issue, In issue (JS.Map_values (the_issues w)) ->
    SupportIssue.title issue = "New Support Request"%string /\
    SupportIssue.status issue = "pending"%string /\
    SupportIssue.closedAt issue = None /\
    SupportIssue.assignedTo issue = None.



(** The chat a call is addressed to, for the calls that send. *)
Definition chat_of (c : Telegram.Call) : option Telegram.ChatId :=
  match c with
  | Telegram.SendMessage chatId _ _
  | Telegram.SendPhoto chatId _ _
  | Telegram.SendDocument chatId _ _
  | Telegram.SendVideo chatId _ _
  | Telegram.CreateForumTopic chatId _ => Some chatId
  | _ => None
  end.

(** * Properties *)


(** ** Maps *)

Section MapFacts.

Context {V : Type}.
Implicit Types (m : JS.Map V) (k : Z) (v : V).

Lemma Map_get_In m k v : JS.Map_get k m = Some v -> In (k, v) m.
Proof.
  induction m as [|[k' v'] m IH]; simpl; [discriminate|].
  destruct (Z.eqb_spec k' k) as [->|_].
  - intros [= ->]. now left.
  - intros H. right. now apply IH.
Qed.

Lemma Map_get_key m k v : JS.Map_get k m = Some v -> In k (JS.Map_keys m).
Proof.
  intros H. apply Map_get_In in H.
  change k with (fst (k, v)). now apply in_map.
Qed.

Lemma Map_get_value m k v : JS.Map_get k m = Some v -> In v (JS.Map_values m).
Proof.
  intros H. apply Map_get_In in H.
  change v with (snd (k, v)). now apply in_map.
Qed.

Lemma Map_get_None m k : ~ In k (JS.Map_keys m) -> JS.Map_get k m = None.
Proof.
  induction m as [|[k' v'] m IH]; simpl; [reflexivity|].
  intros H. destruct (Z.eqb_spec k' k) as [->|_].
  - exfalso. apply H. now left.
  - apply IH. intros Hin. apply H. now right.
Qed.

Lemma Map_get_set_same m k v : JS.Map_get k (JS.Map_set k v m) = Some v.
Proof.
  induction m as [|[k' v'] m IH]; simpl.
  - now rewrite Z.eqb_refl.
  - destruct (Z.eqb_spec k' k) as [->|Hne]; simpl.
    + now rewrite Z.eqb_refl.
    + destruct (Z.eqb_spec k' k); [contradiction|exact IH].
Qed.

Lemma Map_get_set_other m k k' v :
  k' <> k -> JS.Map_get k' (JS.Map_set k v m) = JS.Map_get k' m.
Proof.
  intros Hne. induction m as [|[k0 v0] m IH]; simpl.
  - destruct (Z.eqb_spec k k'); [congruence|reflexivity].
  - destruct (Z.eqb_spec k0 k) as [->|Hk]; simpl.
    + destruct (Z.eqb_spec k k'); [congruence|reflexivity].
    + destruct (Z.eqb_spec k0 k'); [reflexivity|exact IH].
Qed.

(** Setting a new key appends the entry. *)
Lemma Map_set_fresh m k v :
  ~ In k (JS.Map_keys m) -> JS.Map_set k v m = m ++ [(k, v)].
Proof.
  induction m as [|[k' v'] m IH]; simpl; [reflexivity|].
  intros H. destruct (Z.eqb_spec k' k) as [->|_].
  - exfalso. apply H. now left.
  - f_equal. apply IH. intros Hin. apply H. now right.
Qed.

(** Setting an existing key keeps the keys and their order. *)
Lemma Map_set_keys_present m k v :
  In k (JS.Map_keys m) -> JS.Map_keys (JS.Map_set k v m) = JS.Map_keys m.
Proof.
  induction m as [|[k' v'] m IH]; simpl; [contradiction|].
  intros H. destruct (Z.eqb_spec k' k) as [->|Hne]; simpl; [reflexivity|].
  f_equal. apply IH. destruct H as [H|H]; [contradiction|exact H].
Qed.

Lemma Map_set_keys m k v :
  JS.Map_keys (JS.Map_set k v m) = JS.Map_keys m \/
  JS.Map_keys (JS.Map_set k v m) = JS.Map_keys m ++ [k].
Proof.
  destruct (in_dec Z.eq_dec k (JS.Map_keys m)) as [Hin|Hout].
  - left. now apply Map_set_keys_present.
  - right. rewrite Map_set_fresh by exact Hout.
    unfold JS.Map_keys. now rewrite map_app.
Qed.

(** An entry of the map after a [set] is the new one or an old one. *)
Lemma Map_set_In m k v k' v' :
  In (k', v') (JS.Map_set k v m) -> (k', v') = (k, v) \/ In (k', v') m.
Proof.
  induction m as [|[k0 v0] m IH]; simpl.
  - intros [H|[]]. left. now symmetry.
  - destruct (Z.eqb_spec k0 k) as [->|Hne]; simpl.
    + intros [H|H]; [left; now symmetry|right; now right].
    + intros [H|H]; [right; now left|].
      destruct (IH H) as [E|E]; [now left|right; now right].
Qed.

Lemma Map_values_In m v : In v (JS.Map_values m) -> exists k, In (k, v) m.
Proof.
  unfold JS.Map_values. rewrite in_map_iff.
  intros [[k v'] [E H]]. simpl in E. subst. now exists k.
Qed.

Lemma Map_In_values m k v : In (k, v) m -> In v (JS.Map_values m).
Proof. intros H. change v with (snd (k, v)). now apply in_map. Qed.

Lemma Map_In_keys m k v : In (k, v) m -> In k (JS.Map_keys m).
Proof. intros H. change k with (fst (k, v)). now apply in_map. Qed.

End MapFacts.

Lemma find_none_iff {A} (f : A -> bool) (l : list A) :
  find f l = None <-> (forall x, In x l -> f x = false).
Proof.
  split; [apply find_none|].
  induction l as [|a l IH]; simpl; [reflexivity|].
  intros H. rewrite (H a (or_introl eq_refl)). apply IH.
  intros x Hx. apply H. now right.
Qed.

(** ** The monad *)

Lemma bind_inv {A B} (m : M A) (f : A -> M B) w o w' :
  bind m f w = (o, w') ->
  (exists e, m w = (Thrown e, w') /\ o = Thrown e) \/
  (exists a w1, m w = (Returned a, w1) /\ f a w1 = (o, w')).
Proof.
  unfold bind. destruct (m w) as [[a|e] w1].
  - intros H. right. now exists a, w1.
  - intros [= <- <-]. left. now exists e.
Qed.

Lemma bind_returned {A B} (m : M A) (f : A -> M B) w a w1 :
  m w = (Returned a, w1) -> bind m f w = f a w1.
Proof. unfold bind. now intros ->. Qed.

Lemma bind_thrown {A B} (m : M A) (f : A -> M B) w e w1 :
  m w = (Thrown e, w1) -> bind m f w = (Thrown e, w1).
Proof. unfold bind. now intros ->. Qed.

(** ** Frame relations *)

Lemma preorder_same {X} (f : World -> X) : preorder (same f).
Proof.
  split; unfold same; [reflexivity|]. intros w1 w2 w3 H1 H2. congruence.
Qed.

Lemma preorder_sends P : preorder (sends P).
Proof.
  split.
  - intros w. exists []. split; [now rewrite app_nil_r|constructor].
  - intros w1 w2 w3 (n1 & E1 & F1) (n2 & E2 & F2).
    exists (n1 ++ n2). split.
    + now rewrite E2, E1, app_assoc.
    + apply Forall_app. now split.
Qed.

Lemma preorder_both R1 R2 : preorder R1 -> preorder R2 -> preorder (both R1 R2).
Proof.
  intros [r1 t1] [r2 t2]. split.
  - intros w. split; auto.
  - intros w1 w2 w3 [A1 A2] [B1 B2]. split; eauto.
Qed.

Create HintDb frame.
#[local] Hint Resolve preorder_same preorder_sends preorder_both : frame.

Section Respects.

Variable R : World -> World -> Prop.
Hypothesis R_pre : preorder R.

Lemma respects_ret {A} (a : A) : respects R (ret a).
Proof. intros w. apply (pre_refl R R_pre). Qed.

Lemma respects_throw {A} e : respects R (@throw A e).
Proof. intros w. apply (pre_refl R R_pre). Qed.

Lemma respects_gets {A} (f : World -> A) : respects R (gets f).
Proof. intros w. apply (pre_refl R R_pre). Qed.

Lemma respects_bind {A B} (m : M A) (f : A -> M B) :
  respects R m -> (forall a, respects R (f a)) -> respects R (bind m f).
Proof.
  intros Hm Hf w. unfold bind. specialize (Hm w).
  destruct (m w) as [[a|e] w1]; simpl in *; [|exact Hm].
  apply (pre_trans R R_pre _ w1); [exact Hm|apply Hf].
Qed.

Lemma respects_try_catch {A} (m : M A) (h : Error -> M A) :
  respects R m -> (forall e, respects R (h e)) -> respects R (try_catch m h).
Proof.
  intros Hm Hh w. unfold try_catch. specialize (Hm w).
  destruct (m w) as [[a|e] w1]; simpl in *; [exact Hm|].
  apply (pre_trans R R_pre _ w1); [exact Hm|apply Hh].
Qed.

End Respects.

Lemma respects_both {A} R1 R2 (m : M A) :
  respects R1 m -> respects R2 m -> respects (both R1 R2) m.
Proof. intros H1 H2 w. split; [apply H1|apply H2]. Qed.

(** Reading [respects] on a run. *)
Lemma respects_run {A} R (m : M A) w o w' :
  respects R m -> m w = (o, w') -> R w w'.
Proof. intros H E. specialize (H w). now rewrite E in H. Qed.

Lemma sends_sent_since P w w' :
  sends P w w' ->
  outbox w' = outbox w ++ sent_since w w' /\ Forall P (sent_since w w').
Proof.
  intros (new & E & F). unfold sent_since. rewrite E.
  rewrite skipn_app, skipn_all, Nat.sub_diag. simpl. now split.
Qed.

Lemma sent_since_app w w' new :
  outbox w' = outbox w ++ new -> sent_since w w' = new.
Proof.
  intros E. unfold sent_since. rewrite E.
  now rewrite skipn_app, skipn_all, Nat.sub_diag.
Qed.

Lemma sent_since_trans w1 w2 w3 n1 n2 :
  outbox w2 = outbox w1 ++ n1 -> outbox w3 = outbox w2 ++ n2 ->
  sent_since w1 w3 = n1 ++ n2.
Proof.
  intros E1 E2. apply sent_since_app. now rewrite E2, E1, app_assoc.
Qed.

(** Structural decomposition of a [respects] goal. *)
Ltac frame_step :=
  match goal with
  | |- respects _ (bind _ _) => apply respects_bind; [auto with frame| |intro]
  | |- respects _ (ret _) => apply respects_ret; auto with frame
  | |- respects _ (throw _) => apply respects_throw; auto with frame
  | |- respects _ (gets _) => apply respects_gets; auto with frame
  | |- respects _ (try_catch _ _) =>
      apply respects_try_catch; [auto with frame| |intro]
  | |- respects _ (match ?x with _ => _ end) => destruct x
  | |- respects _ (if ?b then _ else _) => destruct b
  end.

Ltac frame := repeat frame_step; auto with frame.

(** ** The record store *)

(** [conversation_of] and [user_of] are the store's lookups by
    secondary key. *)
Lemma getConversationByTelegramUserId_conversation_of telegramUserId w :
  getConversationByTelegramUserId telegramUserId w
  = (Returned (conversation_of telegramUserId w), w).
Proof. reflexivity. Qed.

Lemma getUserByTelegramId_user_of telegramId w :
  getUserByTelegramId telegramId w = (Returned (user_of telegramId w), w).
Proof. reflexivity. Qed.

Section StoreFacts.

Variable env : Telegram.Env.

(** [createUser] never throws: it stores the record under the next
    identifier, stamped with the current time, and returns it. *)
Lemma createUser_run (insertUser : InsertUser.t) (w : World) :
  exists u w',
    createUser env insertUser w = (Returned u, w') /\
    User.id u = MemStorage.next_users (the_ids w) /\
    User.telegramId u = InsertUser.telegramId insertUser /\
    User.joinedAt u = Telegram.clock env (ticks w) /\
    the_users w' = JS.Map_set (User.id u) u (the_users w) /\
    MemStorage.next_users (the_ids w') = MemStorage.next_users (the_ids w) + 1 /\
    the_conversations w' = the_conversations w /\
    the_messages w' = the_messages w /\
    the_issues w' = the_issues w /\
    outbox w' = outbox w /\
    supportGroupId w' = supportGroupId w.
Proof.
  unfold createUser, bind, next_user_id, newDate, users_set, modify, ret.
  simpl. eexists. eexists. split; [reflexivity|]. simpl. repeat split.
Qed.

Lemma updateConversation_run id updates w c :
  JS.Map_get id (the_conversations w) = Some c ->
  let c' := merge_conversation c updates (Telegram.clock env (ticks w)) in
  exists w',
    updateConversation env id updates w = (Returned (Some c'), w') /\
    the_conversations w' = JS.Map_set id c' (the_conversations w) /\
    the_users w' = the_users w /\
    the_messages w' = the_messages w /\
    the_issues w' = the_issues w /\
    the_ids w' = the_ids w /\
    outbox w' = outbox w /\
    supportGroupId w' = supportGroupId w.
Proof.
  intros H c'. unfold updateConversation, getConversation, bind, gets.
  unfold the_conversations in H. rewrite H.
  eexists. split; [reflexivity|]. simpl. repeat split.
Qed.

Lemma updateConversation_missing id updates w :
  JS.Map_get id (the_conversations w) = None ->
  updateConversation env id updates w = (Returned None, w).
Proof.
  intros H. unfold updateConversation, getConversation, bind, gets.
  unfold the_conversations in H. now rewrite H.
Qed.

End StoreFacts.

(** C8. Updating an existing conversation with the empty object sets
    its last-activity timestamp to the current time (it moves forward
    whenever the clock has) and leaves its id,
    owning user id, thread reference, status and creation timestamp as
    they were; the other conversations are untouched.  This is the
    store's own [updateConversation], whoever calls it. *)
Theorem updateConversation_no_updates_refreshes_only_last_activity
    (env : Telegram.Env) (w : World) (id : Z) (c : Conversation.t) :
  JS.Map_get id (the_conversations w) = Some c ->
  exists c' w',
    updateConversation env id InsertConversation.no_updates w
      = (Returned (Some c'), w') /\
    JS.Map_get id (the_conversations w') = Some c' /\
    Conversation.lastMessageAt c' = Telegram.clock env (ticks w) /\
    Conversation.id c' = Conversation.id c /\
    Conversation.telegramUserId c' = Conversation.telegramUserId c /\
    Conversation.threadId c' = Conversation.threadId c /\
    Conversation.status c' = Conversation.status c /\
    Conversation.createdAt c' = Conversation.createdAt c /\
    (forall k, k <> id ->
       JS.Map_get k (the_conversations w') = JS.Map_get k (the_conversations w)) /\
    JS.Map_keys (the_conversations w') = JS.Map_keys (the_conversations w).
Proof.
  intros H.
  destruct (updateConversation_run env id InsertConversation.no_updates w c H)
    as (w' & Hrun & Hc & _).
  eexists. exists w'. split; [exact Hrun|].
  rewrite Hc. split; [apply Map_get_set_same|].
  simpl. repeat split.
  - intros k Hk. now apply Map_get_set_other.
  - apply Map_set_keys_present. eapply Map_get_key. exact H.
Qed.

Lemma updateConversation_no_updates_witness :
  exists c' w',
    updateConversation Examples.ok_env 1 InsertConversation.no_updates
      Examples.after_help = (Returned (Some c'), w') /\
    JS.Map_get 1 (the_conversations w') = Some c' /\
    Conversation.lastMessageAt c' = 1007 /\
    Conversation.id c' = 1 /\
    Conversation.telegramUserId c' = "111"%string /\
    Conversation.threadId c' = Some "502"%string /\
    Conversation.status c' = "open"%string /\
    Conversation.createdAt c' = 1001 /\
    (forall k, k <> 1 ->
       JS.Map_get k (the_conversations w')
       = JS.Map_get k (the_conversations Examples.after_help)) /\
    JS.Map_keys (the_conversations w')
    = JS.Map_keys (the_conversations Examples.after_help).
Proof.
  apply (updateConversation_no_updates_refreshes_only_last_activity
           Examples.ok_env Examples.after_help 1 Examples.alice_conversation).
  reflexivity.
Defined.

(** C9. [MemStorage.createUser] has no uniqueness check.  In the state
    reached after Alice's first message a user with external id "111"
    exists; creating a user with the same external id still succeeds,
    under the fresh identifier 2, and the store then holds two users
    with that external id. *)
Theorem createUser_accepts_duplicate_telegramId :
  (exists u, user_of "111" Examples.after_help = Some u /\ User.id u = 1) /\
  exists u w',
    createUser Examples.ok_env Examples.alice_insert Examples.after_help
      = (Returned u, w') /\
    User.id u = 2 /\
    User.telegramId u = "111"%string /\
    user_index w' = [(1, "111"%string); (2, "111"%string)].
Proof.
  split.
  - eexists. split; reflexivity.
  - eexists. eexists. split; [vm_compute; reflexivity|]. repeat split.
Qed.

(** ** Events that are ignored *)

Lemma handleIncomingMessage_dispatch env message w :
  handleIncomingMessage env message w =
  if in_support_group w message
  then handleSupportGroupMessage env message w
  else handleUserDirectMessage env message w.
Proof.
  unfold handleIncomingMessage, bind, getSupportGroupId, gets, in_support_group.
  now destruct (JS.truthy (supportGroupId w) && _).
Qed.

Lemma processUpdate_message env update message w :
  Telegram.message update = Some message ->
  processUpdate env update w =
  try_catch (handleIncomingMessage env message) (fun _ => ret tt) w.
Proof. intros H. unfold processUpdate. now rewrite H. Qed.

Lemma getConversationByThreadId_none threadId w :
  (forall c, In c (JS.Map_values (the_conversations w)) ->
             Conversation.threadId c <> Some threadId) ->
  getConversationByThreadId threadId w = (Returned None, w).
Proof.
  intros H. unfold getConversationByThreadId, gets. f_equal. f_equal.
  apply find_none_iff. intros c Hc. specialize (H c Hc).
  destruct (Conversation.threadId c) as [t|]; [|reflexivity].
  destruct (String.eqb_spec t threadId); [congruence|reflexivity].
Qed.

(** C10. A message without a sender, and a message of the support
    group that is not a reply, are dropped at once: the state (store,
    outbox, clock reads) after the event is the state before it. *)
Theorem message_without_sender_or_reply_is_ignored
    (env : Telegram.Env) (update : Telegram.WebhookUpdate)
    (message : Telegram.Message) (w : World) :
  Telegram.message update = Some message ->
  Telegram.from message = None \/
  (in_support_group w message = true /\
   Telegram.reply_to_message message = None) ->
  handleIncomingMessage env message w = (Returned tt, w) /\
  processUpdate env update w = (Returned tt, w).
Proof.
  intros Hm H.
  assert (E : handleIncomingMessage env message w = (Returned tt, w)).
  { rewrite handleIncomingMessage_dispatch.
    unfold handleSupportGroupMessage, handleUserDirectMessage.
    destruct H as [H|[Hs H]].
    - rewrite H. now destruct (in_support_group w message).
    - rewrite Hs, H. now destruct (Telegram.from message). }
  split; [exact E|].
  rewrite (processUpdate_message env update message w Hm).
  unfold try_catch. now rewrite E.
Qed.

Lemma message_without_sender_witness :
  handleIncomingMessage Examples.ok_env Examples.msg_anonymous
    Examples.support_world = (Returned tt, Examples.support_world) /\
  processUpdate Examples.ok_env
    (Telegram.mkUpdate 1 (Some Examples.msg_anonymous) None None None)
    Examples.support_world = (Returned tt, Examples.support_world).
Proof.
  apply (message_without_sender_or_reply_is_ignored Examples.ok_env
           (Telegram.mkUpdate 1 (Some Examples.msg_anonymous) None None None)
           Examples.msg_anonymous Examples.support_world).
  - reflexivity.
  - left. reflexivity.
Defined.

(** C5. A reply in the support group whose replied-to message id is the
    thread reference of no conversation changes nothing: the state
    after the event is the state before it, so no Message is stored and
    the outbox is as it was. *)
Theorem reply_to_unknown_thread_is_ignored
    (env : Telegram.Env) (update : Telegram.WebhookUpdate)
    (message : Telegram.Message) (reply : Telegram.TgReply) (w : World) :
  Telegram.message update = Some message ->
  in_support_group w message = true ->
  Telegram.reply_to_message message = Some reply ->
  (forall c, In c (JS.Map_values (the_conversations w)) ->
     Conversation.threadId c
     <> Some (JS.toString (Telegram.reply_message_id reply))) ->
  handleSupportGroupMessage env message w = (Returned tt, w) /\
  processUpdate env update w = (Returned tt, w).
Proof.
  intros Hm Hs Hr Hnone.
  assert (E : handleSupportGroupMessage env message w = (Returned tt, w)).
  { unfold handleSupportGroupMessage. rewrite Hr.
    destruct (Telegram.from message); [|reflexivity].
    unfold bind. now rewrite (getConversationByThreadId_none _ w Hnone). }
  split; [exact E|].
  rewrite (processUpdate_message env update message w Hm).
  unfold try_catch. rewrite handleIncomingMessage_dispatch, Hs. now rewrite E.
Qed.

Lemma reply_to_unknown_thread_witness :
  handleSupportGroupMessage Examples.ok_env Examples.stray_reply
    Examples.after_help = (Returned tt, Examples.after_help) /\
  processUpdate Examples.ok_env
    (Telegram.mkUpdate 2 (Some Examples.stray_reply) None None None)
    Examples.after_help = (Returned tt, Examples.after_help).
Proof.
  apply (reply_to_unknown_thread_is_ignored Examples.ok_env
           (Telegram.mkUpdate 2 (Some Examples.stray_reply) None None None)
           Examples.stray_reply (Telegram.mkReply 999) Examples.after_help).
  - reflexivity.
  - reflexivity.
  - reflexivity.
  - vm_compute. intros c [<-|[]]. discriminate.
Defined.

(** ** Sorting and slicing *)

Section SortFacts.

Context {A : Type}.
Variable key : A -> Z.

Let cmp : A -> A -> Z := fun a b => key a - key b.
Let le : A -> A -> Prop := fun a b => key a <= key b.

Lemma sort_insert_perm x l : Permutation (x :: l) (JS.sort_insert cmp x l).
Proof.
  induction l as [|y l IH]; simpl; [apply Permutation_refl|].
  destruct (cmp x y <=? 0); [apply Permutation_refl|].
  eapply perm_trans; [apply perm_swap|]. now apply perm_skip.
Qed.

Lemma sort_perm l : Permutation l (JS.sort cmp l).
Proof.
  induction l as [|x l IH]; simpl; [constructor|].
  eapply perm_trans; [apply perm_skip, IH|apply sort_insert_perm].
Qed.

Lemma sort_insert_sorted x l :
  StronglySorted le l -> StronglySorted le (JS.sort_insert cmp x l).
Proof.
  induction 1 as [|y l Hs IH Hall]; simpl.
  - constructor; constructor.
  - unfold cmp, le in *. simpl in *. destruct (Z.leb_spec (key x - key y) 0) as [Hle|Hgt].
    + constructor; [now constructor|].
      constructor; [lia|].
      eapply Forall_impl; [|exact Hall]. simpl. intros a Ha. lia.
    + constructor; [exact IH|].
      eapply Permutation_Forall; [apply sort_insert_perm|].
      constructor; [lia|exact Hall].
Qed.

Lemma sort_sorted l : StronglySorted le (JS.sort cmp l).
Proof.
  induction l as [|x l IH]; simpl; [constructor|now apply sort_insert_sorted].
Qed.

(** The sort is stable: elements with the same key keep their order. *)
Lemma sort_insert_stable t x l :
  StronglySorted le l ->
  filter (fun a => key a =? t) (JS.sort_insert cmp x l)
  = filter (fun a => key a =? t) (x :: l).
Proof.
  induction 1 as [|y l Hs IH Hall]; [reflexivity|].
  simpl. unfold cmp, le in *. simpl in *.
  destruct (Z.leb_spec (key x - key y) 0) as [Hle|Hgt]; [reflexivity|].
  simpl. rewrite IH. simpl.
  destruct (Z.eqb_spec (key x) t) as [Hx|Hx]; [|reflexivity].
  destruct (Z.eqb_spec (key y) t) as [Hy|Hy]; [lia|reflexivity].
Qed.

Lemma sort_stable t l :
  filter (fun a => key a =? t) (JS.sort cmp l)
  = filter (fun a => key a =? t) l.
Proof.
  induction l as [|x l IH]; [reflexivity|].
  simpl JS.sort. rewrite sort_insert_stable by apply sort_sorted.
  simpl. now rewrite IH.
Qed.

(** A list already in order is left as it is. *)
Lemma sort_sorted_id l : StronglySorted le l -> JS.sort cmp l = l.
Proof.
  induction 1 as [|x l Hs IH Hall]; [reflexivity|].
  simpl. rewrite IH. destruct l as [|y l]; [reflexivity|].
  simpl. inversion Hall as [|? ? Hxy _]; subst. unfold cmp, le in *. simpl in *.
  destruct (Z.leb_spec (key x - key y) 0); [reflexivity|lia].
Qed.

End SortFacts.

(** [slice(-limit)] with a positive [limit] keeps the last [limit]
    elements, or all of them when there are fewer. *)
Lemma slice_from_neg_positive {A} (limit : Z) (l : list A) :
  0 < limit ->
  exists older,
    l = older ++ JS.slice_from (- limit) l /\
    Z.of_nat (List.length (JS.slice_from (- limit) l))
    = Z.min limit (Z.of_nat (List.length l)).
Proof.
  intros Hpos. unfold JS.slice_from.
  destruct (Z.ltb_spec (- limit) 0) as [_|H]; [|lia].
  set (k := Z.to_nat (Z.max (Z.of_nat (List.length l) + - limit) 0)).
  exists (firstn k l). split; [now rewrite firstn_skipn|].
  rewrite length_skipn. subst k. lia.
Qed.

(** [slice(-0)] is [slice(0)]: the whole array. *)
Lemma slice_from_neg_zero {A} (l : list A) : JS.slice_from (- 0) l = l.
Proof.
  unfold JS.slice_from. simpl. rewrite Z.min_l by lia. reflexivity.
Qed.

(** [slice(0, 0)] is empty. *)
Lemma slice_to_zero {A} (l : list A) : JS.slice_to 0 l = [].
Proof.
  unfold JS.slice_to. simpl. rewrite Z.min_l by lia. reflexivity.
Qed.

(** ** Messages of a conversation *)

(** For a positive limit the lookup returns the stored messages of the
    conversation, oldest first (messages with equal timestamps in the
    order they were stored), cut to the last [limit] of them; the state
    is not changed. *)
Lemma getMessagesByConversationId_positive_limit
    (conversationId limit : Z) (w : World) :
  0 < limit ->
  exists sorted older result,
    getMessagesByConversationId conversationId (Some limit) w
      = (Returned result, w) /\
    Permutation (stored_messages conversationId w) sorted /\
    StronglySorted (fun a b => Message.sentAt a <= Message.sentAt b) sorted /\
    (forall t, filter (fun m => Message.sentAt m =? t) sorted
               = filter (fun m => Message.sentAt m =? t)
                   (stored_messages conversationId w)) /\
    sorted = older ++ result /\
    Z.of_nat (List.length result)
    = Z.min limit (Z.of_nat (List.length (stored_messages conversationId w))).
Proof.
  intros Hpos.
  set (sorted := JS.sort (fun a b => Message.sentAt a - Message.sentAt b)
                   (stored_messages conversationId w)).
  destruct (slice_from_neg_positive limit sorted Hpos) as (older & Hsplit & Hlen).
  exists sorted, older, (JS.slice_from (- limit) sorted).
  split; [reflexivity|].
  split; [apply (sort_perm Message.sentAt)|].
  split; [apply (sort_sorted Message.sentAt)|].
  split; [intros t; apply (sort_stable Message.sentAt)|].
  split; [exact Hsplit|].
  rewrite Hlen. f_equal. f_equal.
  symmetry. apply Permutation_length. apply (sort_perm Message.sentAt).
Qed.

(** The default limit is 50. *)
Lemma getMessagesByConversationId_default (conversationId : Z) (w : World) :
  getMessagesByConversationId conversationId None w
  = getMessagesByConversationId conversationId (Some 50) w.
Proof. reflexivity. Qed.

(** The sibling [listConversations] cuts with [slice(0, limit)]: limit
    0 returns no conversation. *)
Lemma listConversations_limit_zero (w : World) :
  listConversations (Some 0) w = (Returned [], w).
Proof.
  unfold listConversations, gets. now rewrite slice_to_zero.
Qed.

(** C4. With limit 0 the lookup returns every stored message of the
    conversation instead of the last 0 of them: [slice(-0)] is
    [slice(0)].  Conversation 1 has three stored messages; all three
    come back. *)
Theorem getMessagesByConversationId_limit_zero_returns_all :
  List.length (stored_messages 1 Examples.messages_world) = 3%nat /\
  getMessagesByConversationId 1 (Some 0) Examples.messages_world
  = (Returned [Examples.stored 1 1 10; Examples.stored 3 1 12;
               Examples.stored 4 1 13],
     Examples.messages_world).
Proof. split; reflexivity. Qed.

(** ** Views *)

Section ViewFacts.

Context {V W : Type}.
Variable f : V -> W.

Lemma Map_view_keys m : JS.Map_keys (Map_view f m) = JS.Map_keys m.
Proof. unfold JS.Map_keys, Map_view. rewrite map_map. reflexivity. Qed.

Lemma Map_view_get k m :
  JS.Map_get k (Map_view f m) = option_map f (JS.Map_get k m).
Proof.
  induction m as [|[k' v] m IH]; simpl; [reflexivity|].
  destruct (k' =? k); [reflexivity|exact IH].
Qed.

Lemma Map_view_set k v m :
  Map_view f (JS.Map_set k v m) = JS.Map_set k (f v) (Map_view f m).
Proof.
  induction m as [|[k' v'] m IH]; simpl; [reflexivity|].
  destruct (k' =? k); simpl; [reflexivity|now rewrite IH].
Qed.

Lemma Map_view_values m : JS.Map_values (Map_view f m) = map f (JS.Map_values m).
Proof. unfold JS.Map_values, Map_view. now rewrite !map_map. Qed.

Lemma Map_view_app m1 m2 :
  Map_view f (m1 ++ m2) = Map_view f m1 ++ Map_view f m2.
Proof. unfold Map_view. apply map_app. Qed.

End ViewFacts.

(** Writing back the value a key already has changes nothing. *)
Lemma Map_set_same {V} k (v : V) m : JS.Map_get k m = Some v -> JS.Map_set k v m = m.
Proof.
  induction m as [|[k' v'] m IH]; simpl; [discriminate|].
  destruct (Z.eqb_spec k' k) as [->|_].
  - now intros [= ->].
  - intros H. now rewrite IH.
Qed.

(** A write that keeps the view of the value keeps the view of the map. *)
Lemma Map_view_set_same {V W} (f : V -> W) k v v' m :
  JS.Map_get k m = Some v -> f v' = f v ->
  Map_view f (JS.Map_set k v' m) = Map_view f m.
Proof.
  intros Hget Hf. rewrite Map_view_set, Hf. apply Map_set_same.
  rewrite Map_view_get, Hget. reflexivity.
Qed.

Lemma find_map {A B} (g : A -> B) (p : B -> bool) (l : list A) :
  find p (map g l) = option_map g (find (fun a => p (g a)) l).
Proof.
  induction l as [|a l IH]; simpl; [reflexivity|].
  destruct (p (g a)); [reflexivity|exact IH].
Qed.


Lemma conversation_of_index tid w w' :
  conversation_index w' = conversation_index w ->
  option_map conversation_core (conversation_of tid w')
  = option_map conversation_core (conversation_of tid w).
Proof.
  intros H. unfold conversation_of.
  assert (E : forall w0, option_map conversation_core
                (find (fun c => (Conversation.telegramUserId c =? tid)%string)
                      (JS.Map_values (the_conversations w0)))
              = find (fun x => (core_owner x =? tid)%string)
                     (JS.Map_values (conversation_index w0))).
  { intros w0. unfold conversation_index. rewrite Map_view_values, find_map.
    reflexivity. }
  now rewrite !E, H.
Qed.

(** ** Frames of the store methods and of the platform calls *)

Lemma respects_same_outbox_sends {A} P (m : M A) :
  respects (same outbox) m -> respects (sends P) m.
Proof.
  intros H w. specialize (H w). unfold same in H. exists [].
  split; [now rewrite app_nil_r|constructor].
Qed.

Lemma sends_impl (P Q : Telegram.Exchange -> Prop) w w' :
  (forall x, P x -> Q x) -> sends P w w' -> sends Q w w'.
Proof.
  intros H (new & E & F). exists new. split; [exact E|].
  eapply Forall_impl; [exact H|exact F].
Qed.

Section CallFrames.

Variable env : Telegram.Env.
Variable P : Telegram.Exchange -> Prop.

Lemma bot_sendMessage_sends chatId text options :
  (forall ok, P (Telegram.mkExchange (Telegram.SendMessage chatId text options) ok)) ->
  respects (sends P) (bot_sendMessage env chatId text options).
Proof.
  intros H w. unfold bot_sendMessage.
  destruct (Telegram.sendMessage_answer env (outbox w) chatId text options);
    (eexists; split; [reflexivity|]; constructor; [apply H|constructor]).
Qed.

Lemma bot_sendMedia_sends c :
  (forall ok, P (Telegram.mkExchange c ok)) ->
  respects (sends P) (bot_sendMedia env c).
Proof.
  intros H w. unfold bot_sendMedia.
  destruct (Telegram.sendMedia_answer env (outbox w) c);
    (eexists; split; [reflexivity|]; constructor; [apply H|constructor]).
Qed.

Lemma bot_getUserProfilePhotos_sends userId offset limit :
  (forall ok, P (Telegram.mkExchange
                   (Telegram.GetUserProfilePhotos userId offset limit) ok)) ->
  respects (sends P) (bot_getUserProfilePhotos env userId offset limit).
Proof.
  intros H w. unfold bot_getUserProfilePhotos.
  destruct (Telegram.getUserProfilePhotos_answer env (outbox w) userId offset limit);
    (eexists; split; [reflexivity|]; constructor; [apply H|constructor]).
Qed.

Lemma bot_getFileLink_sends fileId :
  (forall ok, P (Telegram.mkExchange (Telegram.GetFileLink fileId) ok)) ->
  respects (sends P) (bot_getFileLink env fileId).
Proof.
  intros H w. unfold bot_getFileLink.
  destruct (Telegram.getFileLink_answer env (outbox w) fileId);
    (eexists; split; [reflexivity|]; constructor; [apply H|constructor]).
Qed.

Lemma bot_createForumTopic_sends chatId name :
  (forall ok, P (Telegram.mkExchange (Telegram.CreateForumTopic chatId name) ok)) ->
  respects (sends P) (bot_createForumTopic env chatId name).
Proof.
  intros H w. unfold bot_createForumTopic.
  destruct (Telegram.createForumTopic_answer env (outbox w) chatId name);
    (eexists; split; [reflexivity|]; constructor; [apply H|constructor]).
Qed.

End CallFrames.

(** An update that does not name the external id keeps the index of the
    users; an update with the empty object keeps the core of every
    conversation. *)
Lemma updateUser_index id updates :
  InsertUser.p_telegramId updates = None ->
  respects (same user_index) (updateUser id updates).
Proof.
  intros Hu w. unfold same, updateUser, getUser, bind, gets.
  destruct (JS.Map_get id (MemStorage.users (storage w))) as [u|] eqn:E;
    [|reflexivity].
  unfold user_index. simpl.
  apply (Map_view_set_same User.telegramId id u); [exact E|].
  unfold merge_user. simpl. now rewrite Hu.
Qed.

Lemma updateConversation_index env id :
  respects (same conversation_index)
    (updateConversation env id InsertConversation.no_updates).
Proof.
  intros w. unfold same, updateConversation, getConversation, bind, gets.
  destruct (JS.Map_get id (MemStorage.conversations (storage w))) as [c|] eqn:E;
    [|reflexivity].
  unfold conversation_index. simpl.
  now apply (Map_view_set_same conversation_core id c).
Qed.

Create HintDb frames.
#[local] Hint Resolve updateUser_index updateConversation_index : frames.
#[local] Hint Resolve bot_sendMessage_sends bot_sendMedia_sends
  bot_getUserProfilePhotos_sends bot_getFileLink_sends
  bot_createForumTopic_sends : frames.

(** A leaf that does not touch the projection: both sides compute to
    the same term, after a case on the platform's answer. *)
Ltac frame_leaf :=
  let w := fresh "w" in
  intro w;
  first
    [ reflexivity
    | unfold bot_sendPhoto, bot_sendDocument, bot_sendVideo, bot_sendMedia,
        bot_sendMessage, bot_getUserProfilePhotos, bot_getFileLink,
        bot_createForumTopic;
      match goal with
      | |- context [match ?x with _ => _ end] => destruct x
      end;
      reflexivity ].

Ltac frame_unfold :=
  match goal with
  | |- respects _ (createUser _ _) => unfold createUser
  | |- respects _ (createConversation _ _) => unfold createConversation
  | |- respects _ (createMessage _ _) => unfold createMessage
  | |- respects _ (createSupportIssue _ _) => unfold createSupportIssue
  | |- respects _ (updateUser _ _) => unfold updateUser
  | |- respects _ (updateConversation _ _ _) => unfold updateConversation
  | |- respects _ (getUser _) => unfold getUser
  | |- respects _ (getConversation _) => unfold getConversation
  | |- respects _ (getUserByTelegramId _) => unfold getUserByTelegramId
  | |- respects _ (getConversationByTelegramUserId _) =>
      unfold getConversationByTelegramUserId
  | |- respects _ (getConversationByThreadId _) =>
      unfold getConversationByThreadId
  | |- respects _ getSupportGroupId => unfold getSupportGroupId
  | |- respects _ (insertUserSchema_parse _) => unfold insertUserSchema_parse
  | |- respects _ (insertConversationSchema_parse _) =>
      unfold insertConversationSchema_parse
  | |- respects _ (insertMessageSchema_parse _) =>
      unfold insertMessageSchema_parse
  | |- respects _ (insertSupportIssueSchema_parse _) =>
      unfold insertSupportIssueSchema_parse
  | |- respects _ (getMediaUrl _) => unfold getMediaUrl
  | |- respects _ (getFileId _) => unfold getFileId
  | |- respects _ (bot_sendPhoto _ _ _ _) => unfold bot_sendPhoto
  | |- respects _ (bot_sendDocument _ _ _ _) => unfold bot_sendDocument
  | |- respects _ (bot_sendVideo _ _ _ _) => unfold bot_sendVideo
  end.

(** Leaves for relations other than [same] go through the projection
    they are blind to. *)
Create HintDb frame_leaves.
#[local] Hint Extern 1 (respects (sends _) _) =>
  (apply respects_same_outbox_sends; solve [frame_leaf]) : frame_leaves.

Ltac frames_step :=
  first
    [ solve [eauto 3 with frames]
    | frame_step
    | frame_unfold
    | match goal with
      | |- respects (same _) _ => solve [frame_leaf]
      | |- respects _ _ => solve [auto 1 with frame_leaves]
      end ].

Ltac frames := repeat frames_step.

Section StoreFrames.

Variable env : Telegram.Env.

Lemma createMessage_users im : respects (same the_users) (createMessage env im).
Proof. frames. Qed.

Lemma createMessage_conversations im :
  respects (same conversation_index) (createMessage env im).
Proof. frames. Qed.

Lemma createMessage_issues im : respects (same the_issues) (createMessage env im).
Proof. frames. Qed.

Lemma createMessage_outbox im : respects (same outbox) (createMessage env im).
Proof. frames. Qed.

Lemma createMessage_supportGroupId im :
  respects (same supportGroupId) (createMessage env im).
Proof. frames. Qed.

End StoreFrames.

(** ** Frames of the router's steps *)

Lemma preorder_stores Q : preorder (stores Q).
Proof.
  split.
  - intros w k m H. now left.
  - intros w1 w2 w3 H12 H23 k m H.
    destruct (H23 k m H) as [H2|HQ]; [|now right]. now apply H12.
Qed.

#[local] Hint Resolve preorder_stores : frame.

Lemma respects_same_messages_stores {A} Q (m : M A) :
  respects (same the_messages) m -> respects (stores Q) m.
Proof.
  intros H w k x Hk. left. specialize (H w). unfold same in H.
  now rewrite <- H.
Qed.

#[local] Hint Extern 1 (respects (stores _) _) =>
  (apply respects_same_messages_stores; solve [frame_leaf]) : frame_leaves.

Lemma createMessage_stores env Q im :
  (forall id now,
     Q (Message.mk id
          (InsertMessage.conversationId im) (InsertMessage.telegramMessageId im)
          (InsertMessage.senderId im) (InsertMessage.senderType im)
          (InsertMessage.senderName im) (InsertMessage.content im)
          (InsertMessage.mediaType im) (InsertMessage.mediaUrl im) now)) ->
  respects (stores Q) (createMessage env im).
Proof.
  intros HQ w k m.
  pose (id := MemStorage.next_messages (the_ids w)).
  pose (msg := Message.mk id
          (InsertMessage.conversationId im) (InsertMessage.telegramMessageId im)
          (InsertMessage.senderId im) (InsertMessage.senderType im)
          (InsertMessage.senderName im) (InsertMessage.content im)
          (InsertMessage.mediaType im) (InsertMessage.mediaUrl im)
          (Telegram.clock env (ticks w))).
  assert (E : the_messages (snd (createMessage env im w))
              = JS.Map_set id msg (the_messages w)).
  { unfold createMessage, bind, next_message_id, newDate, messages_set, modify,
      getConversation, gets. simpl.
    destruct (JS.Map_get _ _) as [c|]; [|reflexivity].
    unfold updateConversation, getConversation, bind, gets. simpl.
    destruct (JS.Map_get _ _); reflexivity. }
  rewrite E.
  destruct (Z.eq_dec k id) as [->|Hne].
  - rewrite Map_get_set_same. intros [= <-]. right. apply HQ.
  - rewrite Map_get_set_other by exact Hne. now left.
Qed.

Lemma getFileId_pure message : exists o, forall w, getFileId message w = (o, w).
Proof.
  unfold getFileId.
  destruct (Telegram.photo message) as [sizes|].
  { destruct (JS.last_elem sizes); eexists; reflexivity. }
  destruct (Telegram.document message); [eexists; reflexivity|].
  destruct (Telegram.video message); [eexists; reflexivity|].
  destruct (Telegram.audio message); [eexists; reflexivity|].
  destruct (Telegram.voice message); eexists; reflexivity.
Qed.

Lemma updateConversation_keys env id updates :
  respects (same conversation_keys) (updateConversation env id updates).
Proof.
  intros w. unfold same, updateConversation, getConversation, bind, gets.
  destruct (JS.Map_get id (MemStorage.conversations (storage w))) as [c|] eqn:E;
    [|reflexivity].
  unfold conversation_keys. simpl. apply Map_set_keys_present.
  eapply Map_get_key. exact E.
Qed.

Lemma updateUser_keys id updates :
  respects (same user_keys) (updateUser id updates).
Proof.
  intros w. unfold same, updateUser, getUser, bind, gets.
  destruct (JS.Map_get id (MemStorage.users (storage w))) as [u|] eqn:E;
    [|reflexivity].
  unfold user_keys. simpl. apply Map_set_keys_present.
  eapply Map_get_key. exact E.
Qed.

#[local] Hint Resolve updateConversation_keys updateUser_keys : frames.

Section StepFrames.

Variable env : Telegram.Env.
Variable message : Telegram.Message.

Lemma storeUserMessage_stores from telegramId conversation :
  respects (stores (recorded_media message))
    (storeUserMessage env message from telegramId conversation).
Proof.
  destruct (getFileId_pure message) as [o Ho].
  intros w. unfold storeUserMessage, getMediaUrl.
  unfold bind at 1. unfold bind at 1. rewrite Ho.
  destruct o as [mu|e]; [|apply (pre_refl _ (preorder_stores _))].
  unfold ret at 1. unfold insertMessageSchema_parse. unfold bind at 1.
  unfold ret at 1.
  apply createMessage_stores. intros id now. split; [reflexivity|].
  exact Ho.
Qed.

Lemma storeAdminMessage_stores from conversation :
  respects (stores (recorded_media message))
    (storeAdminMessage env message from conversation).
Proof.
  destruct (getFileId_pure message) as [o Ho].
  intros w. unfold storeAdminMessage, getMediaUrl.
  unfold bind at 1. unfold bind at 1. rewrite Ho.
  destruct o as [mu|e]; [|apply (pre_refl _ (preorder_stores _))].
  unfold ret at 1. unfold insertMessageSchema_parse. unfold bind at 1.
  unfold ret at 1.
  apply createMessage_stores. intros id now. split; [reflexivity|].
  exact Ho.
Qed.

End StepFrames.

#[local] Hint Resolve storeUserMessage_stores storeAdminMessage_stores : frames.

Ltac router_unfold :=
  match goal with
  | |- respects _ (getOrCreateUser _ _ _ _) => unfold getOrCreateUser
  | |- respects _ (getOrCreateConversation _ _) => unfold getOrCreateConversation
  | |- respects _ (storeUserMessage _ _ _ _ _) => unfold storeUserMessage
  | |- respects _ (storeAdminMessage _ _ _ _) => unfold storeAdminMessage
  | |- respects _ (fetchProfilePhoto _ _ _) => unfold fetchProfilePhoto
  | |- respects _ (createThread _ _ _ _ _ _) => unfold createThread
  | |- respects _ (forwardTextToSupport _ _ _ _ _) => unfold forwardTextToSupport
  | |- respects _ (forwardMediaToSupport _ _ _ _ _) =>
      unfold forwardMediaToSupport
  | |- respects _ (forwardToSupport _ _ _ _ _ _) => unfold forwardToSupport
  | |- respects _ (ensureThread _ _ _ _ _ _) => unfold ensureThread
  | |- respects _ (forwardTextToUser _ _ _) => unfold forwardTextToUser
  | |- respects _ (forwardMediaToUser _ _ _) => unfold forwardMediaToUser
  | |- respects _ (handleUserDirectMessage _ _) => unfold handleUserDirectMessage
  | |- respects _ (handleSupportGroupMessage _ _) =>
      unfold handleSupportGroupMessage
  | |- respects _ (handleIncomingMessage _ _) => unfold handleIncomingMessage
  end.

Ltac router_frames := repeat first [frames_step | router_unfold].

Section RouterFrames.

Variable env : Telegram.Env.
Variable message : Telegram.Message.

Lemma handleIncomingMessage_supportGroupId :
  respects (same supportGroupId) (handleIncomingMessage env message).
Proof. router_frames. Qed.

Lemma handleIncomingMessage_stores :
  respects (stores (recorded_media message)) (handleIncomingMessage env message).
Proof. router_frames. Qed.

End RouterFrames.

Lemma processUpdate_world env update message w :
  Telegram.message update = Some message ->
  snd (processUpdate env update w) = snd (handleIncomingMessage env message w).
Proof.
  intros H. rewrite (processUpdate_message env update message w H).
  unfold try_catch. now destruct (handleIncomingMessage env message w) as [[a|e] w1].
Qed.

(** ** Media *)

(** C6. The media kind recorded with a message is [getMediaType]'s: a
    single value, photo before document before video before audio
    before voice.  Every Message the event stores (in either direction)
    carries that kind; in particular a message with a photo and a
    document is recorded as "photo". *)
Theorem stored_media_kind_follows_precedence
    (env : Telegram.Env) (update : Telegram.WebhookUpdate)
    (message : Telegram.Message) (w : World) :
  Telegram.message update = Some message ->
  let w' := snd (processUpdate env update w) in
  (forall k m,
     JS.Map_get k (the_messages w') = Some m ->
     JS.Map_get k (the_messages w) = Some m \/
     Message.mediaType m = getMediaType message) /\
  (Telegram.photo message <> None ->
   getMediaType message = Some "photo"%string) /\
  (Telegram.photo message = None -> Telegram.document message <> None ->
   getMediaType message = Some "document"%string) /\
  (Telegram.photo message = None -> Telegram.document message = None ->
   Telegram.video message <> None ->
   getMediaType message = Some "video"%string) /\
  (Telegram.photo message = None -> Telegram.document message = None ->
   Telegram.video message = None -> Telegram.audio message <> None ->
   getMediaType message = Some "audio"%string) /\
  (Telegram.photo message = None -> Telegram.document message = None ->
   Telegram.video message = None -> Telegram.audio message = None ->
   Telegram.voice message <> None ->
   getMediaType message = Some "voice"%string) /\
  (Telegram.photo message = None -> Telegram.document message = None ->
   Telegram.video message = None -> Telegram.audio message = None ->
   Telegram.voice message = None ->
   getMediaType message = None).
Proof.
  intros Hm w'. split.
  - subst w'. rewrite (processUpdate_world env update message w Hm).
    intros k m Hk.
    destruct (handleIncomingMessage_stores env message w k m Hk) as [H|[H _]];
      [now left|now right].
  - unfold getMediaType.
    destruct (Telegram.photo message), (Telegram.document message),
      (Telegram.video message), (Telegram.audio message),
      (Telegram.voice message); repeat split; congruence.
Qed.

Lemma stored_media_kind_witness :
  let w' := snd (processUpdate Examples.ok_env
                   (Telegram.mkUpdate 3 (Some Examples.msg_photo_and_document)
                      None None None)
                   Examples.support_world) in
  (forall k m,
     JS.Map_get k (the_messages w') = Some m ->
     JS.Map_get k (the_messages Examples.support_world) = Some m \/
     Message.mediaType m = Some "photo"%string) /\
  option_map Message.mediaType (JS.Map_get 1 (the_messages w'))
  = Some (Some "photo"%string).
Proof.
  intros w'. split; [|reflexivity].
  apply (stored_media_kind_follows_precedence Examples.ok_env
           (Telegram.mkUpdate 3 (Some Examples.msg_photo_and_document)
              None None None)
           Examples.msg_photo_and_document Examples.support_world).
  reflexivity.
Defined.

(** ** What each step of the user-direction handler does *)

Section StepEffects.

Variable env : Telegram.Env.

Lemma getOrCreateUser_known message from telegramId w u :
  user_of telegramId w = Some u ->
  getOrCreateUser env message from telegramId w = (Returned u, w).
Proof.
  intros H. unfold getOrCreateUser, getUserByTelegramId, bind, gets.
  unfold user_of, the_users in H. now rewrite H.
Qed.

(** A new user is stored first; then the welcome is sent to the chat of
    the message, and a rejected send aborts the step. *)
Lemma getOrCreateUser_new message from telegramId w :
  user_of telegramId w = None ->
  exists u (ok : bool) w',
    getOrCreateUser env message from telegramId w
      = ((if ok then Returned u
          else Thrown (GatewayError
                 (Telegram.SendMessage
                    (Telegram.ChatNum (Telegram.chat_id message)) WELCOME None))),
         w') /\
    ok = match Telegram.sendMessage_answer env (outbox w)
                 (Telegram.ChatNum (Telegram.chat_id message)) WELCOME None with
         | Some _ => true
         | None => false
         end /\
    User.id u = MemStorage.next_users (the_ids w) /\
    User.telegramId u = telegramId /\
    the_users w' = JS.Map_set (User.id u) u (the_users w) /\
    outbox w' = outbox w ++
      [Telegram.mkExchange
         (Telegram.SendMessage (Telegram.ChatNum (Telegram.chat_id message))
            WELCOME None) ok] /\
    the_conversations w' = the_conversations w /\
    the_messages w' = the_messages w /\
    the_issues w' = the_issues w /\
    supportGroupId w' = supportGroupId w /\
    MemStorage.next_users (the_ids w') = MemStorage.next_users (the_ids w) + 1 /\
    MemStorage.next_conversations (the_ids w')
    = MemStorage.next_conversations (the_ids w) /\
    MemStorage.next_messages (the_ids w') = MemStorage.next_messages (the_ids w) /\
    MemStorage.next_supportIssues (the_ids w')
    = MemStorage.next_supportIssues (the_ids w).
Proof.
  intros H. unfold getOrCreateUser, getUserByTelegramId.
  unfold bind at 1. unfold gets.
  unfold user_of, the_users in H. rewrite H.
  unfold insertUserSchema_parse. unfold bind at 1. unfold ret at 1.
  unfold createUser, next_user_id, newDate, users_set, modify, bind, ret,
    bot_sendMessage. simpl.
  match goal with
  | |- context [Returned ?x] =>
      match type of x with User.t => set (u := x) end
  end.
  exists u.
  destruct (Telegram.sendMessage_answer env (outbox w) _ _ _).
  - exists true. eexists. split; [reflexivity|]. simpl. repeat split.
  - exists false. eexists. split; [reflexivity|]. simpl. repeat split.
Qed.

Lemma getOrCreateConversation_known telegramId w c :
  conversation_of telegramId w = Some c ->
  getOrCreateConversation env telegramId w = (Returned c, w).
Proof.
  intros H. unfold getOrCreateConversation, getConversationByTelegramUserId,
    bind, gets.
  unfold conversation_of, the_conversations in H. now rewrite H.
Qed.

Lemma getOrCreateConversation_new telegramId w :
  conversation_of telegramId w = None ->
  let c := Conversation.mk (MemStorage.next_conversations (the_ids w))
             telegramId None "open"
             (Telegram.clock env (ticks w)) (Telegram.clock env (ticks w)) in
  exists w',
    getOrCreateConversation env telegramId w = (Returned c, w') /\
    the_conversations w' = JS.Map_set (Conversation.id c) c (the_conversations w) /\
    the_users w' = the_users w /\
    the_messages w' = the_messages w /\
    the_issues w' = the_issues w /\
    outbox w' = outbox w /\
    supportGroupId w' = supportGroupId w /\
    MemStorage.next_users (the_ids w') = MemStorage.next_users (the_ids w) /\
    MemStorage.next_conversations (the_ids w')
    = MemStorage.next_conversations (the_ids w) + 1 /\
    MemStorage.next_messages (the_ids w') = MemStorage.next_messages (the_ids w) /\
    MemStorage.next_supportIssues (the_ids w')
    = MemStorage.next_supportIssues (the_ids w).
Proof.
  intros H c. unfold getOrCreateConversation, getConversationByTelegramUserId.
  unfold bind at 1. unfold gets.
  unfold conversation_of, the_conversations in H. rewrite H.
  unfold insertConversationSchema_parse. unfold bind at 1. unfold ret at 1.
  unfold createConversation, next_conversation_id, newDate, conversations_set,
    modify, bind, ret. simpl.
  eexists. split; [reflexivity|]. simpl. repeat split.
Qed.

End StepEffects.

Lemma find_view {V W} (f : V -> W) (p : W -> bool) (m : JS.Map V) :
  find p (JS.Map_values (Map_view f m))
  = option_map f (find (fun v => p (f v)) (JS.Map_values m)).
Proof. rewrite Map_view_values. apply find_map. Qed.


Lemma updateConversation_owner env id updates :
  InsertConversation.p_telegramUserId updates = None ->
  respects (same conversation_owner_index) (updateConversation env id updates).
Proof.
  intros Hu w. unfold same, updateConversation, getConversation, bind, gets.
  destruct (JS.Map_get id (MemStorage.conversations (storage w))) as [c|] eqn:E;
    [|reflexivity].
  unfold conversation_owner_index. simpl.
  apply (Map_view_set_same Conversation.telegramUserId id c); [exact E|].
  unfold merge_conversation. simpl. now rewrite Hu.
Qed.

#[local] Hint Resolve updateConversation_owner : frames.

(** Applying a known result of the first step of a [bind]. *)
Ltac run_returned H E :=
  rewrite (bind_returned _ _ _ _ _ E) in H; cbv beta in H.


Section KnownSender.

Variable env : Telegram.Env.


End KnownSender.

(** ** Well-formed stores *)

Lemma WellFormed_new_store groupId sent n :
  WellFormed (mkWorld MemStorage.new groupId sent n).
Proof.
  split; simpl; try contradiction; try (intros; contradiction).
  - constructor.
  - intros _. auto.
Qed.

Lemma WellFormed_initial : WellFormed initial_world.
Proof. apply WellFormed_new_store. Qed.

(** A well-formed store stays so when the views it is stated on stay
    the same. *)
Lemma WellFormed_transport w w' :
  user_index w' = user_index w ->
  conversation_index w' = conversation_index w ->
  the_issues w' = the_issues w ->
  MemStorage.next_users (the_ids w') = MemStorage.next_users (the_ids w) ->
  MemStorage.next_conversations (the_ids w')
  = MemStorage.next_conversations (the_ids w) ->
  MemStorage.next_supportIssues (the_ids w')
  = MemStorage.next_supportIssues (the_ids w) ->
  WellFormed w -> WellFormed w'.
Proof.
  intros Hu Hc Hi Hnu Hnc Hni [A B C D E F G H I].
  split; unfold issues_of; rewrite ?Hu, ?Hc, ?Hi, ?Hnu, ?Hnc, ?Hni; assumption.
Qed.

Lemma filter_none {A} (p : A -> bool) (l : list A) :
  Forall (fun x => p x = false) l -> filter p l = [].
Proof.
  induction 1 as [|x l Hx _ IH]; [reflexivity|]. simpl. now rewrite Hx.
Qed.

Lemma find_app_last {A} (p : A -> bool) (l : list A) (x : A) :
  find p l = None -> find p (l ++ [x]) = if p x then Some x else None.
Proof.
  induction l as [|a l IH]; simpl; [reflexivity|].
  destruct (p a); [discriminate|exact IH].
Qed.

Lemma find_app_first {A} (p : A -> bool) (l : list A) (x y : A) :
  find p l = Some y -> find p (l ++ [x]) = Some y.
Proof.
  induction l as [|a l IH]; simpl; [discriminate|].
  destruct (p a); [trivial|exact IH].
Qed.


Lemma option_map_none_inv {A B} (f : A -> B) (o o' : option A) :
  option_map f o = option_map f o' -> o' = None -> o = None.
Proof. intros H ->. destruct o; [discriminate|reflexivity]. Qed.

Lemma user_index_keys w : JS.Map_keys (user_index w) = user_keys w.
Proof. apply Map_view_keys. Qed.

Lemma conversation_index_keys w :
  JS.Map_keys (conversation_index w) = conversation_keys w.
Proof. apply Map_view_keys. Qed.

Lemma fresh_user_key w :
  WellFormed w -> ~ In (MemStorage.next_users (the_ids w)) (user_keys w).
Proof.
  intros WF H. rewrite <- user_index_keys in H.
  apply (wf_user_keys w WF) in H. lia.
Qed.

Lemma fresh_conversation_key w :
  WellFormed w ->
  ~ In (MemStorage.next_conversations (the_ids w)) (conversation_keys w).
Proof.
  intros WF H. rewrite <- conversation_index_keys in H.
  apply (wf_conversation_keys w WF) in H. lia.
Qed.

Lemma fresh_issue_key w :
  WellFormed w ->
  ~ In (MemStorage.next_supportIssues (the_ids w)) (JS.Map_keys (the_issues w)).
Proof. intros WF H. apply (wf_issue_keys w WF) in H. lia. Qed.

(** A user exists for an external id exactly when the id is in the
    index. *)
Lemma user_of_none_index tid w :
  user_of tid w = None <-> ~ In tid (JS.Map_values (user_index w)).
Proof.
  unfold user_of, user_index. rewrite Map_view_values, find_none_iff. split.
  - intros H Hin. apply in_map_iff in Hin. destruct Hin as (u & E & Hu).
    specialize (H u Hu). rewrite E, String.eqb_refl in H. discriminate.
  - intros H u Hu.
    destruct (String.eqb_spec (User.telegramId u) tid) as [E|_]; [|reflexivity].
    exfalso. apply H. rewrite <- E. now apply in_map.
Qed.

(** In a well-formed store an external id without a user has no
    conversation. *)
Lemma no_user_no_conversation tid w :
  WellFormed w -> user_of tid w = None -> conversation_of tid w = None.
Proof.
  intros WF Hu. apply find_none_iff. intros c Hc.
  destruct (String.eqb_spec (Conversation.telegramUserId c) tid) as [E|_];
    [|reflexivity].
  exfalso. apply (user_of_none_index tid w); [exact Hu|].
  rewrite <- E.
  apply (wf_conversation_users w WF (conversation_core c)).
  unfold conversation_index. rewrite Map_view_values. now apply in_map.
Qed.

(** ** First contact *)

Section FirstContact.

Variable env : Telegram.Env.


End FirstContact.

(** ** Thread creation *)

Section ThreadCreation.

Variable env : Telegram.Env.

Lemma fetchProfilePhoto_returns telegramId user w :
  exists w1, fetchProfilePhoto env telegramId user w = (Returned tt, w1).
Proof.
  unfold fetchProfilePhoto, try_catch.
  match goal with
  | |- context [match ?m w with _ => _ end] => destruct (m w) as [[[]|e] w1]
  end; eexists; reflexivity.
Qed.

Lemma fetchProfilePhoto_frame telegramId user :
  respects
    (both (same the_conversations)
       (both (same the_issues)
          (both (same the_ids)
             (both (same user_index)
                (both (same the_messages)
                   (both (same supportGroupId)
                      (sends (fun x => is_thread_setup_call x = true))))))))
    (fetchProfilePhoto env telegramId user).
Proof. repeat apply respects_both; router_frames. Qed.

(** The three ways [createThread] can end: the introduction is
    rejected and the event is aborted; the topic is rejected and the
    conversation is left as it was; or the topic is created, the thread
    reference is written to the conversation filed under the local
    conversation's id, and a pending support issue is stored. *)
Lemma createThread_run from telegramId groupId user conversation w o w' :
  createThread env from telegramId groupId user conversation w = (o, w') ->
  exists w1 now,
    fetchProfilePhoto env telegramId user w = (Returned tt, w1) /\
    let intro :=
      Telegram.SendMessage (Telegram.ChatStr groupId)
        (userInfoText env from telegramId now)
        (Some (Telegram.mkOptions None None (Some "HTML"%string))) in
    let topic :=
      Telegram.CreateForumTopic (Telegram.ChatStr groupId)
        (Telegram.first_name from) in
    (o = Thrown (GatewayError intro) /\
     storage w' = storage w1 /\
     supportGroupId w' = supportGroupId w1 /\
     outbox w' = outbox w1 ++ [Telegram.mkExchange intro false]) \/
    (o = Returned conversation /\
     storage w' = storage w1 /\
     supportGroupId w' = supportGroupId w1 /\
     outbox w' = outbox w1 ++ [Telegram.mkExchange intro true;
                               Telegram.mkExchange topic false]) \/
    (exists threadMessage opened,
       o = Returned
             (Conversation.mk (Conversation.id conversation)
                (Conversation.telegramUserId conversation)
                (Some (JS.toString threadMessage))
                (Conversation.status conversation)
                (Conversation.lastMessageAt conversation)
                (Conversation.createdAt conversation)) /\
       supportGroupId w' = supportGroupId w1 /\
       outbox w' = outbox w1 ++ [Telegram.mkExchange intro true;
                                 Telegram.mkExchange topic true] /\
       the_users w' = the_users w1 /\
       the_messages w' = the_messages w1 /\
       (match JS.Map_get (Conversation.id conversation) (the_conversations w1) with
        | Some c0 =>
            exists touched,
              the_conversations w'
              = JS.Map_set (Conversation.id conversation)
                  (merge_conversation c0
                     (InsertConversation.mk_partial None
                        (Some (Some (JS.toString threadMessage))) None)
                     touched)
                  (the_conversations w1)
        | None => the_conversations w' = the_conversations w1
        end) /\
       the_issues w'
       = JS.Map_set (MemStorage.next_supportIssues (the_ids w1))
           (SupportIssue.mk (MemStorage.next_supportIssues (the_ids w1))
              telegramId (Conversation.id conversation)
              "New Support Request" "pending" opened None None)
           (the_issues w1) /\
       MemStorage.next_users (the_ids w') = MemStorage.next_users (the_ids w1) /\
       MemStorage.next_conversations (the_ids w')
       = MemStorage.next_conversations (the_ids w1) /\
       MemStorage.next_supportIssues (the_ids w')
       = MemStorage.next_supportIssues (the_ids w1) + 1).
Proof.
  intros Hrun. unfold createThread in Hrun.
  destruct (fetchProfilePhoto_returns telegramId user w) as [w1 E1].
  run_returned Hrun E1.
  exists w1, (Telegram.clock env (ticks w1)). split; [exact E1|].
  unfold bind at 1 in Hrun. unfold newDate at 1 in Hrun.
  unfold bind at 1 in Hrun. unfold bot_sendMessage at 1 in Hrun.
  cbn [outbox] in Hrun.
  destruct (Telegram.sendMessage_answer env (outbox w1) _ _ _) as [mid|].
  - unfold try_catch, bind at 1, bot_createForumTopic in Hrun.
    cbn [outbox record] in Hrun.
    destruct (Telegram.createForumTopic_answer env _ _ _).
    + right. right.
      unfold updateConversation, getConversation, createSupportIssue,
        insertSupportIssueSchema_parse, next_supportIssue_id, newDate,
        supportIssues_set, conversations_set, modify, bind, gets, ret in Hrun.
      cbn [storage record with_storage MemStorage.conversations] in Hrun.
      unfold the_conversations.
      destruct (JS.Map_get (Conversation.id conversation)
                  (MemStorage.conversations (storage w1))) as [c0|];
        injection Hrun as <- <-;
        (exists mid; eexists; split; [reflexivity|]);
        simpl; rewrite <- app_assoc; repeat split.
      eexists. reflexivity.
    + right. left. injection Hrun as <- <-. simpl.
      rewrite <- app_assoc. now repeat split.
  - left. injection Hrun as <- <-. now repeat split.
Qed.

End ThreadCreation.

(** ** Well-formedness is kept *)

Lemma Map_get_app_l {V} k (m m' : JS.Map V) v :
  JS.Map_get k m = Some v -> JS.Map_get k (m ++ m') = Some v.
Proof.
  induction m as [|[k' v'] m IH]; simpl; [discriminate|].
  destruct (k' =? k); [trivial|exact IH].
Qed.

Lemma Map_In_get {V} k (v : V) m :
  NoDup (JS.Map_keys m) -> In (k, v) m -> JS.Map_get k m = Some v.
Proof.
  induction m as [|[k' v'] m IH]; simpl; [contradiction|].
  intros Hnd [H|H].
  - injection H as -> ->. now rewrite Z.eqb_refl.
  - inversion Hnd as [|? ? Hout Hnd']; subst.
    destruct (Z.eqb_spec k' k) as [->|_].
    + exfalso. apply Hout. now apply (Map_In_keys m k v).
    + now apply IH.
Qed.

Lemma NoDup_app_fresh {A} (l : list A) (x : A) :
  NoDup l -> ~ In x l -> NoDup (l ++ [x]).
Proof.
  intros Hnd Hx. apply NoDup_app; [exact Hnd|repeat constructor; intros []|].
  intros a Ha [<-|[]]. contradiction.
Qed.

Lemma Map_keys_app {V} (m m' : JS.Map V) :
  JS.Map_keys (m ++ m') = JS.Map_keys m ++ JS.Map_keys m'.
Proof. apply map_app. Qed.

Lemma Map_values_app {V} (m m' : JS.Map V) :
  JS.Map_values (m ++ m') = JS.Map_values m ++ JS.Map_values m'.
Proof. apply map_app. Qed.

(** A user is added under the next identifier. *)
Lemma WellFormed_add_user w w' tid :
  WellFormed w ->
  user_index w' = user_index w ++ [(MemStorage.next_users (the_ids w), tid)] ->
  conversation_index w' = conversation_index w ->
  the_issues w' = the_issues w ->
  MemStorage.next_users (the_ids w') = MemStorage.next_users (the_ids w) + 1 ->
  MemStorage.next_conversations (the_ids w')
  = MemStorage.next_conversations (the_ids w) ->
  MemStorage.next_supportIssues (the_ids w')
  = MemStorage.next_supportIssues (the_ids w) ->
  WellFormed w'.
Proof.
  intros [A B C D E F G H I] Hu Hc Hi Hnu Hnc Hni.
  split; unfold issues_of; rewrite ?Hu, ?Hc, ?Hi, ?Hnu, ?Hnc, ?Hni; try assumption.
  - intros k. rewrite Map_keys_app, in_app_iff. simpl.
    intros [Hk|[<-|[]]]; [apply A in Hk|]; lia.
  - intros x Hx. rewrite Map_values_app, in_app_iff. left. now apply F.
Qed.

(** A conversation without thread is added under the next identifier,
    for an external id that has a user. *)
Lemma WellFormed_add_conversation w w' x :
  WellFormed w ->
  conversation_index w'
  = conversation_index w ++ [(MemStorage.next_conversations (the_ids w), x)] ->
  core_id x = MemStorage.next_conversations (the_ids w) ->
  core_thread x = None ->
  In (core_owner x) (JS.Map_values (user_index w)) ->
  user_index w' = user_index w ->
  the_issues w' = the_issues w ->
  MemStorage.next_users (the_ids w') = MemStorage.next_users (the_ids w) ->
  MemStorage.next_conversations (the_ids w')
  = MemStorage.next_conversations (the_ids w) + 1 ->
  MemStorage.next_supportIssues (the_ids w')
  = MemStorage.next_supportIssues (the_ids w) ->
  WellFormed w'.
Proof.
  intros [A B C D E F G H I] Hc Hid Hth Hown Hu Hi Hnu Hnc Hni.
  split; unfold issues_of; rewrite ?Hu, ?Hc, ?Hi, ?Hnu, ?Hnc, ?Hni; try assumption.
  - intros k. rewrite Map_keys_app, in_app_iff. simpl.
    intros [Hk|[<-|[]]]; [apply B in Hk|]; lia.
  - rewrite Map_keys_app. simpl. apply NoDup_app_fresh; [exact D|].
    intros Hk. apply B in Hk. lia.
  - intros k y. rewrite in_app_iff. simpl.
    intros [Hk|[Hk|[]]]; [now apply E|]. injection Hk as <- <-. exact Hid.
  - intros y. rewrite Map_values_app, in_app_iff. simpl.
    intros [Hy|[<-|[]]]; [now apply F|exact Hown].
  - intros y. rewrite Map_values_app, in_app_iff. simpl.
    intros [Hy|[<-|[]]]; [now apply G|now left].
  - intros i Hi'. destruct (H i Hi') as (y & Hy & Ht).
    exists y. split; [now apply Map_get_app_l|exact Ht].
Qed.

Lemma string_of_uint_nonempty d : NilZero.string_of_uint d <> ""%string.
Proof. destruct d; discriminate. Qed.

(** The decimal form of an integer is never the empty string, so a
    thread reference, once written, is truthy. *)
Lemma toString_nonempty n : JS.toString n <> ""%string.
Proof.
  unfold JS.toString, NilZero.string_of_int.
  destruct (Z.to_int n); [apply string_of_uint_nonempty|discriminate].
Qed.

Lemma toString_truthy n : JS.truthy (Some (JS.toString n)) = true.
Proof.
  simpl. destruct (String.eqb_spec (JS.toString n) ""%string) as [E|_];
    [now apply toString_nonempty in E|reflexivity].
Qed.

Lemma filter_app_last {A} (p : A -> bool) (l : list A) (x : A) :
  filter p (l ++ [x]) = filter p l ++ (if p x then [x] else []).
Proof. rewrite filter_app. reflexivity. Qed.

(** In a well-formed store a conversation whose thread reference is not
    set has no support issue. *)
Lemma no_thread_no_issue w k x :
  WellFormed w ->
  JS.Map_get k (conversation_index w) = Some x ->
  JS.truthy (core_thread x) = false ->
  issues_of k w = [].
Proof.
  intros WF Hx Hth. unfold issues_of.
  apply filter_none. apply Forall_forall. intros i Hi.
  destruct (Z.eqb_spec (SupportIssue.conversationId i) k) as [E|_];
    [|reflexivity].
  exfalso. destruct (wf_issues w WF i Hi) as (y & Hy & Ht).
  rewrite E, Hx in Hy. injection Hy as <-. congruence.
Qed.

(** The thread reference of a conversation without one is written, and
    a support issue for it is stored under the next identifier. *)
Lemma WellFormed_set_thread w w' k x thread issue :
  WellFormed w ->
  JS.Map_get k (conversation_index w) = Some x ->
  JS.truthy (core_thread x) = false ->
  JS.truthy (Some thread) = true ->
  conversation_index w'
  = JS.Map_set k
      (mkCore (core_id x) (core_owner x) (Some thread) (core_status x)
         (core_createdAt x))
      (conversation_index w) ->
  the_issues w'
  = the_issues w ++ [(MemStorage.next_supportIssues (the_ids w), issue)] ->
  SupportIssue.conversationId issue = k ->
  user_index w' = user_index w ->
  MemStorage.next_users (the_ids w') = MemStorage.next_users (the_ids w) ->
  MemStorage.next_conversations (the_ids w')
  = MemStorage.next_conversations (the_ids w) ->
  MemStorage.next_supportIssues (the_ids w')
  = MemStorage.next_supportIssues (the_ids w) + 1 ->
  WellFormed w'.
Proof.
  intros WF Hx Hfalsy Htruthy Hc Hi Hcid Hu Hnu Hnc Hni.
  pose proof (no_thread_no_issue w k x WF Hx Hfalsy) as Hnone.
  destruct WF as [A B C D E F G H I].
  assert (Hkeys : JS.Map_keys (conversation_index w')
                  = JS.Map_keys (conversation_index w)).
  { rewrite Hc. apply Map_set_keys_present. eapply Map_get_key. exact Hx. }
  assert (Hentry : forall k' y, In (k', y) (conversation_index w') ->
            In (k', y) (conversation_index w) \/
            (k' = k /\ y = mkCore (core_id x) (core_owner x) (Some thread)
                             (core_status x) (core_createdAt x))).
  { intros k' y Hy. rewrite Hc in Hy. apply Map_set_In in Hy.
    destruct Hy as [Hy|Hy]; [right; now injection Hy|now left]. }
  assert (Hxin : In (k, x) (conversation_index w)) by now apply Map_get_In.
  split; unfold issues_of; rewrite ?Hu, ?Hnu, ?Hnc, ?Hni, ?Hkeys; try assumption.
  - rewrite Hi. intros k'. rewrite Map_keys_app, in_app_iff. simpl.
    intros [Hk|[<-|[]]]; [apply C in Hk|]; lia.
  - intros k' y Hy. destruct (Hentry k' y Hy) as [Hold|[-> ->]];
      [now apply E|]. simpl. now apply E.
  - intros y Hy. apply Map_values_In in Hy. destruct Hy as [k' Hy].
    destruct (Hentry k' y Hy) as [Hold|[-> ->]].
    + apply F. now apply (Map_In_values _ k' y).
    + simpl. apply F. now apply (Map_In_values _ k x).
  - intros y Hy. apply Map_values_In in Hy. destruct Hy as [k' Hy].
    destruct (Hentry k' y Hy) as [Hold|[-> ->]].
    + apply G. now apply (Map_In_values _ k' y).
    + right. exact Htruthy.
  - assert (Hget : forall cid y,
              JS.Map_get cid (conversation_index w) = Some y ->
              JS.truthy (core_thread y) = true ->
              exists y', JS.Map_get cid (conversation_index w') = Some y' /\
                         JS.truthy (core_thread y') = true).
    { intros cid y Hy Ht. rewrite Hc. destruct (Z.eq_dec cid k) as [->|Hne].
      - rewrite Map_get_set_same. eexists. split; [reflexivity|exact Htruthy].
      - rewrite Map_get_set_other by exact Hne. now exists y. }
    rewrite Hi. intros i. rewrite Map_values_app, in_app_iff. simpl.
    intros [Hold|[<-|[]]].
    + destruct (H i Hold) as (y & Hy & Ht). now apply (Hget _ y).
    + rewrite Hcid, Hc, Map_get_set_same.
      eexists. split; [reflexivity|exact Htruthy].
  - intros cid. rewrite Hi, Map_values_app, filter_app, length_app. simpl.
    destruct (Z.eqb_spec (SupportIssue.conversationId issue) cid) as [E'|_].
    + rewrite <- E', Hcid. unfold issues_of in Hnone. rewrite Hnone. simpl. lia.
    + simpl. specialize (I cid). unfold issues_of in I. lia.
Qed.

(** ** The conversation a handler holds *)

Lemma tracks_same_index c w w' :
  conversation_index w' = conversation_index w -> tracks c w -> tracks c w'.
Proof. unfold tracks. now intros ->. Qed.

Lemma conversation_of_find tid w :
  option_map conversation_core (conversation_of tid w)
  = find (fun x => (core_owner x =? tid)%string)
      (JS.Map_values (conversation_index w)).
Proof.
  unfold conversation_of, conversation_index.
  now rewrite (find_view conversation_core (fun x => (core_owner x =? tid)%string)).
Qed.

Lemma conversation_of_tracks tid w c :
  WellFormed w -> conversation_of tid w = Some c ->
  tracks c w /\ Conversation.telegramUserId c = tid.
Proof.
  intros WF Hc.
  assert (Hin : In c (JS.Map_values (the_conversations w)))
    by (apply (find_some _ _ Hc)).
  assert (Htid : Conversation.telegramUserId c = tid).
  { apply find_some in Hc. now apply String.eqb_eq. }
  split; [|exact Htid]. split.
  - apply Map_values_In in Hin. destruct Hin as [k Hk].
    assert (Hk' : In (k, conversation_core c) (conversation_index w)).
    { unfold conversation_index, Map_view.
      change (k, conversation_core c)
        with ((fun e : Z * Conversation.t => (fst e, conversation_core (snd e)))
                (k, c)).
      now apply in_map. }
    pose proof (wf_conversation_ids w WF _ _ Hk') as Hid. simpl in Hid.
    rewrite Hid. apply Map_In_get; [apply (wf_conversation_nodup w WF)|exact Hk'].
  - rewrite Htid, <- conversation_of_find, Hc. reflexivity.
Qed.

Lemma tracks_conversation_of c w :
  tracks c w ->
  exists c', conversation_of (Conversation.telegramUserId c) w = Some c' /\
             conversation_core c' = conversation_core c.
Proof.
  intros [_ H]. rewrite <- conversation_of_find in H.
  destruct (conversation_of _ w) as [c'|]; [|discriminate].
  exists c'. split; [reflexivity|]. simpl in H. congruence.
Qed.

(** Overwriting the first match, under its own key, with another match
    makes the new value the first match. *)
Lemma find_Map_set_first {V} (key_of : V -> Z) (p : V -> bool) m k v v' :
  (forall k' x, In (k', x) m -> key_of x = k') ->
  find p (JS.Map_values m) = Some v ->
  key_of v = k ->
  p v' = true ->
  find p (JS.Map_values (JS.Map_set k v' m)) = Some v'.
Proof.
  intros Hkeys Hfind Hk Hp.
  induction m as [|[k0 x0] m IH]; simpl in *; [discriminate|].
  destruct (Z.eqb_spec k0 k) as [->|Hne]; simpl.
  - now rewrite Hp.
  - destruct (p x0) eqn:Hp0.
    + injection Hfind as <-. exfalso. apply Hne.
      rewrite <- Hk. symmetry. apply Hkeys. now left.
    + apply IH; [|exact Hfind]. intros k' x Hx. apply Hkeys. now right.
Qed.

Lemma tracks_get c w :
  tracks c w ->
  exists c0, JS.Map_get (Conversation.id c) (the_conversations w) = Some c0 /\
             conversation_core c0 = conversation_core c.
Proof.
  intros [H _]. unfold conversation_index in H. rewrite Map_view_get in H.
  destruct (JS.Map_get _ _) as [c0|]; [|discriminate].
  exists c0. split; [reflexivity|]. simpl in H. congruence.
Qed.

Lemma topic_outcomes_app l l' :
  topic_outcomes (l ++ l') = topic_outcomes l ++ topic_outcomes l'.
Proof. unfold topic_outcomes. now rewrite filter_app, map_app. Qed.

Lemma topic_outcomes_none l :
  Forall (fun x => is_topic_call x = false) l -> topic_outcomes l = [].
Proof. intros H. unfold topic_outcomes. now rewrite filter_none. Qed.

Lemma setup_call_not_topic x :
  is_thread_setup_call x = true -> is_topic_call x = false.
Proof.
  unfold is_thread_setup_call, is_topic_call.
  now destruct (Telegram.call x).
Qed.

Lemma storage_views w w' :
  storage w' = storage w ->
  user_index w' = user_index w /\
  conversation_index w' = conversation_index w /\
  the_issues w' = the_issues w /\
  the_ids w' = the_ids w /\
  the_messages w' = the_messages w.
Proof.
  intros H.
  unfold user_index, conversation_index, the_issues, the_ids, the_messages,
    the_users, the_conversations.
  now rewrite H.
Qed.

Section EnsureThread.

Variable env : Telegram.Env.

Lemma ensureThread_spec from telegramId groupId user conversation w o w' :
  WellFormed w ->
  tracks conversation w ->
  ensureThread env from telegramId groupId user conversation w = (o, w') ->
  WellFormed w' /\
  ((JS.truthy (Conversation.threadId conversation) = true /\
    o = Returned conversation /\ w' = w) \/
   (JS.truthy (Conversation.threadId conversation) = false /\
    ((exists e, o = Thrown e /\
        conversation_index w' = conversation_index w /\
        the_issues w' = the_issues w /\
        topic_outcomes (sent_since w w') = []) \/
     (o = Returned conversation /\
        conversation_index w' = conversation_index w /\
        the_issues w' = the_issues w /\
        topic_outcomes (sent_since w w') = [false]) \/
     (exists threadMessage issue,
        o = Returned (with_thread conversation (JS.toString threadMessage)) /\
        tracks (with_thread conversation (JS.toString threadMessage)) w' /\
        the_issues w'
        = the_issues w ++ [(MemStorage.next_supportIssues (the_ids w), issue)] /\
        SupportIssue.status issue = "pending"%string /\
        SupportIssue.conversationId issue = Conversation.id conversation /\
        SupportIssue.userId issue = telegramId /\
        issues_of (Conversation.id conversation) w' = [issue] /\
        topic_outcomes (sent_since w w') = [true])))).
Proof.
  intros WF Htr Hrun. unfold ensureThread in Hrun.
  destruct (JS.truthy (Conversation.threadId conversation)) eqn:Hth;
    simpl in Hrun.
  { injection Hrun as <- <-. split; [exact WF|]. left. now repeat split. }
  destruct (createThread_run env _ _ _ _ _ _ _ _ Hrun)
    as (w1 & now & E1 & Hcases).
  pose proof (respects_run _ _ _ _ _
                (fetchProfilePhoto_frame env telegramId user) E1)
    as (Fc & Fi & Fids & Fu & _ & _ & (pre & Hpre & Hsetup)).
  unfold same in Fc, Fi, Fids, Fu.
  assert (Fci : conversation_index w1 = conversation_index w)
    by (unfold conversation_index; now rewrite Fc).
  assert (Hpre_topic : topic_outcomes pre = []).
  { apply topic_outcomes_none. eapply Forall_impl; [|exact Hsetup].
    apply setup_call_not_topic. }
  assert (WF1 : WellFormed w1).
  { apply (WellFormed_transport w w1); try assumption; now rewrite Fids. }
  cbv zeta in Hcases.
  destruct Hcases as [(Ho & Hst & _ & Hout) | [(Ho & Hst & _ & Hout) | Hc]].
  - destruct (storage_views w1 w' Hst) as (Vu & Vc & Vi & Vids & _).
    split.
    { apply (WellFormed_transport w1 w'); try assumption; now rewrite Vids. }
    right. split; [reflexivity|]. left. eexists. split; [exact Ho|].
    split; [congruence|]. split; [congruence|].
    rewrite (sent_since_trans w w1 w' _ _ Hpre Hout), topic_outcomes_app, Hpre_topic.
    reflexivity.
  - destruct (storage_views w1 w' Hst) as (Vu & Vc & Vi & Vids & _).
    split.
    { apply (WellFormed_transport w1 w'); try assumption; now rewrite Vids. }
    right. split; [reflexivity|]. right. left. split; [exact Ho|].
    split; [congruence|]. split; [congruence|].
    rewrite (sent_since_trans w w1 w' _ _ Hpre Hout), topic_outcomes_app, Hpre_topic.
    reflexivity.
  - destruct Hc as (mid & opened & Ho & _ & Hout & Husers & _ & Hconv & Hiss
                    & Hnu & Hnc & Hni).
    destruct (tracks_get conversation w Htr) as (c0 & Hget & Hcore).
    rewrite <- Fc in Hget. rewrite Hget in Hconv. destruct Hconv as [touched Hconv].
    set (issue := SupportIssue.mk _ _ _ _ _ _ _ _) in Hiss.
    set (thread := JS.toString mid) in *.
    assert (Hx : JS.Map_get (Conversation.id conversation) (conversation_index w1)
                 = Some (conversation_core conversation))
      by (rewrite Fci; apply Htr).
    assert (Hci : conversation_index w'
                  = JS.Map_set (Conversation.id conversation)
                      (conversation_core (with_thread conversation thread))
                      (conversation_index w1)).
    { unfold conversation_index. rewrite Hconv, Map_view_set. f_equal.
      unfold conversation_core, merge_conversation, with_thread. simpl.
      unfold conversation_core in Hcore. now injection Hcore as -> -> _ -> ->. }
    assert (Hi' : the_issues w'
                  = the_issues w1
                    ++ [(MemStorage.next_supportIssues (the_ids w1), issue)]).
    { rewrite Hiss. apply Map_set_fresh. apply (fresh_issue_key w1 WF1). }
    assert (Hu' : user_index w' = user_index w1)
      by (unfold user_index; now rewrite Husers).
    assert (WF' : WellFormed w').
    { apply (WellFormed_set_thread w1 w' (Conversation.id conversation)
               (conversation_core conversation) thread issue);
        try assumption; try reflexivity.
      apply toString_truthy. }
    split; [exact WF'|].
    right. split; [reflexivity|]. right. right. exists mid, issue.
    split; [exact Ho|]. split; [|split; [|split; [|split; [|split; [|split]]]]].
    + split.
      * simpl. rewrite Hci. apply Map_get_set_same.
      * rewrite Hci.
        apply (find_Map_set_first core_id _ _ _ (conversation_core conversation)).
        -- apply (wf_conversation_ids w1 WF1).
        -- rewrite Fci. apply Htr.
        -- reflexivity.
        -- simpl. apply String.eqb_refl.
    + rewrite Hi', Fi, Fids. reflexivity.
    + reflexivity.
    + reflexivity.
    + reflexivity.
    + unfold issues_of. rewrite Hi', Map_values_app, filter_app.
      pose proof (no_thread_no_issue w1 _ _ WF1 Hx Hth) as Hnone.
      unfold issues_of in Hnone. rewrite Hnone. simpl.
      now rewrite Z.eqb_refl.
    + rewrite (sent_since_trans w w1 w' _ _ Hpre Hout), topic_outcomes_app,
        Hpre_topic.
      reflexivity.
Qed.

End EnsureThread.

(** ** The steps before forwarding *)

Section BeforeForwarding.

Variable env : Telegram.Env.

Lemma user_of_some_index tid w u :
  user_of tid w = Some u -> In tid (JS.Map_values (user_index w)).
Proof.
  intros H. destruct (in_dec string_dec tid (JS.Map_values (user_index w)))
    as [Hin|Hout]; [exact Hin|].
  apply user_of_none_index in Hout. congruence.
Qed.

Lemma getOrCreateUser_spec message from telegramId w o w' :
  WellFormed w ->
  getOrCreateUser env message from telegramId w = (o, w') ->
  WellFormed w' /\
  the_conversations w' = the_conversations w /\
  the_issues w' = the_issues w /\
  supportGroupId w' = supportGroupId w /\
  sends (fun x => is_welcome_call x = true) w w' /\
  In telegramId (JS.Map_values (user_index w')) /\
  ((exists user, o = Returned user) \/
   (exists e, o = Thrown e /\ user_of telegramId w = None)).
Proof.
  intros WF Hrun.
  destruct (user_of telegramId w) as [u|] eqn:Hu.
  - rewrite (getOrCreateUser_known env message from telegramId w u Hu) in Hrun.
    injection Hrun as <- <-.
    split; [exact WF|]. repeat split.
    + apply (pre_refl _ (preorder_sends _)).
    + now apply (user_of_some_index telegramId w u).
    + left. now exists u.
  - destruct (getOrCreateUser_new env message from telegramId w Hu)
      as (u & ok & w1 & E1 & _ & Hid & Htid & Husers & Hout & Hconv & _ & Hiss
          & Hsg & Hnu & Hnc & _ & Hni).
    rewrite E1 in Hrun.
    assert (Hindex : user_index w1
                     = user_index w
                       ++ [(MemStorage.next_users (the_ids w), telegramId)]).
    { unfold user_index. rewrite Husers, Map_set_fresh.
      - rewrite Map_view_app. simpl. now rewrite Htid, Hid.
      - rewrite Hid. apply (fresh_user_key w WF). }
    assert (WF1 : WellFormed w1).
    { apply (WellFormed_add_user w w1 telegramId); try assumption.
      unfold conversation_index. now rewrite Hconv. }
    assert (Hsend : sends (fun x => is_welcome_call x = true) w w1).
    { eexists. split; [exact Hout|]. constructor; [reflexivity|constructor]. }
    assert (Hin : In telegramId (JS.Map_values (user_index w1))).
    { rewrite Hindex, Map_values_app, in_app_iff. right. now left. }
    injection Hrun as <- <-.
    split; [exact WF1|]. split; [exact Hconv|]. split; [exact Hiss|].
    split; [exact Hsg|]. split; [exact Hsend|]. split; [exact Hin|].
    destruct ok; [left; now exists u|right; now eexists].
Qed.

Lemma getOrCreateConversation_spec telegramId w :
  WellFormed w ->
  In telegramId (JS.Map_values (user_index w)) ->
  exists c w',
    getOrCreateConversation env telegramId w = (Returned c, w') /\
    WellFormed w' /\
    tracks c w' /\
    Conversation.telegramUserId c = telegramId /\
    user_index w' = user_index w /\
    the_issues w' = the_issues w /\
    supportGroupId w' = supportGroupId w /\
    outbox w' = outbox w /\
    (forall c0, conversation_of telegramId w = Some c0 -> c = c0 /\ w' = w) /\
    (conversation_of telegramId w = None ->
     Conversation.threadId c = None /\
     conversation_keys w'
     = conversation_keys w ++ [MemStorage.next_conversations (the_ids w)]).
Proof.
  intros WF Huser.
  destruct (conversation_of telegramId w) as [c|] eqn:Hc.
  - exists c, w.
    destruct (conversation_of_tracks telegramId w c WF Hc) as [Htr Hown].
    split; [now apply getOrCreateConversation_known|].
    split; [exact WF|]. split; [exact Htr|]. split; [exact Hown|].
    split; [reflexivity|]. split; [reflexivity|]. split; [reflexivity|].
    split; [reflexivity|]. split.
    + intros c0 [= <-]. now split.
    + discriminate.
  - destruct (getOrCreateConversation_new env telegramId w Hc)
      as (w' & E & Hconv & Husers & _ & Hiss & Hout & Hsg & Hnu & Hnc & _ & Hni).
    set (c := Conversation.mk _ _ _ _ _ _) in *.
    exists c, w'.
    assert (Hfresh : ~ In (Conversation.id c) (conversation_keys w))
      by apply (fresh_conversation_key w WF).
    assert (Hci : conversation_index w'
                  = conversation_index w
                    ++ [(MemStorage.next_conversations (the_ids w),
                         conversation_core c)]).
    { unfold conversation_index. rewrite Hconv, Map_set_fresh by exact Hfresh.
      now rewrite Map_view_app. }
    assert (Hu : user_index w' = user_index w)
      by (unfold user_index; now rewrite Husers).
    split; [exact E|]. split.
    { apply (WellFormed_add_conversation w w' (conversation_core c));
        try assumption; reflexivity. }
    split.
    { split.
      - unfold conversation_index. rewrite Hconv, Map_view_set.
        apply Map_get_set_same.
      - rewrite Hci, Map_values_app. simpl. rewrite find_app_last.
        + simpl. now rewrite String.eqb_refl.
        + rewrite <- conversation_of_find. simpl. now rewrite Hc. }
    split; [reflexivity|]. split; [exact Hu|]. split; [exact Hiss|].
    split; [exact Hsg|]. split; [exact Hout|]. split; [discriminate|].
    intros _. split; [reflexivity|].
    unfold conversation_keys. rewrite Hconv, Map_set_fresh by exact Hfresh.
    now rewrite Map_keys_app.
Qed.

Lemma storeUserMessage_frame message from telegramId conversation :
  respects
    (both (same user_index)
       (both (same conversation_index)
          (both (same the_issues)
             (both (same (fun w => MemStorage.next_users (the_ids w)))
                (both (same (fun w => MemStorage.next_conversations (the_ids w)))
                   (both (same (fun w => MemStorage.next_supportIssues (the_ids w)))
                      (both (same supportGroupId) (same outbox))))))))
    (storeUserMessage env message from telegramId conversation).
Proof. repeat apply respects_both; router_frames. Qed.

End BeforeForwarding.

Lemma bind_returned_inv {A B} (m : M A) (f : A -> M B) w b w' :
  bind m f w = (Returned b, w') ->
  exists a w1, m w = (Returned a, w1) /\ f a w1 = (Returned b, w').
Proof.
  intros H. destruct (bind_inv m f w _ w' H) as [(e & _ & He)|H'];
    [discriminate|exact H'].
Qed.

Lemma welcome_not_topic x : is_welcome_call x = true -> is_topic_call x = false.
Proof.
  unfold is_welcome_call, is_topic_call. now destruct (Telegram.call x).
Qed.

Section UserDirection.

Variable env : Telegram.Env.

(** The handler up to the point where the message is stored: either the
    event is dropped there, or forwarding starts from a well-formed
    store that the local conversation agrees with. *)
Lemma before_forwarding message from w o w' :
  let tid := JS.toString (Telegram.id from) in
  WellFormed w ->
  Telegram.from message = Some from ->
  handleUserDirectMessage env message w = (o, w') ->
  (exists e, o = Thrown e /\
     WellFormed w' /\
     the_issues w' = the_issues w /\
     topic_outcomes (sent_since w w') = [] /\
     (forall c0, conversation_of tid w = Some c0 ->
        exists c, conversation_of tid w' = Some c /\
                  conversation_core c = conversation_core c0)) \/
  (exists user conversation w3,
     WellFormed w3 /\
     tracks conversation w3 /\
     Conversation.telegramUserId conversation = tid /\
     the_issues w3 = the_issues w /\
     supportGroupId w3 = supportGroupId w /\
     sends (fun x => is_welcome_call x = true) w w3 /\
     (forall c0, conversation_of tid w = Some c0 ->
        conversation_core conversation = conversation_core c0) /\
     (conversation_of tid w = None -> Conversation.threadId conversation = None) /\
     forwardToSupport env message from tid user conversation w3 = (o, w')).
Proof.
  intros tid WF Hfrom Hrun.
  unfold handleUserDirectMessage in Hrun. rewrite Hfrom in Hrun. fold tid in Hrun.
  destruct (getOrCreateUser env message from tid w) as [o1 w1] eqn:E1.
  destruct (getOrCreateUser_spec env message from tid w o1 w1 WF E1)
    as (WF1 & Hc1 & Hi1 & Hsg1 & Hs1 & Hin1 & Ho1).
  assert (Hconv1 : forall t, conversation_of t w1 = conversation_of t w)
    by (intros t; unfold conversation_of; now rewrite Hc1).
  destruct Ho1 as [[user ->]|(e & -> & Hnone)].
  2:{ rewrite (bind_thrown _ _ _ _ _ E1) in Hrun. injection Hrun as <- <-.
      left. exists e. split; [reflexivity|]. split; [exact WF1|].
      split; [exact Hi1|]. split.
      - destruct (sends_sent_since _ _ _ Hs1) as [_ F].
        apply topic_outcomes_none. eapply Forall_impl; [|exact F].
        apply welcome_not_topic.
      - intros c0 Hc0.
        rewrite (no_user_no_conversation tid w WF Hnone) in Hc0. discriminate. }
  run_returned Hrun E1.
  destruct (getOrCreateConversation_spec env tid w1 WF1 Hin1)
    as (c & w2 & E2 & WF2 & Htr2 & Hown & Hu2 & Hi2 & Hsg2 & Hout2 & Hold & Hnew).
  run_returned Hrun E2.
  destruct (storeUserMessage env message from tid c w2) as [o3 w3] eqn:E3.
  pose proof (respects_run _ _ _ _ _
                (storeUserMessage_frame env message from tid c) E3)
    as (Fu & Fc & Fi & Fnu & Fnc & Fni & Fsg & Fout).
  unfold same in Fu, Fc, Fi, Fnu, Fnc, Fni, Fsg, Fout.
  assert (WF3 : WellFormed w3) by now apply (WellFormed_transport w2 w3).
  assert (Htr3 : tracks c w3) by now apply (tracks_same_index c w2 w3).
  assert (Hs3 : sends (fun x => is_welcome_call x = true) w w3).
  { destruct Hs1 as (new & Hn & F). exists new. split; [congruence|exact F]. }
  assert (Hcore : forall c0, conversation_of tid w = Some c0 ->
                             conversation_core c = conversation_core c0).
  { intros c0 Hc0. rewrite <- Hconv1 in Hc0.
    destruct (Hold c0 Hc0) as [-> _]. reflexivity. }
  destruct o3 as [m|e].
  - run_returned Hrun E3. right. exists user, c, w3.
    split; [exact WF3|]. split; [exact Htr3|]. split; [exact Hown|].
    split; [congruence|]. split; [congruence|]. split; [exact Hs3|].
    split; [exact Hcore|]. split; [|exact Hrun].
    intros Hnone. rewrite <- Hconv1 in Hnone. apply (Hnew Hnone).
  - rewrite (bind_thrown _ _ _ _ _ E3) in Hrun. injection Hrun as <- <-.
    left. exists e. split; [reflexivity|]. split; [exact WF3|].
    split; [congruence|]. split.
    + destruct (sends_sent_since _ _ _ Hs3) as [_ F].
      apply topic_outcomes_none. eapply Forall_impl; [|exact F].
      apply welcome_not_topic.
    + intros c0 Hc0.
      destruct (tracks_conversation_of c w3 Htr3) as (c' & Hc' & Hcore').
      rewrite Hown in Hc'. exists c'. split; [exact Hc'|].
      rewrite Hcore'. now apply Hcore.
Qed.

Lemma forwardToSupport_inv message from telegramId user conversation w o w' :
  forwardToSupport env message from telegramId user conversation w = (o, w') ->
  (JS.truthy (supportGroupId w) = false /\ o = Returned tt /\ w' = w) \/
  (exists groupId,
     supportGroupId w = Some groupId /\
     JS.truthy (Some groupId) = true /\
     ((exists e,
         ensureThread env from telegramId groupId user conversation w
         = (Thrown e, w') /\ o = Thrown e) \/
      (exists conversation' w4,
         ensureThread env from telegramId groupId user conversation w
         = (Returned conversation', w4) /\
         (forwardTextToSupport env message from groupId conversation';;;
          forwardMediaToSupport env message from groupId conversation') w4
         = (o, w')))).
Proof.
  unfold forwardToSupport, getSupportGroupId. unfold bind at 1. unfold gets.
  destruct (supportGroupId w) as [g|] eqn:Hg.
  - destruct (JS.truthy (Some g)) eqn:Ht.
    + intros H. right. exists g. split; [reflexivity|]. split; [exact Ht|].
      destruct (bind_inv _ _ _ _ _ H) as [(e & E & ->)|(c' & w4 & E & E')].
      * left. now exists e.
      * right. now exists c', w4.
    + intros [= <- <-]. left. now repeat split.
  - intros [= <- <-]. left. now repeat split.
Qed.

Lemma forwarding_frame message from groupId conversation :
  respects
    (both (same storage)
       (both (same supportGroupId)
          (sends (fun x => is_topic_call x = false))))
    (forwardTextToSupport env message from groupId conversation;;;
     forwardMediaToSupport env message from groupId conversation).
Proof. repeat apply respects_both; router_frames. Qed.

End UserDirection.

(** ** Support issues *)

Lemma core_threadId c c' :
  conversation_core c = conversation_core c' ->
  Conversation.threadId c = Conversation.threadId c' /\
  Conversation.id c = Conversation.id c'.
Proof. unfold conversation_core. intros [= H1 _ H2 _ _]. now split. Qed.

Lemma falsy_thread_is_null w c :
  WellFormed w -> tracks c w ->
  JS.truthy (Conversation.threadId c) = false ->
  Conversation.threadId c = None.
Proof.
  intros WF [Hget _] Hf.
  destruct (wf_threads w WF (conversation_core c)) as [H|H].
  - eapply Map_get_value. exact Hget.
  - exact H.
  - simpl in H. congruence.
Qed.

Section ThreadScenarios.

Variable env : Telegram.Env.

(** What one message of an end user does to the thread of the sender's
    conversation and to the support issues: nothing, when no topic
    creation is attempted; nothing again, when the topic is rejected;
    and, when the topic is created, the thread reference is set and one
    pending issue is stored for the conversation, its only one.  The
    store stays well formed in every case. *)
Lemma thread_scenarios message from w o w' :
  let tid := JS.toString (Telegram.id from) in
  WellFormed w ->
  Telegram.from message = Some from ->
  handleUserDirectMessage env message w = (o, w') ->
  WellFormed w' /\
  ((topic_outcomes (sent_since w w') = [] /\
    the_issues w' = the_issues w /\
    (forall c0, conversation_of tid w = Some c0 ->
       exists c, conversation_of tid w' = Some c /\
                 conversation_core c = conversation_core c0)) \/
   (topic_outcomes (sent_since w w') = [false] /\
    the_issues w' = the_issues w /\
    (exists c, conversation_of tid w' = Some c /\
               Conversation.threadId c = None) /\
    (forall c0, conversation_of tid w = Some c0 ->
       Conversation.threadId c0 = None)) \/
   (topic_outcomes (sent_since w w') = [true] /\
    exists c issue k,
      conversation_of tid w' = Some c /\
      JS.truthy (Conversation.threadId c) = true /\
      the_issues w' = the_issues w ++ [(k, issue)] /\
      SupportIssue.status issue = "pending"%string /\
      SupportIssue.conversationId issue = Conversation.id c /\
      SupportIssue.userId issue = tid /\
      issues_of (Conversation.id c) w' = [issue] /\
      (forall c0, conversation_of tid w = Some c0 ->
         Conversation.threadId c0 = None /\
         Conversation.id c0 = Conversation.id c))).
Proof.
  intros tid WF Hfrom Hrun.
  destruct (before_forwarding env message from w o w' WF Hfrom Hrun)
    as [(e & _ & WF' & Hi & Ht & Hc)
       |(user & conv & w3 & WF3 & Htr3 & Hown & Hi3 & Hsg3 & Hs3 & Hcore & Hnew
         & Hfwd)].
  { split; [exact WF'|]. left. now repeat split. }
  fold tid in Hown, Hcore, Hnew, Hfwd.
  destruct (sends_sent_since _ _ _ Hs3) as [Hout3 Hw3].
  assert (Ht3 : topic_outcomes (sent_since w w3) = []).
  { apply topic_outcomes_none. eapply Forall_impl; [|exact Hw3].
    apply welcome_not_topic. }
  assert (Hkeep : forall w4 c,
            tracks c w4 -> Conversation.telegramUserId c = tid ->
            exists c', conversation_of tid w4 = Some c' /\
                       conversation_core c' = conversation_core c).
  { intros w4 c Htr Ho. rewrite <- Ho. now apply tracks_conversation_of. }
  destruct (forwardToSupport_inv env _ _ _ _ _ _ _ _ Hfwd)
    as [(_ & _ & ->)|(g & Hg & Hgt & Hthread)].
  { split; [exact WF3|]. left. split; [exact Ht3|]. split; [exact Hi3|].
    intros c0 Hc0. destruct (Hkeep w3 conv Htr3 Hown) as (c' & Hc' & Hcc).
    exists c'. split; [exact Hc'|]. rewrite Hcc. now apply Hcore. }
  assert (Hscen : exists o4 w4,
            ensureThread env from tid g user conv w3 = (o4, w4) /\
            (forall c' , o4 = Returned c' ->
               storage w' = storage w4 /\
               topic_outcomes (sent_since w4 w') = [] /\
               exists rest, outbox w' = outbox w4 ++ rest) /\
            (forall e, o4 = Thrown e -> w' = w4)).
  { destruct Hthread as [(e & E & _)|(c' & w4 & E & Hrest)].
    - exists (Thrown e), w'. split; [exact E|]. split; [discriminate|].
      reflexivity.
    - exists (Returned c'), w4. split; [exact E|]. split; [|discriminate].
      intros c'' [= <-].
      pose proof (respects_run _ _ _ _ _
                    (forwarding_frame env message from g c') Hrest)
        as (Fs & _ & Fsend).
      destruct (sends_sent_since _ _ _ Fsend) as [Hout F].
      split; [exact Fs|]. split; [now apply topic_outcomes_none|].
      exists (sent_since w4 w'). exact Hout. }
  destruct Hscen as (o4 & w4 & E4 & Hret & Hthr).
  destruct (ensureThread_spec env _ _ _ _ _ _ _ _ WF3 Htr3 E4) as [WF4 Hcases].
  assert (Hout4 : exists sent4, outbox w4 = outbox w3 ++ sent4
                                /\ sent_since w3 w4 = sent4).
  { assert (F : respects (sends (fun _ => True))
                  (ensureThread env from tid g user conv))
      by router_frames.
    destruct (sends_sent_since _ _ _ (respects_run _ _ _ _ _ F E4)) as [H _].
    exists (sent_since w3 w4). now split. }
  destruct Hout4 as (sent4 & Hout4 & Hs4).
  assert (Hfinal : WellFormed w' /\
            conversation_index w' = conversation_index w4 /\
            the_issues w' = the_issues w4 /\
            topic_outcomes (sent_since w w')
            = topic_outcomes (sent_since w3 w4)).
  { destruct o4 as [c'|e].
    - destruct (Hret c' eq_refl) as (Hst & Ht' & rest & Hout').
      destruct (storage_views w4 w' Hst) as (Vu & Vc & Vi & Vids & _).
      split; [apply (WellFormed_transport w4 w'); try assumption;
              now rewrite Vids|].
      split; [exact Vc|]. split; [exact Vi|].
      rewrite (sent_since_app w w' (sent_since w w3 ++ sent4 ++ rest)).
      + rewrite !topic_outcomes_app, Ht3, Hs4.
        rewrite <- (sent_since_app w4 w' rest Hout'), Ht'.
        now rewrite app_nil_r.
      + now rewrite Hout', Hout4, Hout3, <- !app_assoc.
    - rewrite (Hthr e eq_refl). split; [exact WF4|].
      split; [reflexivity|]. split; [reflexivity|].
      rewrite (sent_since_app w w4 (sent_since w w3 ++ sent4)).
      + now rewrite topic_outcomes_app, Ht3, Hs4.
      + now rewrite Hout4, Hout3, <- app_assoc. }
  destruct Hfinal as (WF' & Hci' & Hi' & Hto).
  split; [exact WF'|]. rewrite Hto, Hi'.
  assert (Htr_final : forall c, tracks c w4 -> tracks c w')
    by (intros c; now apply tracks_same_index).
  destruct Hcases as [(Hth & -> & ->)
                     |(Hth & [(e & -> & Hci & Hi4 & Ht4)
                             |[(-> & Hci & Hi4 & Ht4)
                              |(mid & issue & -> & Htr4 & Hi4 & Hst & Hcid & Huid
                                & Hof & Ht4)]])].
  - left. rewrite (sent_since_app w3 w3 []) by now rewrite app_nil_r.
    split; [reflexivity|]. split; [exact Hi3|].
    intros c0 Hc0. destruct (Hkeep w' conv (Htr_final _ Htr3) Hown)
      as (c' & Hc' & Hcc).
    exists c'. split; [exact Hc'|]. rewrite Hcc. now apply Hcore.
  - left. split; [exact Ht4|]. split; [congruence|].
    intros c0 Hc0.
    destruct (Hkeep w' conv (Htr_final _ (tracks_same_index _ _ _ Hci Htr3)) Hown)
      as (c' & Hc' & Hcc).
    exists c'. split; [exact Hc'|]. rewrite Hcc. now apply Hcore.
  - right. left. split; [exact Ht4|]. split; [congruence|].
    pose proof (falsy_thread_is_null w3 conv WF3 Htr3 Hth) as Hnull.
    split.
    + destruct (Hkeep w' conv (Htr_final _ (tracks_same_index _ _ _ Hci Htr3)) Hown)
        as (c' & Hc' & Hcc).
      exists c'. split; [exact Hc'|].
      destruct (core_threadId _ _ Hcc) as [-> _]. exact Hnull.
    + intros c0 Hc0. destruct (core_threadId _ _ (Hcore c0 Hc0)) as [<- _].
      exact Hnull.
  - right. right. split; [exact Ht4|].
    pose proof (falsy_thread_is_null w3 conv WF3 Htr3 Hth) as Hnull.
    destruct (Hkeep w' _ (Htr_final _ Htr4) Hown) as (c' & Hc' & Hcc).
    destruct (core_threadId _ _ Hcc) as [Hthc Hidc]. simpl in Hthc, Hidc.
    exists c', issue, (MemStorage.next_supportIssues (the_ids w3)).
    split; [exact Hc'|]. split; [rewrite Hthc; apply toString_truthy|].
    split; [now rewrite Hi4, Hi3|]. split; [exact Hst|].
    split; [congruence|]. split; [exact Huid|]. split.
    + rewrite Hidc. unfold issues_of. rewrite Hi'. exact Hof.
    + intros c0 Hc0. destruct (core_threadId _ _ (Hcore c0 Hc0)) as [<- <-].
      split; [exact Hnull|congruence].
Qed.

End ThreadScenarios.

(** The three scenarios do occur: with a working platform the topic is
    created and issue 1 is stored; when topics are rejected nothing is
    stored; a second message after the thread exists stores nothing. *)
Lemma thread_scenarios_examples :
  topic_outcomes (sent_since Examples.support_world Examples.after_help)
  = [true] /\
  List.length (the_issues Examples.after_help) = 1%nat /\
  topic_outcomes (sent_since Examples.support_world Examples.after_help_no_topic)
  = [false] /\
  the_issues Examples.after_help_no_topic = [] /\
  let w'' := snd (handleUserDirectMessage Examples.ok_env Examples.msg_again
                    Examples.after_help) in
  topic_outcomes (sent_since Examples.after_help w'') = [] /\
  the_issues w'' = the_issues Examples.after_help.
Proof. vm_compute. repeat split. Qed.

(** ** Reachable states *)

Section Reachable.

Variable env : Telegram.Env.

Lemma handleUserDirectMessage_WellFormed message w :
  WellFormed w -> WellFormed (snd (handleUserDirectMessage env message w)).
Proof.
  intros WF. destruct (Telegram.from message) as [from|] eqn:Hfrom.
  - destruct (handleUserDirectMessage env message w) as [o w'] eqn:Hrun.
    apply (thread_scenarios env message from w o w' WF Hfrom Hrun).
  - unfold handleUserDirectMessage. now rewrite Hfrom.
Qed.

Lemma handleSupportGroupMessage_frame message :
  respects
    (both (same user_index)
       (both (same conversation_index)
          (both (same the_issues)
             (both (same (fun w => MemStorage.next_users (the_ids w)))
                (both (same (fun w => MemStorage.next_conversations (the_ids w)))
                   (same (fun w => MemStorage.next_supportIssues (the_ids w))))))))
    (handleSupportGroupMessage env message).
Proof. repeat apply respects_both; router_frames. Qed.

Lemma handleSupportGroupMessage_WellFormed message w :
  WellFormed w -> WellFormed (snd (handleSupportGroupMessage env message w)).
Proof.
  intros WF.
  destruct (handleSupportGroupMessage_frame message w)
    as (A & B & C & D & E & F).
  now apply (WellFormed_transport w).
Qed.

Lemma processUpdate_WellFormed update w :
  WellFormed w -> WellFormed (snd (processUpdate env update w)).
Proof.
  intros WF. destruct (Telegram.message update) as [message|] eqn:Hm.
  - rewrite (processUpdate_world env update message w Hm).
    rewrite handleIncomingMessage_dispatch.
    destruct (in_support_group w message).
    + now apply handleSupportGroupMessage_WellFormed.
    + now apply handleUserDirectMessage_WellFormed.
  - unfold processUpdate. rewrite Hm.
    now destruct (Telegram.edited_message update).
Qed.

(** Every reachable state is well formed. *)
Lemma reachable_WellFormed w : reachable env w -> WellFormed w.
Proof.
  induction 1 as [|update w _ IH|groupId w _ IH].
  - apply WellFormed_initial.
  - now apply processUpdate_WellFormed.
  - apply (WellFormed_transport w); try reflexivity. exact IH.
Qed.

End Reachable.

(** ** Users and conversations persist *)








Section Persistence.

Variable env : Telegram.Env.







End Persistence.

(** ** First contact and support issues, in reachable states *)







(** ** Forwarding text to the support group *)

Section TextForward.

Variable env : Telegram.Env.

Lemma truthy_nonempty s : s <> ""%string -> JS.truthy (Some s) = true.
Proof.
  intros H. simpl. now destruct (String.eqb_spec s ""%string).
Qed.




End TextForward.



(** ** Forwarding media *)

Lemma not_forwardable_no_media message :
  forwardable (getMediaType message) = false ->
  Telegram.photo message = None /\ Telegram.document message = None /\
  Telegram.video message = None.
Proof.
  unfold getMediaType.
  destruct (Telegram.photo message); [discriminate|].
  destruct (Telegram.document message); [discriminate|].
  destruct (Telegram.video message); [discriminate|].
  now intros _.
Qed.

(** One branch of a media forward: the file id is known and not empty,
    and the send resolved. *)
Ltac media_forward_case Hid Hrun Hne :=
  unfold ret in Hid; simpl in Hid; injection Hid as Hid;
  unfold bind, ret in Hrun; rewrite Hid in Hrun;
  rewrite (truthy_nonempty _ Hne) in Hrun;
  unfold bot_sendPhoto, bot_sendDocument, bot_sendVideo, bot_sendMedia in Hrun;
  match type of Hrun with
  | context [Telegram.sendMedia_answer ?e ?h ?c] =>
      destruct (Telegram.sendMedia_answer e h c); [|discriminate]
  end;
  injection Hrun as <-; eexists; split; [reflexivity|now split].

Section MediaForward.

Variable env : Telegram.Env.
Variable message : Telegram.Message.

Lemma getFileId_result w0 w :
  getFileId message w = (fst (getFileId message w0), w).
Proof.
  destruct (getFileId_pure message) as [o Ho]. now rewrite !Ho.
Qed.

Lemma forwardMediaToSupport_returned from groupId conversation f w w' :
  forwardable (getMediaType message) = true ->
  fst (getFileId message w) = Returned (Some f) ->
  f <> ""%string ->
  forwardMediaToSupport env message from groupId conversation w
  = (Returned tt, w') ->
  exists c,
    media_call (getMediaType message) (Telegram.ChatStr groupId) f
      (support_media_options message from conversation) = Some c /\
    storage w' = storage w /\
    outbox w' = outbox w ++ [Telegram.mkExchange c true].
Proof.
  intros Hfw Hid Hne Hrun.
  unfold forwardMediaToSupport, getFileId, getMediaType, has_media in *.
  fold (support_media_options message from conversation) in Hrun.
  destruct (Telegram.photo message) as [sizes|].
  { destruct (JS.last_elem sizes) as [size|]; [|discriminate].
    media_forward_case Hid Hrun Hne. }
  destruct (Telegram.document message) as [d|];
    [media_forward_case Hid Hrun Hne|].
  destruct (Telegram.video message) as [v|];
    [media_forward_case Hid Hrun Hne|].
  destruct (Telegram.audio message); [discriminate|].
  destruct (Telegram.voice message); discriminate.
Qed.

Lemma forwardMediaToUser_returned userTelegramId f w w' :
  forwardable (getMediaType message) = true ->
  fst (getFileId message w) = Returned (Some f) ->
  f <> ""%string ->
  forwardMediaToUser env message userTelegramId w = (Returned tt, w') ->
  exists c,
    media_call (getMediaType message) (Telegram.ChatStr userTelegramId) f
      (user_media_options message) = Some c /\
    storage w' = storage w /\
    outbox w' = outbox w ++ [Telegram.mkExchange c true].
Proof.
  intros Hfw Hid Hne Hrun.
  unfold forwardMediaToUser, getFileId, getMediaType, has_media in *.
  fold (user_media_options message) in Hrun.
  destruct (Telegram.photo message) as [sizes|].
  { destruct (JS.last_elem sizes) as [size|]; [|discriminate].
    media_forward_case Hid Hrun Hne. }
  destruct (Telegram.document message) as [d|];
    [media_forward_case Hid Hrun Hne|].
  destruct (Telegram.video message) as [v|];
    [media_forward_case Hid Hrun Hne|].
  destruct (Telegram.audio message); [discriminate|].
  destruct (Telegram.voice message); discriminate.
Qed.

End MediaForward.

Section NotForwardable.

Variable env : Telegram.Env.
Variable message : Telegram.Message.
Hypothesis not_forwardable : forwardable (getMediaType message) = false.

Let no_media_call : Telegram.Exchange -> Prop :=
  fun x => is_media_call (Telegram.call x) = false.

Lemma forwardMediaToSupport_idle from groupId conversation :
  respects (sends no_media_call)
    (forwardMediaToSupport env message from groupId conversation).
Proof.
  destruct (not_forwardable_no_media message not_forwardable) as (Hp & Hd & Hv).
  unfold forwardMediaToSupport. rewrite Hp, Hd, Hv. frames.
Qed.

Lemma forwardMediaToUser_idle userTelegramId :
  respects (sends no_media_call)
    (forwardMediaToUser env message userTelegramId).
Proof.
  destruct (not_forwardable_no_media message not_forwardable) as (Hp & Hd & Hv).
  unfold forwardMediaToUser. rewrite Hp, Hd, Hv. frames.
Qed.

#[local] Hint Resolve forwardMediaToSupport_idle forwardMediaToUser_idle
  : frames.

Lemma handleIncomingMessage_no_media_call :
  respects (sends no_media_call) (handleIncomingMessage env message).
Proof. unfold no_media_call. router_frames. Qed.

End NotForwardable.

Section StoredAndForwarded.

Variable env : Telegram.Env.
Variable message : Telegram.Message.

Lemma createMessage_run im w :
  exists m w',
    createMessage env im w = (Returned m, w') /\
    Message.mediaType m = InsertMessage.mediaType im /\
    Message.mediaUrl m = InsertMessage.mediaUrl im /\
    Message.senderType m = InsertMessage.senderType im /\
    Message.conversationId m = InsertMessage.conversationId im /\
    JS.Map_get (MemStorage.next_messages (the_ids w)) (the_messages w') = Some m.
Proof.
  unfold createMessage, bind, next_message_id, newDate, messages_set, modify,
    getConversation, gets, ret. simpl.
  destruct (JS.Map_get _ _) as [c|].
  - unfold updateConversation, getConversation, conversations_set, newDate,
      modify, bind, gets, ret. simpl.
    destruct (JS.Map_get _ _); (eexists; eexists; split; [reflexivity|]);
      simpl; repeat split; apply Map_get_set_same.
  - eexists. eexists. split; [reflexivity|]. simpl. repeat split.
    apply Map_get_set_same.
Qed.

Lemma storeUserMessage_returned from telegramId conversation m w w' :
  storeUserMessage env message from telegramId conversation w
  = (Returned m, w') ->
  JS.Map_get (MemStorage.next_messages (the_ids w)) (the_messages w') = Some m /\
  recorded_media message m /\
  Message.senderType m = "user"%string.
Proof.
  destruct (getFileId_pure message) as [o Ho].
  unfold storeUserMessage, getMediaUrl, insertMessageSchema_parse.
  unfold bind at 1. unfold bind at 1. rewrite Ho.
  destruct o as [mu|e]; [|discriminate].
  unfold ret at 1. unfold bind at 1. unfold ret at 1. intros Hrun.
  match type of Hrun with
  | createMessage _ ?im _ = _ =>
      destruct (createMessage_run im w)
        as (m' & w1 & E & Hmt & Hmu & Hst & _ & Hget)
  end.
  rewrite E in Hrun. injection Hrun as <- <-.
  split; [exact Hget|]. split; [|exact Hst].
  split; [exact Hmt|]. intros w0. rewrite Hmu. apply Ho.
Qed.

Lemma storeAdminMessage_returned from conversation m w w' :
  storeAdminMessage env message from conversation w = (Returned m, w') ->
  JS.Map_get (MemStorage.next_messages (the_ids w)) (the_messages w') = Some m /\
  recorded_media message m /\
  Message.senderType m = "admin"%string.
Proof.
  destruct (getFileId_pure message) as [o Ho].
  unfold storeAdminMessage, getMediaUrl, insertMessageSchema_parse.
  unfold bind at 1. unfold bind at 1. rewrite Ho.
  destruct o as [mu|e]; [|discriminate].
  unfold ret at 1. unfold bind at 1. unfold ret at 1. intros Hrun.
  match type of Hrun with
  | createMessage _ ?im _ = _ =>
      destruct (createMessage_run im w)
        as (m' & w1 & E & Hmt & Hmu & Hst & _ & Hget)
  end.
  rewrite E in Hrun. injection Hrun as <- <-.
  split; [exact Hget|]. split; [|exact Hst].
  split; [exact Hmt|]. intros w0. rewrite Hmu. apply Ho.
Qed.

(** A completed run of the user-direction handler, step by step. *)
Lemma handleUserDirectMessage_completed from w w' :
  Telegram.from message = Some from ->
  handleUserDirectMessage env message w = (Returned tt, w') ->
  exists user conversation m w3,
    JS.Map_get (MemStorage.next_messages (the_ids w)) (the_messages w3) = Some m /\
    recorded_media message m /\
    Message.senderType m = "user"%string /\
    supportGroupId w3 = supportGroupId w /\
    forwardToSupport env message from (JS.toString (Telegram.id from))
      user conversation w3 = (Returned tt, w').
Proof.
  intros Hfrom Hrun. unfold handleUserDirectMessage in Hrun.
  rewrite Hfrom in Hrun.
  destruct (bind_returned_inv _ _ _ _ _ Hrun) as (user & w1 & E1 & H1).
  destruct (bind_returned_inv _ _ _ _ _ H1) as (conv & w2 & E2 & H2).
  destruct (bind_returned_inv _ _ _ _ _ H2) as (m & w3 & E3 & H3).
  exists user, conv, m, w3.
  destruct (storeUserMessage_returned _ _ _ _ _ _ E3) as (Hget & Hrec & Hst).
  assert (F1 : respects
                 (both (same supportGroupId)
                    (same (fun w => MemStorage.next_messages (the_ids w))))
                 (getOrCreateUser env message from
                    (JS.toString (Telegram.id from))))
    by (repeat apply respects_both; router_frames).
  assert (F2 : respects
                 (both (same supportGroupId)
                    (same (fun w => MemStorage.next_messages (the_ids w))))
                 (getOrCreateConversation env (JS.toString (Telegram.id from))))
    by (repeat apply respects_both; router_frames).
  assert (F3 : respects (same supportGroupId)
                 (storeUserMessage env message from
                    (JS.toString (Telegram.id from)) conv))
    by router_frames.
  destruct (respects_run _ _ _ _ _ F1 E1) as [S1 N1].
  destruct (respects_run _ _ _ _ _ F2 E2) as [S2 N2].
  pose proof (respects_run _ _ _ _ _ F3 E3) as S3.
  unfold same in S1, N1, S2, N2, S3.
  split; [now rewrite <- N1, <- N2|]. split; [exact Hrec|].
  split; [exact Hst|]. split; [congruence|exact H3].
Qed.

Lemma forwardToSupport_messages from telegramId user conversation :
  respects (same the_messages)
    (forwardToSupport env message from telegramId user conversation).
Proof. router_frames. Qed.

Lemma forwardToSupport_media from telegramId user conversation groupId f w w' :
  supportGroupId w = Some groupId ->
  groupId <> ""%string ->
  forwardable (getMediaType message) = true ->
  fst (getFileId message w) = Returned (Some f) ->
  f <> ""%string ->
  forwardToSupport env message from telegramId user conversation w
  = (Returned tt, w') ->
  exists before conversation' c,
    media_call (getMediaType message) (Telegram.ChatStr groupId) f
      (support_media_options message from conversation') = Some c /\
    outbox w' = before ++ [Telegram.mkExchange c true].
Proof.
  intros Hg Hgne Hfw Hid Hne Hrun.
  destruct (forwardToSupport_inv env _ _ _ _ _ _ _ _ Hrun)
    as [(Hnone & _)|(g & Hg' & _ & Hthread)].
  { rewrite Hg in Hnone. now rewrite (truthy_nonempty _ Hgne) in Hnone. }
  rewrite Hg in Hg'. injection Hg' as <-.
  destruct Hthread as [(e & _ & He)|(c' & w4 & _ & Hrest)]; [discriminate|].
  destruct (bind_returned_inv _ _ _ _ _ Hrest) as ([] & w5 & _ & E6).
  rewrite (getFileId_result message w5 w) in Hid. simpl in Hid.
  destruct (forwardMediaToSupport_returned env message from groupId c' f w5 w'
              Hfw Hid Hne E6) as (c & Hc & _ & Hout).
  now exists (outbox w5), c', c.
Qed.

End StoredAndForwarded.

Section SupportDirection.

Variable env : Telegram.Env.
Variable message : Telegram.Message.

(** A completed run of the support-direction handler on a reply to a
    tracked thread. *)
Lemma handleSupportGroupMessage_completed from reply conversation w w' :
  Telegram.from message = Some from ->
  Telegram.reply_to_message message = Some reply ->
  fst (getConversationByThreadId
         (JS.toString (Telegram.reply_message_id reply)) w)
  = Returned (Some conversation) ->
  handleSupportGroupMessage env message w = (Returned tt, w') ->
  (exists m,
     JS.Map_get (MemStorage.next_messages (the_ids w)) (the_messages w') = Some m /\
     recorded_media message m /\
     Message.senderType m = "admin"%string) /\
  (forall f,
     forwardable (getMediaType message) = true ->
     fst (getFileId message w) = Returned (Some f) ->
     f <> ""%string ->
     exists before c,
       media_call (getMediaType message)
         (Telegram.ChatStr (Conversation.telegramUserId conversation)) f
         (user_media_options message) = Some c /\
       outbox w' = before ++ [Telegram.mkExchange c true]).
Proof.
  intros Hfrom Hreply Hconv Hrun.
  unfold handleSupportGroupMessage in Hrun. rewrite Hfrom, Hreply in Hrun.
  unfold bind at 1 in Hrun.
  unfold getConversationByThreadId, gets in Hconv, Hrun. simpl in Hconv.
  injection Hconv as Hconv. rewrite Hconv in Hrun.
  destruct (bind_returned_inv _ _ _ _ _ Hrun) as (m & w3 & E3 & H3).
  destruct (bind_returned_inv _ _ _ _ _ H3) as ([] & w4 & E4 & E5).
  destruct (storeAdminMessage_returned env message _ _ _ _ _ E3)
    as (Hget & Hrec & Hst).
  assert (F4 : respects (same the_messages)
                 (forwardTextToUser env message
                    (Conversation.telegramUserId conversation)))
    by router_frames.
  assert (F5 : respects (same the_messages)
                 (forwardMediaToUser env message
                    (Conversation.telegramUserId conversation)))
    by router_frames.
  pose proof (respects_run _ _ _ _ _ F4 E4) as M4.
  pose proof (respects_run _ _ _ _ _ F5 E5) as M5.
  unfold same in M4, M5.
  split.
  - exists m. split; [congruence|]. now split.
  - intros f Hfw Hid Hne.
    rewrite (getFileId_result message w4 w) in Hid. simpl in Hid.
    destruct (forwardMediaToUser_returned env message _ f w4 w' Hfw Hid Hne E5)
      as (c & Hc & _ & Hout).
    now exists (outbox w4), c.
Qed.

End SupportDirection.

(** C7. Audio and voice are stored, not relayed; photo, document and
    video are relayed.  For one inbound message, in either direction:
    - every Message the event stores records the media kind and the file
      reference of the inbound message;
    - when the kind is not forwardable (audio, voice, or no media) no
      media call is made;
    - when the kind is forwardable, the file reference is not empty and
      the handler runs to its end, the media is sent to the other side
      by the call of that kind: to the support group for an end user's
      message when a group is configured, to the conversation's user for
      a reply in the support group;
    - a handler that runs to its end has stored the Message. *)
Theorem audio_and_voice_stored_but_not_forwarded
    (env : Telegram.Env) (message : Telegram.Message) (w : World) :
  let w' := snd (handleIncomingMessage env message w) in
  (forwardable (Some "photo"%string) = true /\
   forwardable (Some "document"%string) = true /\
   forwardable (Some "video"%string) = true /\
   forwardable (Some "audio"%string) = false /\
   forwardable (Some "voice"%string) = false) /\
  (forall k m,
     JS.Map_get k (the_messages w') = Some m ->
     JS.Map_get k (the_messages w) = Some m \/ recorded_media message m) /\
  (forwardable (getMediaType message) = false ->
   Forall (fun x => is_media_call (Telegram.call x) = false) (sent_since w w')) /\
  (forall from,
     Telegram.from message = Some from ->
     in_support_group w message = false ->
     fst (handleIncomingMessage env message w) = Returned tt ->
     (exists m,
        JS.Map_get (MemStorage.next_messages (the_ids w)) (the_messages w')
        = Some m /\
        recorded_media message m /\ Message.senderType m = "user"%string) /\
     (forall groupId f,
        supportGroupId w = Some groupId -> groupId <> ""%string ->
        forwardable (getMediaType message) = true ->
        fst (getFileId message w) = Returned (Some f) -> f <> ""%string ->
        exists before conversation c,
          media_call (getMediaType message) (Telegram.ChatStr groupId) f
            (support_media_options message from conversation) = Some c /\
          outbox w' = before ++ [Telegram.mkExchange c true])) /\
  (forall from reply conversation,
     Telegram.from message = Some from ->
     Telegram.reply_to_message message = Some reply ->
     in_support_group w message = true ->
     fst (getConversationByThreadId
            (JS.toString (Telegram.reply_message_id reply)) w)
     = Returned (Some conversation) ->
     fst (handleIncomingMessage env message w) = Returned tt ->
     (exists m,
        JS.Map_get (MemStorage.next_messages (the_ids w)) (the_messages w')
        = Some m /\
        recorded_media message m /\ Message.senderType m = "admin"%string) /\
     (forall f,
        forwardable (getMediaType message) = true ->
        fst (getFileId message w) = Returned (Some f) -> f <> ""%string ->
        exists before c,
          media_call (getMediaType message)
            (Telegram.ChatStr (Conversation.telegramUserId conversation)) f
            (user_media_options message) = Some c /\
          outbox w' = before ++ [Telegram.mkExchange c true])).
Proof.
  intros w'. split; [now repeat split|]. split.
  { apply (handleIncomingMessage_stores env message w). }
  split.
  { intros Hnf.
    apply (sends_sent_since _ w w'
             (handleIncomingMessage_no_media_call env message Hnf w)). }
  subst w'. rewrite handleIncomingMessage_dispatch. split.
  - intros from Hfrom Hdir Hdone. rewrite Hdir in *.
    destruct (handleUserDirectMessage env message w) as [o w'] eqn:Hrun.
    simpl in Hdone. subst o. simpl.
    destruct (handleUserDirectMessage_completed env message from w w' Hfrom Hrun)
      as (user & conv & m & w3 & Hget & Hrec & Hst & Hsg & Hfwd).
    split.
    + exists m. split; [|now split].
      pose proof (respects_run _ _ _ _ _
                    (forwardToSupport_messages env message from _ user conv)
                    Hfwd) as Hm.
      unfold same in Hm. now rewrite Hm.
    + intros groupId f Hg Hgne Hfw Hid Hne.
      rewrite <- Hsg in Hg.
      rewrite (getFileId_result message w3 w) in Hid. simpl in Hid.
      apply (forwardToSupport_media env message from _ user conv groupId f w3 w'
               Hg Hgne Hfw Hid Hne Hfwd).
  - intros from reply conv Hfrom Hreply Hdir Hconv Hdone. rewrite Hdir in *.
    destruct (handleSupportGroupMessage env message w) as [o w'] eqn:Hrun.
    simpl in Hdone. subst o. simpl.
    apply (handleSupportGroupMessage_completed env message from reply conv w w'
             Hfrom Hreply Hconv Hrun).
Qed.

Lemma voice_note_not_forwarded_witness :
  Forall (fun x => is_media_call (Telegram.call x) = false)
    (sent_since Examples.support_world
       (snd (handleIncomingMessage Examples.ok_env Examples.msg_voice
               Examples.support_world))).
Proof.
  apply (audio_and_voice_stored_but_not_forwarded Examples.ok_env
           Examples.msg_voice Examples.support_world).
  reflexivity.
Defined.

(** A voice note is stored with its kind and file reference and nothing
    is relayed; a photo that also carries a document is relayed as a
    photo, by its largest size. *)
Lemma media_examples :
  let voice := snd (handleIncomingMessage Examples.ok_env Examples.msg_voice
                      Examples.support_world) in
  let photo := snd (handleIncomingMessage Examples.ok_env
                      Examples.msg_photo_and_document Examples.support_world) in
  option_map (fun m => (Message.mediaType m, Message.mediaUrl m))
    (JS.Map_get 1 (the_messages voice))
  = Some (Some "voice"%string, Some "ogg"%string) /\
  filter (fun x => is_media_call (Telegram.call x))
    (sent_since Examples.support_world voice) = [] /\
  filter (fun x => is_media_call (Telegram.call x))
    (sent_since Examples.support_world photo)
  = [Telegram.mkExchange
       (Telegram.SendPhoto (Telegram.ChatStr "-100") "large"
          (Telegram.mkOptions (Some "<b>Alice:</b> see"%string)
             (Some (JS.Num 502)) (Some "HTML"%string)))
       true] /\
  sent_since Examples.after_help
    (snd (handleIncomingMessage Examples.ok_env Examples.admin_photo_reply
            Examples.after_help))
  = [Telegram.mkExchange
       (Telegram.SendPhoto (Telegram.ChatStr "111") "full"
          (Telegram.mkOptions (Some "look"%string) None None))
       true].
Proof. vm_compute. repeat split. Qed.

(** ** The scenario of the specification *)

(** Alice (external id 111) writes "help" with no prior history: user 1
    and conversation 1 are created, message 1 is stored, the welcome is
    sent, the introduction is posted, the topic is created and issue 1
    is pending.  A reply "On it" to the thread stores message 2 as
    "admin" and sends the text to chat "111". *)
Lemma alice_scenario :
  let w1 := snd (processUpdate Examples.ok_env
                   (Telegram.mkUpdate 1 (Some Examples.msg_help) None None None)
                   Examples.support_world) in
  let w2 := snd (processUpdate Examples.ok_env
                   (Telegram.mkUpdate 2 (Some Examples.admin_reply) None None None)
                   w1) in
  option_map User.firstName (JS.Map_get 1 (the_users w1)) = Some "Alice"%string /\
  option_map conversation_core (JS.Map_get 1 (the_conversations w1))
  = Some (mkCore 1 "111" (Some "502"%string) "open" 1001) /\
  option_map Message.senderType (JS.Map_get 1 (the_messages w1))
  = Some "user"%string /\
  option_map SupportIssue.status (JS.Map_get 1 (the_issues w1))
  = Some "pending"%string /\
  map is_welcome_call (sent_since Examples.support_world w1)
  = [true; false; false; false; false] /\
  topic_outcomes (sent_since Examples.support_world w1) = [true] /\
  option_map (fun m => (Message.senderType m, Message.content m))
    (JS.Map_get 2 (the_messages w2))
  = Some ("admin"%string, Some "On it"%string) /\
  sent_since w1 w2
  = [Telegram.mkExchange
       (Telegram.SendMessage (Telegram.ChatStr "111") "On it" None) true].
Proof. vm_compute. repeat split. Qed.

(** ** Identifiers of new users *)

(** In a well-formed store the identifier [createUser] assigns is
    greater than every identifier in use, and the next one is greater
    still. *)
Lemma createUser_fresh_identifier env insertUser w :
  WellFormed w ->
  exists u w',
    createUser env insertUser w = (Returned u, w') /\
    (forall k, In k (user_keys w) -> k < User.id u) /\
    user_keys w' = user_keys w ++ [User.id u] /\
    JS.Map_get (User.id u) (the_users w') = Some u /\
    User.joinedAt u = Telegram.clock env (ticks w) /\
    User.id u < MemStorage.next_users (the_ids w').
Proof.
  intros WF.
  destruct (createUser_run env insertUser w)
    as (u & w' & E & Hid & _ & Hj & Hu & Hn & _).
  exists u, w'. split; [exact E|]. split; [|split; [|split; [|split]]].
  - intros k Hk. rewrite Hid. rewrite <- user_index_keys in Hk.
    now apply (wf_user_keys w WF).
  - unfold user_keys. rewrite Hu, Map_set_fresh.
    + now rewrite Map_keys_app.
    + rewrite Hid. apply (fresh_user_key w WF).
  - rewrite Hu. apply Map_get_set_same.
  - exact Hj.
  - rewrite Hn, Hid. lia.
Qed.

(** * Further properties of the store, the router and the routes *)

(** ** Printing and reading integers *)

Ltac digit_step :=
  cbn [JS.parse_digits];
  match goal with
  | |- context [JS.digit_value 10 ?c] =>
      let v := eval vm_compute in (JS.digit_value 10 c) in
      change (JS.digit_value 10 c) with v
  end;
  cbv beta iota.

Lemma parse_digits_acc d acc :
  JS.parse_digits 10 (Some (Z.pos acc)) (NilEmpty.string_of_uint d)
  = Some (Z.pos (Pos.of_uint_acc d acc)).
Proof.
  revert acc.
  induction d; intros acc; cbn [NilEmpty.string_of_uint Pos.of_uint_acc];
    [reflexivity|..];
    rewrite <- IHd; digit_step; do 2 f_equal; lia.
Qed.

Lemma parse_digits_zero d :
  JS.parse_digits 10 (Some 0) (NilEmpty.string_of_uint d)
  = Some (Z.of_N (Pos.of_uint d)).
Proof.
  induction d; cbn [NilEmpty.string_of_uint Pos.of_uint]; [reflexivity|..];
    digit_step; [exact IHd|..]; apply parse_digits_acc.
Qed.

Lemma parse_digits_start d :
  d <> Decimal.Nil ->
  JS.parse_digits 10 None (NilEmpty.string_of_uint d)
  = JS.parse_digits 10 (Some 0) (NilEmpty.string_of_uint d).
Proof.
  intros H. destruct d; [contradiction|..];
    cbn [NilEmpty.string_of_uint]; digit_step; reflexivity.
Qed.

Ltac parseInt_step E :=
  unfold JS.parseInt;
  cbn [NilEmpty.string_of_uint JS.trim_start] in E |- *;
  repeat match goal with
  | |- context [JS.is_space ?c] =>
      let v := eval vm_compute in (JS.is_space c) in
      change (JS.is_space c) with v
  end;
  cbv beta iota zeta; rewrite E; reflexivity.

Lemma parseInt_digits d :
  d <> Decimal.Nil ->
  JS.parseInt (NilEmpty.string_of_uint d) = JS.Num (Z.of_N (Pos.of_uint d)) /\
  JS.parseInt (String "-" (NilEmpty.string_of_uint d))
  = JS.Num (- Z.of_N (Pos.of_uint d)).
Proof.
  intros H.
  assert (E := parse_digits_zero d). rewrite <- (parse_digits_start d H) in E.
  destruct d as [|d|d|d|d|d|d|d|d|d|d]; [contradiction|..];
    try (split; parseInt_step E).
  destruct d; split; parseInt_step E.
Qed.

Lemma to_uint_digits p : Pos.to_uint p <> Decimal.Nil.
Proof.
  intros H. assert (E := DecimalPos.Unsigned.of_to p). rewrite H in E. discriminate.
Qed.

Lemma parseInt_toString n : JS.parseInt (JS.toString n) = JS.Num n.
Proof.
  destruct n as [|p|p]; [reflexivity|..]; unfold JS.toString; simpl Z.to_int;
    unfold NilZero.string_of_int, NilZero.string_of_uint;
    destruct (parseInt_digits (Pos.to_uint p) (to_uint_digits p)) as [E1 E2];
    rewrite (DecimalPos.Unsigned.of_to p) in E1, E2;
    destruct (Pos.to_uint p) eqn:Ep; try exact E1; try exact E2;
    now destruct (to_uint_digits p).
Qed.

(** ** Lookups after an insertion *)

Lemma find_app_one {A} (p : A -> bool) (l : list A) (x : A) :
  find p (l ++ [x])
  = match find p l with
    | Some y => Some y
    | None => if p x then Some x else None
    end.
Proof.
  destruct (find p l) as [y|] eqn:E.
  - now apply find_app_first.
  - now apply find_app_last.
Qed.

Lemma Map_get_set {V} k k' (v : V) m :
  JS.Map_get k' (JS.Map_set k v m)
  = if k' =? k then Some v else JS.Map_get k' m.
Proof.
  destruct (Z.eqb_spec k' k) as [->|Hne].
  - apply Map_get_set_same.
  - apply Map_get_set_other. congruence.
Qed.

Lemma find_Map_set_only {V} (p : V -> bool) k v m :
  In k (JS.Map_keys m) ->
  (forall x, In x (JS.Map_values m) -> p x = false) ->
  p v = true ->
  find p (JS.Map_values (JS.Map_set k v m)) = Some v.
Proof.
  intros Hin Hall Hv.
  induction m as [|[k0 x0] m IH]; simpl in *; [contradiction|].
  destruct (Z.eqb_spec k0 k) as [->|Hne]; simpl.
  - now rewrite Hv.
  - rewrite (Hall x0 (or_introl eq_refl)). apply IH.
    + destruct Hin as [H|H]; [contradiction|exact H].
    + intros x Hx. apply Hall. now right.
Qed.

Section StoreRoundTrips.

Variable env : Telegram.Env.

(** X1. [createUser] never fails: it files the record under the next
    identifier, stamped with the current time.  When the identifiers in
    use are below the counter, the record is found again by its id, the
    other ids read as before, and a lookup by external id returns the
    earliest user with that external id: the new record only if there
    was none. *)
Theorem createUser_then_lookup insertUser w :
  (forall k, In k (user_keys w) -> k < MemStorage.next_users (the_ids w)) ->
  exists u w',
    createUser env insertUser w = (Returned u, w') /\
    User.id u = MemStorage.next_users (the_ids w) /\
    User.joinedAt u = Telegram.clock env (ticks w) /\
    getUser (User.id u) w' = (Returned (Some u), w') /\
    (forall id, id <> User.id u -> fst (getUser id w') = fst (getUser id w)) /\
    (forall telegramId,
       getUserByTelegramId telegramId w'
       = (Returned
            match fst (getUserByTelegramId telegramId w) with
            | Returned (Some earlier) => Some earlier
            | _ =>
                if (InsertUser.telegramId insertUser =? telegramId)%string
                then Some u else None
            end, w')).
Proof.
  intros Hfresh.
  destruct (createUser_run env insertUser w)
    as (u & w' & Hrun & Hid & Htid & Hj & Hu & _).
  exists u, w'. split; [exact Hrun|]. split; [exact Hid|]. split; [exact Hj|].
  unfold the_users in Hu.
  split; [|split].
  - unfold getUser, gets. now rewrite Hu, Map_get_set_same.
  - intros id Hne. unfold getUser, gets. simpl. rewrite Hu.
    rewrite Map_get_set_other; [reflexivity|congruence].
  - intros telegramId. unfold getUserByTelegramId, gets, user_of, the_users.
    rewrite Hu, Map_set_fresh.
    + rewrite Map_values_app. change (JS.Map_values [(User.id u, u)]) with [u].
      rewrite find_app_one, Htid.
      destruct (find _ (JS.Map_values (MemStorage.users (storage w))));
        reflexivity.
    + intros Hin. apply Hfresh in Hin. lia.
Qed.


(** X2. [createConversation] files the record under the next
    identifier, created and last active now, and it is found again by
    its id.  A lookup by owner returns the earliest conversation of that
    owner: a second conversation for the same owner is never the one
    that is picked. *)
Theorem createConversation_then_lookup insertConversation w :
  (forall k, In k (conversation_keys w) ->
             k < MemStorage.next_conversations (the_ids w)) ->
  exists c w',
    createConversation env insertConversation w = (Returned c, w') /\
    Conversation.id c = MemStorage.next_conversations (the_ids w) /\
    Conversation.createdAt c = Telegram.clock env (ticks w) /\
    Conversation.lastMessageAt c = Telegram.clock env (ticks w) /\
    getConversation (Conversation.id c) w' = (Returned (Some c), w') /\
    (forall id, id <> Conversation.id c ->
                fst (getConversation id w') = fst (getConversation id w)) /\
    (forall telegramUserId,
       getConversationByTelegramUserId telegramUserId w'
       = (Returned
            match fst (getConversationByTelegramUserId telegramUserId w) with
            | Returned (Some earlier) => Some earlier
            | _ =>
                if (InsertConversation.telegramUserId insertConversation
                    =? telegramUserId)%string
                then Some c else None
            end, w')).
Proof.
  intros Hfresh.
  unfold createConversation, bind, next_conversation_id, newDate,
    conversations_set, modify, ret.
  eexists. eexists. split; [reflexivity|]. simpl.
  split; [reflexivity|]. split; [reflexivity|]. split; [reflexivity|].
  split; [|split].
  - unfold getConversation, gets. simpl. now rewrite Map_get_set_same.
  - intros id Hne. unfold getConversation, gets. simpl.
    rewrite Map_get_set_other; [reflexivity|congruence].
  - intros telegramUserId. unfold getConversationByTelegramUserId, gets. simpl.
    rewrite Map_set_fresh.
    + rewrite Map_values_app.
      match goal with
      | |- context [JS.Map_values [(?k, ?v)]] =>
          change (JS.Map_values [(k, v)]) with [v]
      end.
      rewrite find_app_one.
      destruct (find _ (JS.Map_values (MemStorage.conversations (storage w))));
        reflexivity.
    + intros Hin. apply Hfresh in Hin. unfold the_ids in Hin. lia.
Qed.

(** X3. [createSupportIssue] opens the issue now, with no closing time,
    and it is found again by its id.  A lookup by conversation returns
    the earliest issue of that conversation. *)
Theorem createSupportIssue_then_lookup insertIssue w :
  (forall k, In k (JS.Map_keys (the_issues w)) ->
             k < MemStorage.next_supportIssues (the_ids w)) ->
  exists issue w',
    createSupportIssue env insertIssue w = (Returned issue, w') /\
    SupportIssue.id issue = MemStorage.next_supportIssues (the_ids w) /\
    SupportIssue.openedAt issue = Telegram.clock env (ticks w) /\
    SupportIssue.closedAt issue = None /\
    getSupportIssue (SupportIssue.id issue) w' = (Returned (Some issue), w') /\
    (forall id, id <> SupportIssue.id issue ->
                fst (getSupportIssue id w') = fst (getSupportIssue id w)) /\
    (forall conversationId,
       getSupportIssueByConversationId conversationId w'
       = (Returned
            match fst (getSupportIssueByConversationId conversationId w) with
            | Returned (Some earlier) => Some earlier
            | _ =>
                if InsertSupportIssue.conversationId insertIssue =? conversationId
                then Some issue else None
            end, w')).
Proof.
  intros Hfresh.
  unfold createSupportIssue, bind, next_supportIssue_id, newDate,
    supportIssues_set, modify, ret.
  eexists. eexists. split; [reflexivity|]. simpl.
  split; [reflexivity|]. split; [reflexivity|]. split; [reflexivity|].
  split; [|split].
  - unfold getSupportIssue, gets. simpl. now rewrite Map_get_set_same.
  - intros id Hne. unfold getSupportIssue, gets. simpl.
    rewrite Map_get_set_other; [reflexivity|congruence].
  - intros conversationId. unfold getSupportIssueByConversationId, gets. simpl.
    rewrite Map_set_fresh.
    + rewrite Map_values_app.
      match goal with
      | |- context [JS.Map_values [(?k, ?v)]] =>
          change (JS.Map_values [(k, v)]) with [v]
      end.
      rewrite find_app_one.
      destruct (find _ (JS.Map_values (MemStorage.supportIssues (storage w))));
        reflexivity.
    + intros Hin. apply Hfresh in Hin. unfold the_ids in Hin. lia.
Qed.


(** X4. [createMessage] never fails and checks no reference: the message
    is stored under the next identifier whether or not its conversation
    exists.  When conversations are filed under their own id, the
    conversation of the message, if any, gets the time of a second clock
    reading as last activity and keeps every other field; all other
    conversations, the users and the issues are as before. *)
Theorem createMessage_stores_and_refreshes insertMessage w :
  (forall k c, JS.Map_get k (the_conversations w) = Some c ->
               Conversation.id c = k) ->
  let m :=
    Message.mk (MemStorage.next_messages (the_ids w))
      (InsertMessage.conversationId insertMessage)
      (InsertMessage.telegramMessageId insertMessage)
      (InsertMessage.senderId insertMessage)
      (InsertMessage.senderType insertMessage)
      (InsertMessage.senderName insertMessage)
      (InsertMessage.content insertMessage)
      (InsertMessage.mediaType insertMessage)
      (InsertMessage.mediaUrl insertMessage)
      (Telegram.clock env (ticks w)) in
  exists w',
    createMessage env insertMessage w = (Returned m, w') /\
    getMessage (Message.id m) w' = (Returned (Some m), w') /\
    (forall id, id <> Message.id m ->
                fst (getMessage id w') = fst (getMessage id w)) /\
    (forall id,
       fst (getConversation id w')
       = match fst (getConversation id w) with
         | Returned (Some c) =>
             Returned
               (Some (if id =? InsertMessage.conversationId insertMessage
                      then Conversation.mk (Conversation.id c)
                             (Conversation.telegramUserId c)
                             (Conversation.threadId c)
                             (Conversation.status c)
                             (Telegram.clock env (S (ticks w)))
                             (Conversation.createdAt c)
                      else c))
         | other => other
         end) /\
    the_users w' = the_users w /\
    the_issues w' = the_issues w.
Proof.
  intros Hids m.
  unfold createMessage, getMessage, bind, next_message_id, newDate,
    messages_set, modify, getConversation, gets, ret. simpl.
  destruct (JS.Map_get (InsertMessage.conversationId insertMessage)
              (MemStorage.conversations (storage w))) as [c|] eqn:Ec.
  - assert (Hc := Hids _ _ Ec).
    unfold updateConversation, getConversation, conversations_set, newDate,
      modify, bind, gets, ret. simpl. rewrite Hc, Ec.
    eexists. split; [reflexivity|]. simpl.
    split; [now rewrite Map_get_set_same|].
    split; [intros id Hne; unfold m in Hne; simpl in Hne;
            rewrite Map_get_set_other; [reflexivity|exact Hne]|].
    split; [|split; reflexivity].
    intros id. rewrite Map_get_set.
    destruct (Z.eqb_spec id (InsertMessage.conversationId insertMessage))
      as [->|Hne].
    + now rewrite Ec.
    + destruct (JS.Map_get id _); reflexivity.
  - eexists. split; [reflexivity|]. simpl.
    split; [now rewrite Map_get_set_same|].
    split; [intros id Hne; unfold m in Hne; simpl in Hne;
            rewrite Map_get_set_other; [reflexivity|exact Hne]|].
    split; [|split; reflexivity].
    intros id.
    destruct (JS.Map_get id _) as [c|] eqn:E; [|reflexivity].
    destruct (Z.eqb_spec id (InsertMessage.conversationId insertMessage))
      as [->|Hne]; [congruence|reflexivity].
Qed.

(** X5. [updateUser] on an id that is not stored returns [undefined] and
    changes nothing.  On a stored id it returns and stores the merge,
    which keeps the id and the joining time; the other users, the keys,
    the counters and the other collections are as before. *)
Theorem updateUser_merges_or_misses id updates w :
  match fst (getUser id w) with
  | Returned (Some user) =>
      let updated := merge_user user updates in
      exists w',
        updateUser id updates w = (Returned (Some updated), w') /\
        User.id updated = User.id user /\
        User.joinedAt updated = User.joinedAt user /\
        getUser id w' = (Returned (Some updated), w') /\
        (forall other, other <> id ->
                       fst (getUser other w') = fst (getUser other w)) /\
        user_keys w' = user_keys w /\
        the_ids w' = the_ids w /\
        the_conversations w' = the_conversations w /\
        the_messages w' = the_messages w /\
        the_issues w' = the_issues w
  | _ => updateUser id updates w = (Returned None, w)
  end.
Proof.
  change (fst (getUser id w))
    with (Returned (JS.Map_get id (MemStorage.users (storage w)))).
  unfold updateUser, getUser, bind, gets, users_set, modify, ret.
  destruct (JS.Map_get id (MemStorage.users (storage w))) as [user|] eqn:E;
    [|reflexivity].
  eexists. split; [reflexivity|]. simpl.
  split; [reflexivity|]. split; [reflexivity|].
  split; [now rewrite Map_get_set_same|].
  split; [intros other Hne; rewrite Map_get_set_other; [reflexivity|congruence]|].
  split; [|repeat split].
  unfold user_keys, the_users. simpl. apply Map_set_keys_present.
  eapply Map_get_key. exact E.
Qed.

(** X6. [updateSupportIssue] on an id that is not stored returns
    [undefined] and changes nothing.  On a stored id it returns and
    stores the merge, which keeps the id, the opening time and the
    closing time: no update through this method closes an issue. *)
Theorem updateSupportIssue_merges_or_misses id updates w :
  match fst (getSupportIssue id w) with
  | Returned (Some issue) =>
      let updated := merge_issue issue updates in
      exists w',
        updateSupportIssue id updates w = (Returned (Some updated), w') /\
        SupportIssue.id updated = SupportIssue.id issue /\
        SupportIssue.openedAt updated = SupportIssue.openedAt issue /\
        SupportIssue.closedAt updated = SupportIssue.closedAt issue /\
        getSupportIssue id w' = (Returned (Some updated), w') /\
        (forall other, other <> id ->
           fst (getSupportIssue other w') = fst (getSupportIssue other w)) /\
        JS.Map_keys (the_issues w') = JS.Map_keys (the_issues w) /\
        the_ids w' = the_ids w /\
        the_users w' = the_users w /\
        the_conversations w' = the_conversations w /\
        the_messages w' = the_messages w
  | _ => updateSupportIssue id updates w = (Returned None, w)
  end.
Proof.
  change (fst (getSupportIssue id w))
    with (Returned (JS.Map_get id (MemStorage.supportIssues (storage w)))).
  unfold updateSupportIssue, getSupportIssue, bind, gets, supportIssues_set,
    modify, ret.
  destruct (JS.Map_get id (MemStorage.supportIssues (storage w)))
    as [issue|] eqn:E; [|reflexivity].
  eexists. split; [reflexivity|]. simpl.
  split; [reflexivity|]. split; [reflexivity|]. split; [reflexivity|].
  split; [now rewrite Map_get_set_same|].
  split; [intros other Hne; rewrite Map_get_set_other; [reflexivity|congruence]|].
  split; [|repeat split].
  unfold the_issues. simpl. apply Map_set_keys_present.
  eapply Map_get_key. exact E.
Qed.

(** X7. Setting the thread reference of a stored conversation: the
    update is returned and stored with the current time as last
    activity, and when no conversation had that reference the lookup by
    thread now returns this conversation.  The keys and the owners are
    as before. *)
Theorem updateConversation_thread_then_lookup id thread w c :
  JS.Map_get id (the_conversations w) = Some c ->
  (forall other, In other (JS.Map_values (the_conversations w)) ->
                 Conversation.threadId other <> Some thread) ->
  let updated :=
    Conversation.mk (Conversation.id c) (Conversation.telegramUserId c)
      (Some thread) (Conversation.status c)
      (Telegram.clock env (ticks w)) (Conversation.createdAt c) in
  exists w',
    updateConversation env id
      (InsertConversation.mk_partial None (Some (Some thread)) None) w
    = (Returned (Some updated), w') /\
    getConversation id w' = (Returned (Some updated), w') /\
    getConversationByThreadId thread w' = (Returned (Some updated), w') /\
    conversation_keys w' = conversation_keys w /\
    conversation_owner_index w' = conversation_owner_index w.
Proof.
  intros Hc Hfree updated.
  destruct (updateConversation_run env id
              (InsertConversation.mk_partial None (Some (Some thread)) None) w c Hc)
    as (w' & Hrun & Hcs & _).
  exists w'. split; [exact Hrun|].
  change (merge_conversation c
            (InsertConversation.mk_partial None (Some (Some thread)) None)
            (Telegram.clock env (ticks w))) with updated in Hcs.
  unfold the_conversations in Hcs.
  split; [|split; [|split]].
  - unfold getConversation, gets. now rewrite Hcs, Map_get_set_same.
  - unfold getConversationByThreadId, gets. rewrite Hcs. f_equal. f_equal.
    apply find_Map_set_only.
    + eapply Map_get_key. exact Hc.
    + intros x Hx. specialize (Hfree x Hx).
      destruct (Conversation.threadId x) as [t|]; [|reflexivity].
      apply String.eqb_neq. congruence.
    + simpl. apply String.eqb_refl.
  - unfold conversation_keys, the_conversations. rewrite Hcs.
    apply Map_set_keys_present. eapply Map_get_key. exact Hc.
  - unfold conversation_owner_index, the_conversations. rewrite Hcs.
    now apply (Map_view_set_same Conversation.telegramUserId id c).
Qed.

End StoreRoundTrips.

Lemma createUser_then_lookup_witness :
  exists u w',
    createUser Examples.ok_env Examples.alice_insert Examples.after_help
    = (Returned u, w') /\
    User.id u = MemStorage.next_users (the_ids Examples.after_help) /\
    User.joinedAt u
    = Telegram.clock Examples.ok_env (ticks Examples.after_help) /\
    getUser (User.id u) w' = (Returned (Some u), w') /\
    (forall id, id <> User.id u ->
                fst (getUser id w') = fst (getUser id Examples.after_help)) /\
    (forall telegramId,
       getUserByTelegramId telegramId w'
       = (Returned
            match fst (getUserByTelegramId telegramId Examples.after_help) with
            | Returned (Some earlier) => Some earlier
            | _ =>
                if (InsertUser.telegramId Examples.alice_insert
                    =? telegramId)%string
                then Some u else None
            end, w')).
Proof.
  apply (createUser_then_lookup Examples.ok_env Examples.alice_insert
           Examples.after_help).
  vm_compute. intros k [<-|[]]. reflexivity.
Defined.

Lemma createConversation_then_lookup_witness :
  exists c w',
    createConversation Examples.ok_env
      (InsertConversation.mk "111" None "open") Examples.after_help
    = (Returned c, w') /\
    Conversation.id c
    = MemStorage.next_conversations (the_ids Examples.after_help) /\
    Conversation.createdAt c
    = Telegram.clock Examples.ok_env (ticks Examples.after_help) /\
    Conversation.lastMessageAt c
    = Telegram.clock Examples.ok_env (ticks Examples.after_help) /\
    getConversation (Conversation.id c) w' = (Returned (Some c), w') /\
    (forall id, id <> Conversation.id c ->
       fst (getConversation id w') = fst (getConversation id Examples.after_help)) /\
    (forall telegramUserId,
       getConversationByTelegramUserId telegramUserId w'
       = (Returned
            match fst (getConversationByTelegramUserId telegramUserId
                         Examples.after_help) with
            | Returned (Some earlier) => Some earlier
            | _ =>
                if (InsertConversation.telegramUserId
                      (InsertConversation.mk "111" None "open")
                    =? telegramUserId)%string
                then Some c else None
            end, w')).
Proof.
  apply (createConversation_then_lookup Examples.ok_env
           (InsertConversation.mk "111" None "open") Examples.after_help).
  vm_compute. intros k [<-|[]]. reflexivity.
Defined.

Lemma createSupportIssue_then_lookup_witness :
  exists issue w',
    createSupportIssue Examples.ok_env
      (InsertSupportIssue.mk "111" 1 "Again" "pending" None) Examples.after_help
    = (Returned issue, w') /\
    SupportIssue.id issue
    = MemStorage.next_supportIssues (the_ids Examples.after_help) /\
    SupportIssue.openedAt issue
    = Telegram.clock Examples.ok_env (ticks Examples.after_help) /\
    SupportIssue.closedAt issue = None /\
    getSupportIssue (SupportIssue.id issue) w' = (Returned (Some issue), w') /\
    (forall id, id <> SupportIssue.id issue ->
       fst (getSupportIssue id w') = fst (getSupportIssue id Examples.after_help)) /\
    (forall conversationId,
       getSupportIssueByConversationId conversationId w'
       = (Returned
            match fst (getSupportIssueByConversationId conversationId
                         Examples.after_help) with
            | Returned (Some earlier) => Some earlier
            | _ =>
                if InsertSupportIssue.conversationId
                     (InsertSupportIssue.mk "111" 1 "Again" "pending" None)
                   =? conversationId
                then Some issue else None
            end, w')).
Proof.
  apply (createSupportIssue_then_lookup Examples.ok_env
           (InsertSupportIssue.mk "111" 1 "Again" "pending" None)
           Examples.after_help).
  vm_compute. intros k [<-|[]]. reflexivity.
Defined.

Lemma createMessage_stores_and_refreshes_witness :
  let insertMessage :=
    InsertMessage.mk 1 (Some "8") "111" "user" (Some "Alice") (Some "hello?")
      None None in
  let w := Examples.after_help in
  let m :=
    Message.mk (MemStorage.next_messages (the_ids w))
      (InsertMessage.conversationId insertMessage)
      (InsertMessage.telegramMessageId insertMessage)
      (InsertMessage.senderId insertMessage)
      (InsertMessage.senderType insertMessage)
      (InsertMessage.senderName insertMessage)
      (InsertMessage.content insertMessage)
      (InsertMessage.mediaType insertMessage)
      (InsertMessage.mediaUrl insertMessage)
      (Telegram.clock Examples.ok_env (ticks w)) in
  exists w',
    createMessage Examples.ok_env insertMessage w = (Returned m, w') /\
    getMessage (Message.id m) w' = (Returned (Some m), w') /\
    (forall id, id <> Message.id m ->
                fst (getMessage id w') = fst (getMessage id w)) /\
    (forall id,
       fst (getConversation id w')
       = match fst (getConversation id w) with
         | Returned (Some c) =>
             Returned
               (Some (if id =? InsertMessage.conversationId insertMessage
                      then Conversation.mk (Conversation.id c)
                             (Conversation.telegramUserId c)
                             (Conversation.threadId c)
                             (Conversation.status c)
                             (Telegram.clock Examples.ok_env (S (ticks w)))
                             (Conversation.createdAt c)
                      else c))
         | other => other
         end) /\
    the_users w' = the_users w /\
    the_issues w' = the_issues w.
Proof.
  intros insertMessage w.
  apply (createMessage_stores_and_refreshes Examples.ok_env insertMessage w).
  intros k c H. vm_compute in H.
  destruct k as [|[p|p|]|p]; try discriminate H.
  injection H as <-. reflexivity.
Defined.

Lemma updateConversation_thread_then_lookup_witness :
  let w := Examples.after_help in
  let c := Examples.alice_conversation in
  let updated :=
    Conversation.mk (Conversation.id c) (Conversation.telegramUserId c)
      (Some "777"%string) (Conversation.status c)
      (Telegram.clock Examples.ok_env (ticks w)) (Conversation.createdAt c) in
  exists w',
    updateConversation Examples.ok_env 1
      (InsertConversation.mk_partial None (Some (Some "777"%string)) None) w
    = (Returned (Some updated), w') /\
    getConversation 1 w' = (Returned (Some updated), w') /\
    getConversationByThreadId "777" w' = (Returned (Some updated), w') /\
    conversation_keys w' = conversation_keys w /\
    conversation_owner_index w' = conversation_owner_index w.
Proof.
  intros w c.
  apply (updateConversation_thread_then_lookup Examples.ok_env 1 "777" w c).
  - vm_compute. reflexivity.
  - vm_compute. intros other [<-|[]]. discriminate.
Defined.

(** ** Newest first *)

Lemma sort_insert_ext {A} (cmp cmp' : A -> A -> Z) x l :
  (forall a b, cmp a b = cmp' a b) ->
  JS.sort_insert cmp x l = JS.sort_insert cmp' x l.
Proof.
  intros H. induction l as [|y l IH]; simpl; [reflexivity|].
  now rewrite H, IH.
Qed.

Lemma sort_ext {A} (cmp cmp' : A -> A -> Z) l :
  (forall a b, cmp a b = cmp' a b) -> JS.sort cmp l = JS.sort cmp' l.
Proof.
  intros H. induction l as [|x l IH]; simpl; [reflexivity|].
  now rewrite IH, (sort_insert_ext cmp cmp' x _ H).
Qed.

Lemma StronglySorted_impl {A} (R R' : A -> A -> Prop) l :
  (forall a b, R a b -> R' a b) -> StronglySorted R l -> StronglySorted R' l.
Proof.
  intros H. induction 1 as [|x l Hs IH Hall]; constructor; [exact IH|].
  eapply Forall_impl; [|exact Hall]. intros a. apply H.
Qed.

Section NewestFirst.

Context {A : Type}.
Variable stamp : A -> Z.

(** Sorting with [(a, b) => stamp(b) - stamp(a)] puts the latest first
    and keeps the order of entries with the same stamp. *)
Lemma sort_newest_first l :
  let sorted := JS.sort (fun a b => stamp b - stamp a) l in
  Permutation l sorted /\
  StronglySorted (fun a b => stamp b <= stamp a) sorted /\
  forall t, filter (fun a => stamp a =? t) sorted
            = filter (fun a => stamp a =? t) l.
Proof.
  intros sorted.
  assert (E : sorted = JS.sort (fun a b => (- stamp a) - (- stamp b)) l).
  { apply sort_ext. intros a b. lia. }
  rewrite E. split; [|split].
  - apply (sort_perm (fun a => - stamp a)).
  - eapply StronglySorted_impl; [|apply (sort_sorted (fun a => - stamp a))].
    simpl. intros a b. lia.
  - intros t.
    rewrite (filter_ext (fun a => stamp a =? t) (fun a => - stamp a =? - t)).
    + rewrite (filter_ext (fun a => stamp a =? t) (fun a => - stamp a =? - t)).
      * apply (sort_stable (fun a => - stamp a)).
      * intros a. destruct (Z.eqb_spec (stamp a) t), (Z.eqb_spec (- stamp a) (- t));
          (reflexivity || lia).
    + intros a. destruct (Z.eqb_spec (stamp a) t), (Z.eqb_spec (- stamp a) (- t));
        (reflexivity || lia).
Qed.

End NewestFirst.

(** [slice(0, stop)] keeps a prefix: the first [stop] elements, or all
    but the last [-stop] of them. *)
Lemma slice_to_prefix {A} (stop : Z) (l : list A) :
  exists rest,
    l = JS.slice_to stop l ++ rest /\
    Z.of_nat (List.length (JS.slice_to stop l))
    = if stop <? 0 then Z.max (Z.of_nat (List.length l) + stop) 0
      else Z.min stop (Z.of_nat (List.length l)).
Proof.
  unfold JS.slice_to.
  set (k := Z.to_nat (if stop <? 0 then _ else _)).
  exists (skipn k l). split; [now rewrite firstn_skipn|].
  rewrite length_firstn. subst k. destruct (stop <? 0) eqn:E; lia.
Qed.

(** X8. [listConversations] reads the store without changing it: the
    conversations, latest activity first (ties in the order they were
    created), cut to the first [limit] (50 when omitted); a negative
    limit drops that many from the end instead. *)
Theorem listConversations_newest_first (limit : option Z) (w : World) :
  let n := match limit with Some l => l | None => 50 end in
  let stored := JS.Map_values (the_conversations w) in
  exists sorted rest result,
    listConversations limit w = (Returned result, w) /\
    Permutation stored sorted /\
    StronglySorted
      (fun a b => Conversation.lastMessageAt b <= Conversation.lastMessageAt a)
      sorted /\
    (forall t,
       filter (fun c => Conversation.lastMessageAt c =? t) sorted
       = filter (fun c => Conversation.lastMessageAt c =? t) stored) /\
    sorted = result ++ rest /\
    Z.of_nat (List.length result)
    = if n <? 0 then Z.max (Z.of_nat (List.length stored) + n) 0
      else Z.min n (Z.of_nat (List.length stored)).
Proof.
  intros n stored.
  destruct (sort_newest_first Conversation.lastMessageAt stored)
    as (Hperm & Hsorted & Hstable).
  set (sorted := JS.sort
         (fun a b => Conversation.lastMessageAt b - Conversation.lastMessageAt a)
         stored) in *.
  destruct (slice_to_prefix n sorted) as (rest & Hsplit & Hlen).
  exists sorted, rest, (JS.slice_to n sorted).
  split; [reflexivity|].
  split; [exact Hperm|]. split; [exact Hsorted|]. split; [exact Hstable|].
  split; [exact Hsplit|].
  rewrite Hlen. now rewrite (Permutation_length Hperm).
Qed.

(** X9. [listSupportIssuesByUserId] returns exactly the stored issues of
    that user, all of them, latest opened first (ties in the order they
    were created), and does not change the store. *)
Theorem listSupportIssuesByUserId_newest_first (userId : string) (w : World) :
  exists result,
    listSupportIssuesByUserId userId w = (Returned result, w) /\
    (forall issue,
       In issue result <->
       In issue (JS.Map_values (the_issues w)) /\
       SupportIssue.userId issue = userId) /\
    List.length result
    = List.length (filter (fun i => (SupportIssue.userId i =? userId)%string)
                     (JS.Map_values (the_issues w))) /\
    StronglySorted
      (fun a b => SupportIssue.openedAt b <= SupportIssue.openedAt a) result /\
    (forall t,
       filter (fun i => SupportIssue.openedAt i =? t) result
       = filter (fun i => SupportIssue.openedAt i =? t)
           (filter (fun i => (SupportIssue.userId i =? userId)%string)
              (JS.Map_values (the_issues w)))).
Proof.
  set (mine := filter (fun i => (SupportIssue.userId i =? userId)%string)
                 (JS.Map_values (the_issues w))).
  destruct (sort_newest_first SupportIssue.openedAt mine)
    as (Hperm & Hsorted & Hstable).
  eexists. split; [reflexivity|].
  fold (the_issues w). fold mine.
  split; [|split; [|split]].
  - intros issue. split.
    + intros Hin. apply (Permutation_in _ (Permutation_sym Hperm)) in Hin.
      apply filter_In in Hin. destruct Hin as [Hin He].
      split; [exact Hin|]. now apply String.eqb_eq.
    + intros [Hin He]. apply (Permutation_in _ Hperm).
      apply filter_In. split; [exact Hin|]. now apply String.eqb_eq.
  - symmetry. apply Permutation_length. exact Hperm.
  - exact Hsorted.
  - exact Hstable.
Qed.

(** ** Invariants of the reachable states *)

Lemma preorder_keeps I : preorder (keeps I).
Proof. split; unfold keeps; auto. Qed.

Lemma preorder_ticks_grow : preorder ticks_grow.
Proof. split; unfold ticks_grow; intros; lia. Qed.

#[local] Hint Resolve preorder_keeps preorder_ticks_grow : frame.

(** *** Thread references *)

Lemma keeps_threads_same {A} (m : M A) :
  respects (same the_conversations) m -> respects (keeps threads_printed) m.
Proof. intros H w I. unfold threads_printed. rewrite (H w). exact I. Qed.

#[local] Hint Extern 1 (respects (keeps threads_printed) _) =>
  (apply keeps_threads_same; solve [frame_leaf]) : frame_leaves.

Section ThreadReferences.

Variable env : Telegram.Env.

Lemma updateConversation_threads id updates :
  (InsertConversation.p_threadId updates = None \/
   exists threadMessage,
     InsertConversation.p_threadId updates
     = Some (Some (JS.toString threadMessage))) ->
  respects (keeps threads_printed) (updateConversation env id updates).
Proof.
  intros Hu w I. unfold updateConversation, getConversation, bind, gets.
  destruct (JS.Map_get id (MemStorage.conversations (storage w))) as [c|] eqn:E;
    [|exact I].
  simpl. intros c' Hc'. unfold the_conversations in Hc'. simpl in Hc'.
  apply Map_values_In in Hc'. destruct Hc' as [k Hk].
  apply Map_set_In in Hk. destruct Hk as [Hk|Hk].
  - injection Hk as _ ->. unfold merge_conversation. simpl.
    destruct Hu as [->|[tm ->]].
    + apply I. eapply Map_get_value. exact E.
    + right. now exists tm.
  - apply I. eapply Map_In_values. exact Hk.
Qed.

Lemma updateConversation_touch_threads id :
  respects (keeps threads_printed)
    (updateConversation env id InsertConversation.no_updates).
Proof. apply updateConversation_threads. now left. Qed.

Lemma updateConversation_set_thread_threads id threadMessage :
  respects (keeps threads_printed)
    (updateConversation env id
       (InsertConversation.mk_partial None
          (Some (Some (JS.toString threadMessage))) None)).
Proof. apply updateConversation_threads. right. now exists threadMessage. Qed.

Lemma getOrCreateConversation_threads telegramId :
  respects (keeps threads_printed) (getOrCreateConversation env telegramId).
Proof.
  intros w I. destruct (conversation_of telegramId w) as [c|] eqn:Hc.
  - now rewrite (getOrCreateConversation_known env telegramId w c Hc).
  - destruct (getOrCreateConversation_new env telegramId w Hc)
      as (w' & E & Hconv & _).
    rewrite E. simpl. intros c' Hc'. rewrite Hconv in Hc'.
    apply Map_values_In in Hc'. destruct Hc' as [k Hk].
    apply Map_set_In in Hk. destruct Hk as [Hk|Hk].
    + injection Hk as _ ->. now left.
    + apply I. eapply Map_In_values. exact Hk.
Qed.

#[local] Hint Resolve updateConversation_touch_threads
  updateConversation_set_thread_threads getOrCreateConversation_threads
  : frames.

Lemma handleIncomingMessage_threads message :
  respects (keeps threads_printed) (handleIncomingMessage env message).
Proof. router_frames. Qed.

Lemma processUpdate_threads update :
  respects (keeps threads_printed) (processUpdate env update).
Proof.
  unfold processUpdate. apply respects_try_catch; [auto with frame| |].
  - destruct (Telegram.message update).
    + apply handleIncomingMessage_threads.
    + destruct (Telegram.edited_message update);
        apply respects_ret; auto with frame.
  - intros e. apply respects_ret. auto with frame.
Qed.

Lemma reachable_threads_printed w : reachable env w -> threads_printed w.
Proof.
  induction 1 as [|update w _ IH|groupId w _ IH].
  - intros c [].
  - exact (processUpdate_threads update w IH).
  - exact IH.
Qed.

End ThreadReferences.

(** *** One user per external id, one conversation per owner *)

Lemma conversation_of_none_owner tid w :
  conversation_of tid w = None <->
  ~ In tid (JS.Map_values (conversation_owner_index w)).
Proof.
  unfold conversation_of, conversation_owner_index.
  rewrite Map_view_values, find_none_iff. split.
  - intros H Hin. apply in_map_iff in Hin. destruct Hin as (c & E & Hc).
    specialize (H c Hc). rewrite E, String.eqb_refl in H. discriminate.
  - intros H c Hc.
    destruct (String.eqb_spec (Conversation.telegramUserId c) tid) as [E|_];
      [|reflexivity].
    exfalso. apply H. rewrite <- E. now apply in_map.
Qed.

Lemma unique_owners_same w w' :
  user_index w' = user_index w ->
  conversation_owner_index w' = conversation_owner_index w ->
  unique_owners w -> unique_owners w'.
Proof. unfold unique_owners. now intros -> ->. Qed.

Section UniqueOwners.

Variable env : Telegram.Env.

Lemma getOrCreateUser_unique message from telegramId w :
  WellFormed w -> unique_owners w ->
  unique_owners (snd (getOrCreateUser env message from telegramId w)).
Proof.
  intros WF [Hu Hc]. destruct (user_of telegramId w) as [u|] eqn:E.
  - rewrite (getOrCreateUser_known env message from telegramId w u E).
    now split.
  - destruct (getOrCreateUser_new env message from telegramId w E)
      as (u & ok & w1 & E1 & _ & Hid & Htid & Husers & _ & Hconv & _).
    rewrite E1. simpl. split.
    + unfold user_index. rewrite Husers, Map_set_fresh.
      * rewrite Map_view_app, Map_values_app. simpl. rewrite Htid.
        apply NoDup_app_fresh; [exact Hu|].
        now apply user_of_none_index.
      * rewrite Hid. apply (fresh_user_key w WF).
    + unfold conversation_owner_index. now rewrite Hconv.
Qed.

Lemma getOrCreateConversation_unique telegramId w :
  WellFormed w -> unique_owners w ->
  unique_owners (snd (getOrCreateConversation env telegramId w)).
Proof.
  intros WF [Hu Hc]. destruct (conversation_of telegramId w) as [c|] eqn:E.
  - rewrite (getOrCreateConversation_known env telegramId w c E).
    now split.
  - destruct (getOrCreateConversation_new env telegramId w E)
      as (w' & E' & Hconv & Husers & _).
    rewrite E'. simpl. split.
    + unfold user_index. now rewrite Husers.
    + unfold conversation_owner_index.
      rewrite Hconv, Map_set_fresh by apply (fresh_conversation_key w WF).
      rewrite Map_view_app, Map_values_app. simpl.
      apply NoDup_app_fresh; [exact Hc|].
      now apply conversation_of_none_owner.
Qed.

Lemma handleUserDirectMessage_unique message w :
  WellFormed w -> unique_owners w ->
  unique_owners (snd (handleUserDirectMessage env message w)).
Proof.
  intros WF U. unfold handleUserDirectMessage.
  destruct (Telegram.from message) as [from|]; [|exact U].
  set (tid := JS.toString (Telegram.id from)).
  pose proof (getOrCreateUser_unique message from tid w WF U) as U1.
  destruct (getOrCreateUser env message from tid w) as [o1 w1] eqn:E1.
  destruct (getOrCreateUser_spec env message from tid w o1 w1 WF E1)
    as (WF1 & _).
  simpl in U1. destruct o1 as [user|e].
  2:{ now rewrite (bind_thrown _ _ _ _ _ E1). }
  rewrite (bind_returned _ _ _ _ _ E1).
  pose proof (getOrCreateConversation_unique tid w1 WF1 U1) as U2.
  destruct (getOrCreateConversation env tid w1) as [o2 w2] eqn:E2.
  simpl in U2. destruct o2 as [conv|e].
  2:{ now rewrite (bind_thrown _ _ _ _ _ E2). }
  rewrite (bind_returned _ _ _ _ _ E2).
  assert (F : respects (both (same user_index) (same conversation_owner_index))
                (storeUserMessage env message from tid conv;;;
                 forwardToSupport env message from tid user conv))
    by (repeat apply respects_both; router_frames).
  destruct (F w2) as [A B].
  now apply (unique_owners_same w2).
Qed.

Lemma handleSupportGroupMessage_unique message w :
  unique_owners w ->
  unique_owners (snd (handleSupportGroupMessage env message w)).
Proof.
  assert (F : respects (both (same user_index) (same conversation_owner_index))
                (handleSupportGroupMessage env message))
    by (repeat apply respects_both; router_frames).
  destruct (F w) as [A B]. now apply unique_owners_same.
Qed.

Lemma processUpdate_unique update w :
  WellFormed w -> unique_owners w ->
  unique_owners (snd (processUpdate env update w)).
Proof.
  intros WF U. destruct (Telegram.message update) as [message|] eqn:Hm.
  - rewrite (processUpdate_world env update message w Hm).
    rewrite handleIncomingMessage_dispatch.
    destruct (in_support_group w message).
    + now apply handleSupportGroupMessage_unique.
    + now apply handleUserDirectMessage_unique.
  - unfold processUpdate. rewrite Hm.
    destruct (Telegram.edited_message update); exact U.
Qed.

Lemma reachable_unique_owners w : reachable env w -> unique_owners w.
Proof.
  induction 1 as [|update w Hr IH|groupId w _ IH].
  - split; constructor.
  - apply processUpdate_unique; [|exact IH].
    now apply (reachable_WellFormed env).
  - exact IH.
Qed.

End UniqueOwners.

(** *** Messages *)

Lemma StronglySorted_app_last {A} (R : A -> A -> Prop) l x :
  StronglySorted R l -> Forall (fun a => R a x) l -> StronglySorted R (l ++ [x]).
Proof.
  induction 1 as [|y l Hs IH Hall]; intros Hx; simpl.
  - repeat constructor.
  - inversion Hx as [|? ? Hyx Hlx]; subst. constructor; [now apply IH|].
    apply Forall_app. split; [exact Hall|now constructor].
Qed.

Ltac ticks_leaf :=
  let w := fresh "w" in
  intro w; unfold ticks_grow;
  first
    [ simpl; lia
    | unfold bot_sendPhoto, bot_sendDocument, bot_sendVideo, bot_sendMedia,
        bot_sendMessage, bot_getUserProfilePhotos, bot_getFileLink,
        bot_createForumTopic;
      match goal with
      | |- context [match ?x with _ => _ end] => destruct x
      end;
      simpl; lia ].

Section MessageOrder.

Variable env : Telegram.Env.
Hypothesis clock_monotone : monotone_clock env.

Lemma keeps_order_quiet {A} (m : M A) :
  respects (same the_messages) m ->
  respects (same (fun w => MemStorage.next_messages (the_ids w))) m ->
  respects ticks_grow m ->
  respects (keeps (messages_in_order env)) m.
Proof.
  intros Hm Hn Ht w [Hk Hs Hp]. specialize (Hm w). specialize (Hn w).
  specialize (Ht w). unfold same, ticks_grow in *. split.
  - rewrite Hm, Hn. exact Hk.
  - rewrite Hm. exact Hs.
  - rewrite Hm. eapply Forall_impl; [|exact Hp]. simpl. intros m0 H0.
    specialize (clock_monotone _ _ Ht). lia.
Qed.

Lemma createMessage_world im w :
  exists n,
    (1 <= n)%nat /\
    ticks (snd (createMessage env im w)) = (ticks w + n)%nat /\
    MemStorage.next_messages (the_ids (snd (createMessage env im w)))
    = MemStorage.next_messages (the_ids w) + 1 /\
    exists m,
      Message.sentAt m = Telegram.clock env (ticks w) /\
      the_messages (snd (createMessage env im w))
      = JS.Map_set (MemStorage.next_messages (the_ids w)) m (the_messages w).
Proof.
  unfold createMessage, bind, next_message_id, newDate, messages_set, modify,
    getConversation, gets, ret. simpl.
  destruct (JS.Map_get _ _) as [c|].
  - unfold updateConversation, getConversation, conversations_set, newDate,
      modify, bind, gets, ret. simpl.
    destruct (JS.Map_get _ _); simpl.
    + exists 2%nat. split; [lia|]. split; [lia|]. split; [reflexivity|].
      eexists. split; [|reflexivity]. reflexivity.
    + exists 1%nat. split; [lia|]. split; [lia|]. split; [reflexivity|].
      eexists. split; [|reflexivity]. reflexivity.
  - simpl. exists 1%nat. split; [lia|]. split; [lia|]. split; [reflexivity|].
    eexists. split; [|reflexivity]. reflexivity.
Qed.

Lemma createMessage_order im :
  respects (keeps (messages_in_order env)) (createMessage env im).
Proof.
  intros w [Hk Hs Hp].
  destruct (createMessage_world im w) as (n & Hn & Ht & Hid & m & Hm & Hms).
  assert (Hfresh : ~ In (MemStorage.next_messages (the_ids w))
                        (JS.Map_keys (the_messages w))).
  { intros Hin. apply Hk in Hin. lia. }
  rewrite Map_set_fresh in Hms by exact Hfresh.
  split.
  - rewrite Hms, Hid, Map_keys_app. intros k Hin.
    apply in_app_or in Hin. destruct Hin as [Hin|[<-|[]]].
    2:{ simpl. lia. }
    apply Hk in Hin. lia.
  - rewrite Hms, Map_values_app. simpl.
    apply StronglySorted_app_last; [exact Hs|].
    eapply Forall_impl; [|exact Hp]. simpl. intros a Ha. lia.
  - rewrite Hms, Map_values_app, Ht. apply Forall_app. split.
    + eapply Forall_impl; [|exact Hp]. simpl. intros a Ha.
      assert (X := clock_monotone (ticks w) (ticks w + n)%nat). lia.
    + constructor; [|constructor]. simpl. rewrite Hm.
      apply clock_monotone. lia.
Qed.

#[local] Hint Resolve createMessage_order : frames.
#[local] Hint Extern 1 (respects (keeps (messages_in_order _)) _) =>
  (apply keeps_order_quiet;
   [solve [frame_leaf] | solve [frame_leaf] | solve [ticks_leaf]])
  : frame_leaves.

Lemma handleIncomingMessage_order message :
  respects (keeps (messages_in_order env)) (handleIncomingMessage env message).
Proof. router_frames. Qed.

Lemma processUpdate_order update :
  respects (keeps (messages_in_order env)) (processUpdate env update).
Proof.
  unfold processUpdate. apply respects_try_catch; [auto with frame| |].
  - destruct (Telegram.message update).
    + apply handleIncomingMessage_order.
    + destruct (Telegram.edited_message update);
        apply respects_ret; auto with frame.
  - intros e. apply respects_ret. auto with frame.
Qed.

Lemma reachable_messages_in_order w :
  reachable env w -> messages_in_order env w.
Proof.
  induction 1 as [|update w _ IH|groupId w _ IH].
  - split; [intros k []|constructor|constructor].
  - exact (processUpdate_order update w IH).
  - destruct IH as [Hk Hs Hp]. now split.
Qed.

End MessageOrder.

(** *** Every message has its conversation *)

Lemma messages_filed_grow w w' :
  the_messages w' = the_messages w ->
  incl (conversation_keys w) (conversation_keys w') ->
  messages_filed w -> messages_filed w'.
Proof.
  intros Hm Hk F k m H. rewrite Hm in H. destruct (F k m H) as [A B].
  split; [now apply Hk|exact B].
Qed.

Lemma messages_filed_step w w' conversationId :
  messages_filed w ->
  In conversationId (conversation_keys w) ->
  conversation_keys w' = conversation_keys w ->
  stores (fun m => Message.conversationId m = conversationId /\
                   (Message.senderType m = "user"%string \/
                    Message.senderType m = "admin"%string)) w w' ->
  messages_filed w'.
Proof.
  intros F Hin Hk S k m H. rewrite Hk.
  destruct (S k m H) as [Hold|[Hc Hs]].
  - exact (F k m Hold).
  - split; [now rewrite Hc|exact Hs].
Qed.

Section MessagesFiled.

Variable env : Telegram.Env.
Variable message : Telegram.Message.

Lemma storeUserMessage_stores_fields Q from telegramId conversation :
  (forall id mediaUrl now,
     Q (Message.mk id (Conversation.id conversation)
          (Some (JS.toString (Telegram.message_id message)))
          telegramId "user" (Some (senderName from))
          (JS.or_null (Telegram.text message))
          (getMediaType message) mediaUrl now)) ->
  respects (stores Q)
    (storeUserMessage env message from telegramId conversation).
Proof.
  intros HQ.
  destruct (getFileId_pure message) as [o Ho].
  intros w. unfold storeUserMessage, getMediaUrl.
  unfold bind at 1. unfold bind at 1. rewrite Ho.
  destruct o as [mu|e]; [|apply (pre_refl _ (preorder_stores _))].
  unfold ret at 1. unfold insertMessageSchema_parse. unfold bind at 1.
  unfold ret at 1.
  apply createMessage_stores. intros id now. apply HQ.
Qed.

Lemma storeAdminMessage_stores_fields Q from conversation :
  (forall id mediaUrl now,
     Q (Message.mk id (Conversation.id conversation)
          (Some (JS.toString (Telegram.message_id message)))
          (JS.toString (Telegram.id from)) "admin" (Some (senderName from))
          (JS.or_null (Telegram.text message))
          (getMediaType message) mediaUrl now)) ->
  respects (stores Q) (storeAdminMessage env message from conversation).
Proof.
  intros HQ.
  destruct (getFileId_pure message) as [o Ho].
  intros w. unfold storeAdminMessage, getMediaUrl.
  unfold bind at 1. unfold bind at 1. rewrite Ho.
  destruct o as [mu|e]; [|apply (pre_refl _ (preorder_stores _))].
  unfold ret at 1. unfold insertMessageSchema_parse. unfold bind at 1.
  unfold ret at 1.
  apply createMessage_stores. intros id now. apply HQ.
Qed.

Lemma handleUserDirectMessage_filed w :
  WellFormed w -> messages_filed w ->
  messages_filed (snd (handleUserDirectMessage env message w)).
Proof.
  intros WF F. unfold handleUserDirectMessage.
  destruct (Telegram.from message) as [from|]; [|exact F].
  set (tid := JS.toString (Telegram.id from)).
  assert (F1 : respects (both (same the_messages) (same conversation_keys))
                 (getOrCreateUser env message from tid))
    by (repeat apply respects_both; router_frames).
  specialize (F1 w).
  destruct (getOrCreateUser env message from tid w) as [o1 w1] eqn:E1.
  destruct (getOrCreateUser_spec env message from tid w o1 w1 WF E1)
    as (WF1 & _ & _ & _ & _ & Hin & _).
  simpl in F1. destruct F1 as [Hm1 Hk1].
  assert (G1 : messages_filed w1).
  { apply (messages_filed_grow w); [exact Hm1| |exact F].
    rewrite Hk1. apply incl_refl. }
  destruct o1 as [user|e].
  2:{ now rewrite (bind_thrown _ _ _ _ _ E1). }
  rewrite (bind_returned _ _ _ _ _ E1).
  destruct (getOrCreateConversation_spec env tid w1 WF1 Hin)
    as (c & w2 & E2 & WF2 & Htr & _ & _ & _ & _ & _ & Hknown & Hnew).
  assert (F2 : respects (same the_messages) (getOrCreateConversation env tid))
    by router_frames.
  specialize (F2 w1). rewrite E2 in F2. simpl in F2.
  assert (G2 : messages_filed w2).
  { apply (messages_filed_grow w1); [exact F2| |exact G1].
    destruct (conversation_of tid w1) as [c0|] eqn:Hc0.
    - destruct (Hknown c0 eq_refl) as [_ ->]. apply incl_refl.
    - destruct (Hnew eq_refl) as [_ ->]. apply incl_appl, incl_refl. }
  rewrite (bind_returned _ _ _ _ _ E2).
  assert (Hc : In (Conversation.id c) (conversation_keys w2)).
  { destruct Htr as [Hget _]. rewrite <- conversation_index_keys.
    eapply Map_get_key. exact Hget. }
  pose (Q := fun m => Message.conversationId m = Conversation.id c /\
                      (Message.senderType m = "user"%string \/
                       Message.senderType m = "admin"%string)).
  assert (T : respects (both (same conversation_keys) (stores Q))
                (storeUserMessage env message from tid c;;;
                 forwardToSupport env message from tid user c)).
  { apply respects_both; [router_frames|].
    apply respects_bind; [auto with frame| |intros _; router_frames].
    apply storeUserMessage_stores_fields. intros id mu now.
    split; [reflexivity|now left]. }
  destruct (T w2) as [Hk S].
  exact (messages_filed_step w2 _ (Conversation.id c) G2 Hc Hk S).
Qed.

Lemma handleSupportGroupMessage_filed w :
  WellFormed w -> messages_filed w ->
  messages_filed (snd (handleSupportGroupMessage env message w)).
Proof.
  intros WF F. unfold handleSupportGroupMessage.
  destruct (Telegram.from message) as [from|]; [|exact F].
  destruct (Telegram.reply_to_message message) as [reply|]; [|exact F].
  unfold bind at 1. unfold getConversationByThreadId at 1, gets at 1.
  destruct (find _ _) as [c|] eqn:Hfind; [|exact F].
  assert (Hc : In (Conversation.id c) (conversation_keys w)).
  { apply find_some in Hfind. destruct Hfind as [Hin _].
    apply Map_values_In in Hin. destruct Hin as [k Hk].
    assert (Hcore : In (k, conversation_core c) (conversation_index w)).
    { unfold conversation_index, Map_view.
      apply in_map_iff. exists (k, c). now split. }
    rewrite <- (wf_conversation_ids w WF k _ Hcore) in Hk.
    simpl in Hk. eapply Map_In_keys. exact Hk. }
  pose (Q := fun m => Message.conversationId m = Conversation.id c /\
                      (Message.senderType m = "user"%string \/
                       Message.senderType m = "admin"%string)).
  assert (T : respects (both (same conversation_keys) (stores Q))
                (storeAdminMessage env message from c;;;
                 forwardTextToUser env message (Conversation.telegramUserId c);;;
                 forwardMediaToUser env message (Conversation.telegramUserId c))).
  { apply respects_both; [router_frames|].
    apply respects_bind; [auto with frame| |intros _; router_frames].
    apply storeAdminMessage_stores_fields. intros id mu now.
    split; [reflexivity|now right]. }
  destruct (T w) as [Hk S].
  exact (messages_filed_step w _ (Conversation.id c) F Hc Hk S).
Qed.

End MessagesFiled.

Lemma processUpdate_filed env update w :
  WellFormed w -> messages_filed w ->
  messages_filed (snd (processUpdate env update w)).
Proof.
  intros WF F. destruct (Telegram.message update) as [message|] eqn:Hm.
  - rewrite (processUpdate_world env update message w Hm).
    rewrite handleIncomingMessage_dispatch.
    destruct (in_support_group w message).
    + now apply handleSupportGroupMessage_filed.
    + now apply handleUserDirectMessage_filed.
  - unfold processUpdate. rewrite Hm.
    destruct (Telegram.edited_message update); exact F.
Qed.

Lemma reachable_messages_filed env w : reachable env w -> messages_filed w.
Proof.
  induction 1 as [|update w Hr IH|groupId w _ IH].
  - intros k m H. discriminate H.
  - apply processUpdate_filed; [|exact IH].
    now apply (reachable_WellFormed env).
  - exact IH.
Qed.

(** *** The invariants, read through the store's methods *)

Lemma reachable_support_world : reachable Examples.ok_env Examples.support_world.
Proof. apply (reach_group Examples.ok_env "-100" initial_world), reach_initial. Qed.

Lemma reachable_after_help_update :
  reachable Examples.ok_env Runs.after_help_update.
Proof. apply reach_update, reachable_support_world. Qed.

Lemma reachable_after_reply_update :
  reachable Examples.ok_env Runs.after_reply_update.
Proof. apply reach_update, reachable_after_help_update. Qed.

Lemma monotone_clock_ok_env : monotone_clock Examples.ok_env.
Proof. intros i j H. unfold Examples.ok_env. cbn [Telegram.clock]. lia. Qed.


Lemma NoDup_values_key {V} (m : JS.Map V) k1 k2 v :
  NoDup (JS.Map_values m) -> In (k1, v) m -> In (k2, v) m -> k1 = k2.
Proof.
  induction m as [|[k0 v0] m IH]; simpl; [contradiction|].
  intros Hnd H1 H2. inversion Hnd as [|? ? Hout Hnd']; subst.
  destruct H1 as [H1|H1], H2 as [H2|H2].
  - congruence.
  - injection H1 as -> ->. exfalso. apply Hout.
    now apply (Map_In_values m k2 v).
  - injection H2 as -> ->. exfalso. apply Hout.
    now apply (Map_In_values m k1 v).
  - now apply IH.
Qed.

Lemma Map_key_get {V} (m : JS.Map V) k :
  In k (JS.Map_keys m) -> exists v, JS.Map_get k m = Some v.
Proof.
  induction m as [|[k0 v0] m IH]; simpl; [contradiction|].
  intros [H|H].
  - subst. rewrite Z.eqb_refl. now exists v0.
  - destruct (k0 =? k); [now exists v0|now apply IH].
Qed.

Lemma StronglySorted_filter {A} (R : A -> A -> Prop) (p : A -> bool) l :
  StronglySorted R l -> StronglySorted R (filter p l).
Proof.
  induction 1 as [|x l Hs IH Hall]; simpl; [constructor|].
  destruct (p x); [|exact IH]. constructor; [exact IH|].
  apply Forall_forall. intros y Hy. apply filter_In in Hy.
  rewrite Forall_forall in Hall. now apply Hall.
Qed.



(** X11. [createUser] and [createConversation] check nothing, yet in
    every state the process reaches no two stored users have the same
    external id and no two stored conversations the same owner. *)
Theorem reachable_one_record_per_external_id env w :
  reachable env w ->
  (forall id1 id2 u1 u2,
     fst (getUser id1 w) = Returned (Some u1) ->
     fst (getUser id2 w) = Returned (Some u2) ->
     User.telegramId u1 = User.telegramId u2 ->
     id1 = id2 /\ u1 = u2) /\
  (forall id1 id2 c1 c2,
     fst (getConversation id1 w) = Returned (Some c1) ->
     fst (getConversation id2 w) = Returned (Some c2) ->
     Conversation.telegramUserId c1 = Conversation.telegramUserId c2 ->
     id1 = id2 /\ c1 = c2).
Proof.
  intros Hr. destruct (reachable_unique_owners env w Hr) as [Hu Hc]. split.
  - intros id1 id2 u1 u2 H1 H2 E.
    unfold getUser, gets in H1, H2. simpl in H1, H2.
    injection H1 as H1. injection H2 as H2.
    assert (id1 = id2).
    { apply (NoDup_values_key (user_index w) id1 id2 (User.telegramId u1) Hu).
      - unfold user_index, Map_view. apply in_map_iff.
        exists (id1, u1). split; [reflexivity|now apply Map_get_In].
      - rewrite E. unfold user_index, Map_view. apply in_map_iff.
        exists (id2, u2). split; [reflexivity|now apply Map_get_In]. }
    split; [assumption|]. subst id2. congruence.
  - intros id1 id2 c1 c2 H1 H2 E.
    unfold getConversation, gets in H1, H2. simpl in H1, H2.
    injection H1 as H1. injection H2 as H2.
    assert (id1 = id2).
    { apply (NoDup_values_key (conversation_owner_index w) id1 id2
               (Conversation.telegramUserId c1) Hc).
      - unfold conversation_owner_index, Map_view. apply in_map_iff.
        exists (id1, c1). split; [reflexivity|now apply Map_get_In].
      - rewrite E. unfold conversation_owner_index, Map_view. apply in_map_iff.
        exists (id2, c2). split; [reflexivity|now apply Map_get_In]. }
    split; [assumption|]. subst id2. congruence.
Qed.

Lemma reachable_one_record_per_external_id_witness :
  (forall id1 id2 u1 u2,
     fst (getUser id1 Runs.after_reply_update) = Returned (Some u1) ->
     fst (getUser id2 Runs.after_reply_update) = Returned (Some u2) ->
     User.telegramId u1 = User.telegramId u2 ->
     id1 = id2 /\ u1 = u2) /\
  (forall id1 id2 c1 c2,
     fst (getConversation id1 Runs.after_reply_update) = Returned (Some c1) ->
     fst (getConversation id2 Runs.after_reply_update) = Returned (Some c2) ->
     Conversation.telegramUserId c1 = Conversation.telegramUserId c2 ->
     id1 = id2 /\ c1 = c2).
Proof.
  apply (reachable_one_record_per_external_id Examples.ok_env
           Runs.after_reply_update).
  apply reach_update. apply reach_update.
  apply (reach_group Examples.ok_env "-100" initial_world), reach_initial.
Defined.

(** X12. In every state the process reaches, the thread reference of a
    stored conversation is null or the printed id of a message, and the
    reply target computed from it, [parseInt(threadId || '0')], is 0 or
    that message id: never [NaN]. *)
Theorem reachable_threads_are_message_ids env w :
  reachable env w ->
  forall id c,
    fst (getConversation id w) = Returned (Some c) ->
    (Conversation.threadId c = None /\ thread_reply_target c = JS.Num 0) \/
    exists threadMessage,
      Conversation.threadId c = Some (JS.toString threadMessage) /\
      thread_reply_target c = JS.Num threadMessage.
Proof.
  intros Hr id c H. unfold getConversation, gets in H. simpl in H.
  injection H as H. apply Map_get_value in H.
  destruct (reachable_threads_printed env w Hr c H) as [E|[tm E]].
  - left. split; [exact E|]. unfold thread_reply_target. now rewrite E.
  - right. exists tm. split; [exact E|].
    unfold thread_reply_target. rewrite E. simpl.
    destruct (JS.toString tm =? "")%string eqn:Hempty.
    + apply String.eqb_eq in Hempty. now destruct (toString_nonempty tm).
    + apply parseInt_toString.
Qed.

Lemma reachable_threads_are_message_ids_witness :
  (Conversation.threadId Examples.alice_conversation = None /\
   thread_reply_target Examples.alice_conversation = JS.Num 0) \/
  exists threadMessage,
    Conversation.threadId Examples.alice_conversation
    = Some (JS.toString threadMessage) /\
    thread_reply_target Examples.alice_conversation = JS.Num threadMessage.
Proof.
  apply (reachable_threads_are_message_ids Examples.ok_env
           Runs.after_help_update
           (reach_update Examples.ok_env Runs.help_update _
              (reach_group Examples.ok_env "-100" initial_world
                 (reach_initial Examples.ok_env)))
           1 Examples.alice_conversation).
  vm_compute. reflexivity.
Defined.

(** X13. When the clock never runs backwards, in every state the process
    reaches the messages of a conversation come back in the order they
    were stored: a positive limit returns the last [limit] of them, or
    all when there are fewer. *)
Theorem reachable_messages_in_stored_order env w conversationId limit :
  monotone_clock env ->
  reachable env w ->
  0 < limit ->
  exists older result,
    getMessagesByConversationId conversationId (Some limit) w
    = (Returned result, w) /\
    stored_messages conversationId w = older ++ result /\
    Z.of_nat (List.length result)
    = Z.min limit (Z.of_nat (List.length (stored_messages conversationId w))).
Proof.
  intros Hclock Hr Hpos.
  destruct (reachable_messages_in_order env Hclock w Hr) as [_ Hs _].
  assert (E : JS.sort (fun a b => Message.sentAt a - Message.sentAt b)
                (stored_messages conversationId w)
              = stored_messages conversationId w).
  { apply (sort_sorted_id Message.sentAt). now apply StronglySorted_filter. }
  destruct (slice_from_neg_positive limit (stored_messages conversationId w) Hpos)
    as (older & Hsplit & Hlen).
  exists older, (JS.slice_from (- limit) (stored_messages conversationId w)).
  split; [|split; [exact Hsplit|exact Hlen]].
  unfold getMessagesByConversationId, gets.
  fold (the_messages w). fold (stored_messages conversationId w).
  now rewrite E.
Qed.

Lemma reachable_messages_in_stored_order_witness :
  exists older result,
    getMessagesByConversationId 1 (Some 50) Runs.after_reply_update
    = (Returned result, Runs.after_reply_update) /\
    stored_messages 1 Runs.after_reply_update = older ++ result /\
    Z.of_nat (List.length result)
    = Z.min 50 (Z.of_nat (List.length
                            (stored_messages 1 Runs.after_reply_update))).
Proof.
  apply (reachable_messages_in_stored_order Examples.ok_env
           Runs.after_reply_update 1 50).
  - intros i j H. unfold Examples.ok_env. cbn [Telegram.clock]. lia.
  - apply reach_update. apply reach_update.
    apply (reach_group Examples.ok_env "-100" initial_world), reach_initial.
  - lia.
Defined.

(** X14. In every state the process reaches, a stored message belongs
    to a stored conversation and its sender type is "user" or "admin",
    although [createMessage] checks neither. *)
Theorem reachable_messages_are_filed env w :
  reachable env w ->
  forall id m,
    fst (getMessage id w) = Returned (Some m) ->
    (exists c, fst (getConversation (Message.conversationId m) w)
               = Returned (Some c)) /\
    (Message.senderType m = "user"%string \/
     Message.senderType m = "admin"%string).
Proof.
  intros Hr id m H. unfold getMessage, gets in H. simpl in H.
  injection H as H.
  destruct (reachable_messages_filed env w Hr id m H) as [Hin Hs].
  split; [|exact Hs].
  destruct (Map_key_get (the_conversations w) _ Hin) as [c Hc].
  exists c. unfold getConversation, gets. simpl.
  fold (the_conversations w). now rewrite Hc.
Qed.

Lemma reachable_messages_are_filed_witness :
  let m :=
    Message.mk 2 1 (Some "20") "5" "admin" (Some "Bob") (Some "On it")
      None None 1007 in
  (exists c, fst (getConversation (Message.conversationId m)
                    Runs.after_reply_update)
             = Returned (Some c)) /\
  (Message.senderType m = "user"%string \/
   Message.senderType m = "admin"%string).
Proof.
  intros m.
  apply (reachable_messages_are_filed Examples.ok_env Runs.after_reply_update
           (reach_update Examples.ok_env Runs.reply_update _
              (reach_update Examples.ok_env Runs.help_update _
                 (reach_group Examples.ok_env "-100" initial_world
                    (reach_initial Examples.ok_env))))
           2 m).
  vm_compute. reflexivity.
Defined.

(** ** The webhook and the support direction *)

(** X15. The webhook route never answers an error: whatever the update
    and whatever the platform answers, [processUpdate] returns normally
    and the route answers 200 "OK"; an update that carries no [message]
    (an edited message, a channel post) changes nothing. *)
Theorem post_webhook_always_answers_ok env body w :
  fst (processUpdate env body w) = Returned tt /\
  Routes.post_webhook env body w
  = (Returned (Routes.Text 200 "OK"), snd (processUpdate env body w)) /\
  (Telegram.message body = None -> snd (processUpdate env body w) = w).
Proof.
  assert (H : fst (processUpdate env body w) = Returned tt).
  { unfold processUpdate, try_catch.
    destruct (Telegram.message body) as [message|].
    - destruct (handleIncomingMessage env message w) as [[[]|e] w1];
        reflexivity.
    - destruct (Telegram.edited_message body); reflexivity. }
  split; [exact H|]. split.
  - unfold Routes.post_webhook, try_catch, bind.
    destruct (processUpdate env body w) as [[[]|e] w1]; [reflexivity|].
    discriminate H.
  - intros Hm. unfold processUpdate, try_catch. rewrite Hm.
    destruct (Telegram.edited_message body); reflexivity.
Qed.

Section SupportDirectionFrame.

Variable env : Telegram.Env.
Variable message : Telegram.Message.

Lemma handleSupportGroupMessage_addressed from reply conversation w :
  Telegram.from message = Some from ->
  Telegram.reply_to_message message = Some reply ->
  fst (getConversationByThreadId
         (JS.toString (Telegram.reply_message_id reply)) w)
  = Returned (Some conversation) ->
  sends (fun x => chat_of (Telegram.call x)
                  = Some (Telegram.ChatStr
                            (Conversation.telegramUserId conversation)))
    w (snd (handleSupportGroupMessage env message w)).
Proof.
  intros Hfrom Hreply Hconv.
  unfold handleSupportGroupMessage. rewrite Hfrom, Hreply.
  unfold bind at 1.
  unfold getConversationByThreadId, gets in Hconv |- *. simpl in Hconv.
  injection Hconv as Hconv. rewrite Hconv.
  assert (F : respects
                (sends (fun x => chat_of (Telegram.call x)
                                 = Some (Telegram.ChatStr
                                           (Conversation.telegramUserId
                                              conversation))))
                (storeAdminMessage env message from conversation;;;
                 forwardTextToUser env message
                   (Conversation.telegramUserId conversation);;;
                 forwardMediaToUser env message
                   (Conversation.telegramUserId conversation)))
    by router_frames.
  apply F.
Qed.

End SupportDirectionFrame.

(** X16. A message from the support group never creates or changes a
    user, a conversation (but for its last activity), an issue or a
    counter of theirs; and when it is a reply to the thread of a
    conversation, every call it makes is a send addressed to the owner
    of that conversation. *)
Theorem support_message_only_reaches_the_thread_owner
    env message from reply conversation w :
  in_support_group w message = true ->
  Telegram.from message = Some from ->
  Telegram.reply_to_message message = Some reply ->
  fst (getConversationByThreadId
         (JS.toString (Telegram.reply_message_id reply)) w)
  = Returned (Some conversation) ->
  let w' := snd (handleIncomingMessage env message w) in
  the_users w' = the_users w /\
  conversation_index w' = conversation_index w /\
  the_issues w' = the_issues w /\
  supportGroupId w' = supportGroupId w /\
  exists sent,
    outbox w' = outbox w ++ sent /\
    Forall (fun x => chat_of (Telegram.call x)
                     = Some (Telegram.ChatStr
                               (Conversation.telegramUserId conversation)))
      sent.
Proof.
  intros Hgroup Hfrom Hreply Hconv w'.
  assert (E : w' = snd (handleSupportGroupMessage env message w)).
  { unfold w'. now rewrite handleIncomingMessage_dispatch, Hgroup. }
  rewrite E.
  assert (F : respects
                (both (same the_users)
                   (both (same conversation_index)
                      (both (same the_issues) (same supportGroupId))))
                (handleSupportGroupMessage env message))
    by (repeat apply respects_both; router_frames).
  destruct (F w) as (A & B & C & D).
  split; [exact A|]. split; [exact B|]. split; [exact C|]. split; [exact D|].
  exact (handleSupportGroupMessage_addressed env message from reply
           conversation w Hfrom Hreply Hconv).
Qed.

Lemma support_message_only_reaches_the_thread_owner_witness :
  let w := Runs.after_help_update in
  let w' := snd (handleIncomingMessage Examples.ok_env Examples.admin_reply w) in
  the_users w' = the_users w /\
  conversation_index w' = conversation_index w /\
  the_issues w' = the_issues w /\
  supportGroupId w' = supportGroupId w /\
  exists sent,
    outbox w' = outbox w ++ sent /\
    Forall (fun x => chat_of (Telegram.call x)
                     = Some (Telegram.ChatStr
                               (Conversation.telegramUserId
                                  Examples.alice_conversation)))
      sent.
Proof.
  intros w.
  apply (support_message_only_reaches_the_thread_owner Examples.ok_env
           Examples.admin_reply Examples.bob (Telegram.mkReply 502)
           Examples.alice_conversation w).
  - vm_compute. reflexivity.
  - reflexivity.
  - reflexivity.
  - vm_compute. reflexivity.
Defined.

(** ** What is stored and what is relayed *)

Lemma createMessage_returns env im w :
  let m :=
    Message.mk (MemStorage.next_messages (the_ids w))
      (InsertMessage.conversationId im) (InsertMessage.telegramMessageId im)
      (InsertMessage.senderId im) (InsertMessage.senderType im)
      (InsertMessage.senderName im) (InsertMessage.content im)
      (InsertMessage.mediaType im) (InsertMessage.mediaUrl im)
      (Telegram.clock env (ticks w)) in
  exists w',
    createMessage env im w = (Returned m, w') /\
    the_messages w'
    = JS.Map_set (MemStorage.next_messages (the_ids w)) m (the_messages w) /\
    outbox w' = outbox w /\
    supportGroupId w' = supportGroupId w.
Proof.
  unfold createMessage, bind, next_message_id, newDate, messages_set, modify,
    getConversation, gets, ret. simpl.
  destruct (JS.Map_get _ _) as [c|].
  - unfold updateConversation, getConversation, conversations_set, newDate,
      modify, bind, gets, ret. simpl.
    destruct (JS.Map_get _ _); (eexists; split; [reflexivity|]);
      simpl; repeat split.
  - eexists. split; [reflexivity|]. simpl. repeat split.
Qed.

Lemma no_media_fields message :
  has_media message = false ->
  getMediaType message = None /\
  (forall w, getFileId message w = (Returned None, w)).
Proof.
  unfold has_media, getMediaType, getFileId.
  destruct (Telegram.photo message); [discriminate|].
  destruct (Telegram.document message); [discriminate|].
  destruct (Telegram.video message); [discriminate|].
  destruct (Telegram.audio message); [discriminate|].
  destruct (Telegram.voice message); [discriminate|].
  intros _. split; reflexivity.
Qed.

Lemma or_null_nonempty s : s <> ""%string -> JS.or_null (Some s) = Some s.
Proof.
  intros H. unfold JS.or_null, JS.truthy.
  destruct (String.eqb_spec s ""); [contradiction|reflexivity].
Qed.

(** X17. A text reply in the thread of a conversation is stored first,
    as an admin message of that conversation, and then sent once to the
    owner of the conversation; when that send is rejected the handler
    fails but the message stays stored. *)
Theorem support_reply_text_is_stored_then_relayed
    env message from reply conversation text w :
  Telegram.from message = Some from ->
  Telegram.reply_to_message message = Some reply ->
  fst (getConversationByThreadId
         (JS.toString (Telegram.reply_message_id reply)) w)
  = Returned (Some conversation) ->
  Telegram.text message = Some text ->
  text <> ""%string ->
  has_media message = false ->
  let relay :=
    Telegram.SendMessage
      (Telegram.ChatStr (Conversation.telegramUserId conversation)) text None in
  let stored :=
    Message.mk (MemStorage.next_messages (the_ids w))
      (Conversation.id conversation)
      (Some (JS.toString (Telegram.message_id message)))
      (JS.toString (Telegram.id from)) "admin" (Some (senderName from))
      (Some text) None None (Telegram.clock env (ticks w)) in
  exists (ok : bool) w',
    handleSupportGroupMessage env message w
    = ((if ok then Returned tt else Thrown (GatewayError relay)), w') /\
    sent_since w w' = [Telegram.mkExchange relay ok] /\
    fst (getMessage (Message.id stored) w') = Returned (Some stored).
Proof.
  intros Hfrom Hreply Hconv Htext Hne Hmedia relay stored.
  destruct (no_media_fields message Hmedia) as [Hkind Hfile].
  unfold handleSupportGroupMessage. rewrite Hfrom, Hreply.
  unfold bind at 1.
  unfold getConversationByThreadId, gets in Hconv |- *. simpl in Hconv.
  injection Hconv as Hconv. rewrite Hconv.
  assert (E3 : exists w1,
             storeAdminMessage env message from conversation w
             = (Returned stored, w1) /\
             JS.Map_get (Message.id stored) (the_messages w1) = Some stored /\
             outbox w1 = outbox w).
  { unfold storeAdminMessage, getMediaUrl.
    unfold bind at 1. unfold bind at 1. rewrite Hfile.
    unfold ret at 1. unfold insertMessageSchema_parse. unfold bind at 1.
    unfold ret at 1. rewrite Hkind, Htext, (or_null_nonempty text Hne).
    destruct (createMessage_returns env
                (InsertMessage.mk (Conversation.id conversation)
                   (Some (JS.toString (Telegram.message_id message)))
                   (JS.toString (Telegram.id from)) "admin"
                   (Some (senderName from)) (Some text) None None) w)
      as (w1 & Hrun & Hget & Hout & _).
    exists w1. split; [exact Hrun|]. split; [|exact Hout].
    rewrite Hget. apply Map_get_set_same. }
  destruct E3 as (w1 & E3 & Hget & Hout).
  rewrite (bind_returned _ _ _ _ _ E3).
  unfold forwardTextToUser. rewrite Htext.
  rewrite (truthy_nonempty text Hne).
  unfold bind at 1. unfold bind at 1. unfold bot_sendMessage at 1.
  fold relay.
  destruct (Telegram.sendMessage_answer env (outbox w1)
              (Telegram.ChatStr (Conversation.telegramUserId conversation))
              text None) as [sent|].
  - exists true, (record relay true w1).
    unfold ret at 1. unfold forwardMediaToUser. rewrite Hmedia.
    split; [reflexivity|]. split.
    + apply sent_since_app. simpl. now rewrite Hout.
    + unfold getMessage, gets. simpl. f_equal. exact Hget.
  - exists false, (record relay false w1).
    split; [reflexivity|]. split.
    + apply sent_since_app. simpl. now rewrite Hout.
    + unfold getMessage, gets. simpl. f_equal. exact Hget.
Qed.

Lemma support_reply_text_is_stored_then_relayed_witness :
  let w := Runs.after_help_update in
  let relay := Telegram.SendMessage (Telegram.ChatStr "111") "On it" None in
  let stored :=
    Message.mk 2 1 (Some "20") "5" "admin" (Some "Bob") (Some "On it")
      None None 1007 in
  exists (ok : bool) w',
    handleSupportGroupMessage Examples.ok_env Examples.admin_reply w
    = ((if ok then Returned tt else Thrown (GatewayError relay)), w') /\
    sent_since w w' = [Telegram.mkExchange relay ok] /\
    fst (getMessage (Message.id stored) w') = Returned (Some stored).
Proof.
  intros w.
  apply (support_reply_text_is_stored_then_relayed Examples.ok_env
           Examples.admin_reply Examples.bob (Telegram.mkReply 502)
           Examples.alice_conversation "On it" w).
  - reflexivity.
  - reflexivity.
  - vm_compute. reflexivity.
  - reflexivity.
  - discriminate.
  - reflexivity.
Defined.

(** X18. A message from a sender who already has a user and a
    conversation is stored before anything is forwarded: whatever the
    platform answers afterwards, and whether or not the handler fails,
    exactly this one message has been added, filed under the sender's
    conversation. *)
Theorem user_message_is_stored_before_forwarding
    env message from user conversation mediaUrl w :
  let telegramId := JS.toString (Telegram.id from) in
  Telegram.from message = Some from ->
  fst (getUserByTelegramId telegramId w) = Returned (Some user) ->
  fst (getConversationByTelegramUserId telegramId w)
  = Returned (Some conversation) ->
  fst (getFileId message w) = Returned mediaUrl ->
  let stored :=
    Message.mk (MemStorage.next_messages (the_ids w))
      (Conversation.id conversation)
      (Some (JS.toString (Telegram.message_id message)))
      telegramId "user" (Some (senderName from))
      (JS.or_null (Telegram.text message))
      (getMediaType message) mediaUrl (Telegram.clock env (ticks w)) in
  let w' := snd (handleUserDirectMessage env message w) in
  fst (getMessage (Message.id stored) w') = Returned (Some stored) /\
  (forall id, id <> Message.id stored ->
              fst (getMessage id w') = fst (getMessage id w)).
Proof.
  intros tid Hfrom Hu Hc Hfile stored w'.
  unfold getUserByTelegramId, gets in Hu. simpl in Hu. injection Hu as Hu.
  unfold getConversationByTelegramUserId, gets in Hc. simpl in Hc.
  injection Hc as Hc.
  assert (Hf : getFileId message w = (Returned mediaUrl, w)).
  { destruct (getFileId_pure message) as [o Ho]. rewrite Ho in Hfile |- *.
    simpl in Hfile. now rewrite Hfile. }
  destruct (createMessage_returns env
              (InsertMessage.mk (Conversation.id conversation)
                 (Some (JS.toString (Telegram.message_id message)))
                 tid "user" (Some (senderName from))
                 (JS.or_null (Telegram.text message))
                 (getMediaType message) mediaUrl) w)
    as (w1 & Hrun & Hms & _).
  assert (E3 : storeUserMessage env message from tid conversation w
               = (Returned stored, w1)).
  { unfold storeUserMessage, getMediaUrl.
    unfold bind at 1. unfold bind at 1. rewrite Hf.
    unfold ret at 1. unfold insertMessageSchema_parse. unfold bind at 1.
    unfold ret at 1. exact Hrun. }
  assert (E : the_messages w' = the_messages w1).
  { unfold w', handleUserDirectMessage. rewrite Hfrom.
    rewrite (bind_returned _ _ _ _ _
               (getOrCreateUser_known env message from tid w user Hu)).
    rewrite (bind_returned _ _ _ _ _
               (getOrCreateConversation_known env tid w conversation Hc)).
    rewrite (bind_returned _ _ _ _ _ E3).
    apply (forwardToSupport_messages env message from tid user conversation w1). }
  unfold getMessage, gets. simpl. fold (the_messages w') (the_messages w).
  rewrite E, Hms. split.
  - now rewrite Map_get_set_same.
  - intros id Hne. rewrite Map_get_set_other; [reflexivity|].
    intros H. apply Hne. now rewrite <- H.
Qed.

Lemma user_message_is_stored_before_forwarding_witness :
  let w := Runs.after_help_update in
  let stored :=
    Message.mk 2 1 (Some "8") "111" "user" (Some "Alice") (Some "hello?")
      None None 1007 in
  let w' := snd (handleUserDirectMessage Examples.ok_env Examples.msg_again w) in
  fst (getMessage (Message.id stored) w') = Returned (Some stored) /\
  (forall id, id <> Message.id stored ->
              fst (getMessage id w') = fst (getMessage id w)).
Proof.
  intros w.
  apply (user_message_is_stored_before_forwarding Examples.ok_env
           Examples.msg_again Examples.alice
           (User.mk 1 "111" None "Alice" None None (Some false) None 1000 None)
           Examples.alice_conversation None w).
  - reflexivity.
  - vm_compute. reflexivity.
  - vm_compute. reflexivity.
  - reflexivity.
Defined.

(** ** Events that are dropped *)

Section DroppedEvents.

Variable env : Telegram.Env.
Variable message : Telegram.Message.

Lemma getFileId_empty_photo w :
  Telegram.photo message = Some [] ->
  getFileId message w = (Thrown TypeError, w).
Proof. intros H. unfold getFileId. now rewrite H. Qed.

Lemma storeUserMessage_empty_photo from telegramId conversation w :
  Telegram.photo message = Some [] ->
  storeUserMessage env message from telegramId conversation w
  = (Thrown TypeError, w).
Proof.
  intros H. unfold storeUserMessage, getMediaUrl.
  unfold bind at 1. unfold bind at 1. now rewrite (getFileId_empty_photo w H).
Qed.

Lemma storeAdminMessage_empty_photo from conversation w :
  Telegram.photo message = Some [] ->
  storeAdminMessage env message from conversation w = (Thrown TypeError, w).
Proof.
  intros H. unfold storeAdminMessage, getMediaUrl.
  unfold bind at 1. unfold bind at 1. now rewrite (getFileId_empty_photo w H).
Qed.

Lemma handleUserDirectMessage_empty_photo from w :
  Telegram.photo message = Some [] ->
  Telegram.from message = Some from ->
  exists e w',
    handleUserDirectMessage env message w = (Thrown e, w') /\
    the_messages w' = the_messages w /\
    the_issues w' = the_issues w /\
    sends (fun x => is_welcome_call x = true) w w'.
Proof.
  intros Hphoto Hfrom. unfold handleUserDirectMessage. rewrite Hfrom.
  set (tid := JS.toString (Telegram.id from)).
  set (R := both (same the_messages)
              (both (same the_issues)
                 (sends (fun x => is_welcome_call x = true)))).
  assert (PR : preorder R) by (unfold R; auto with frame).
  assert (F1 : respects R (getOrCreateUser env message from tid))
    by (unfold R; repeat apply respects_both; router_frames).
  assert (F2 : respects R (getOrCreateConversation env tid))
    by (unfold R; repeat apply respects_both; router_frames).
  specialize (F1 w).
  destruct (getOrCreateUser env message from tid w) as [[user|e] w1] eqn:E1;
    simpl in F1.
  2:{ rewrite (bind_thrown _ _ _ _ _ E1). exists e, w1.
      split; [reflexivity|]. exact F1. }
  rewrite (bind_returned _ _ _ _ _ E1).
  specialize (F2 w1).
  destruct (getOrCreateConversation env tid w1) as [[conv|e] w2] eqn:E2;
    simpl in F2.
  2:{ rewrite (bind_thrown _ _ _ _ _ E2). exists e, w2.
      split; [reflexivity|]. exact (pre_trans R PR _ _ _ F1 F2). }
  rewrite (bind_returned _ _ _ _ _ E2).
  rewrite (bind_thrown _ _ _ _ _
             (storeUserMessage_empty_photo from tid conv w2 Hphoto)).
  exists TypeError, w2. split; [reflexivity|].
  exact (pre_trans R PR _ _ _ F1 F2).
Qed.

Lemma handleSupportGroupMessage_empty_photo w :
  Telegram.photo message = Some [] ->
  snd (handleSupportGroupMessage env message w) = w.
Proof.
  intros Hphoto. unfold handleSupportGroupMessage.
  destruct (Telegram.from message) as [from|]; [|reflexivity].
  destruct (Telegram.reply_to_message message) as [reply|]; [|reflexivity].
  unfold bind at 1. unfold getConversationByThreadId at 1, gets at 1.
  destruct (find _ _) as [c|]; [|reflexivity].
  now rewrite (bind_thrown _ _ _ _ _
                 (storeAdminMessage_empty_photo from c w Hphoto)).
Qed.

End DroppedEvents.

(** X19. A message whose [photo] array is empty is never stored and never
    forwarded, in either direction: reading the file id of its last
    element throws, and the event is dropped.  From a user, the handler
    fails after the user and the conversation were looked up or created;
    nothing but the welcome can have been sent and no issue is opened. *)
Theorem empty_photo_array_drops_the_message env message w :
  Telegram.photo message = Some [] ->
  let w' := snd (handleIncomingMessage env message w) in
  the_messages w' = the_messages w /\
  the_issues w' = the_issues w /\
  (exists sent,
     outbox w' = outbox w ++ sent /\
     Forall (fun x => is_welcome_call x = true) sent) /\
  (forall from,
     Telegram.from message = Some from ->
     in_support_group w message = false ->
     exists e, fst (handleIncomingMessage env message w) = Thrown e).
Proof.
  intros Hphoto w'. unfold w'. rewrite handleIncomingMessage_dispatch.
  destruct (in_support_group w message) eqn:Hgroup.
  - rewrite (handleSupportGroupMessage_empty_photo env message w Hphoto).
    split; [reflexivity|]. split; [reflexivity|]. split.
    + exists []. split; [now rewrite app_nil_r|constructor].
    + intros from _ H. discriminate H.
  - destruct (Telegram.from message) as [from|] eqn:Hfrom.
    + destruct (handleUserDirectMessage_empty_photo env message from w
                  Hphoto Hfrom) as (e & w1 & E & Hm & Hi & Hs).
      rewrite E. simpl. split; [exact Hm|]. split; [exact Hi|].
      split; [exact Hs|]. intros from' _ _. now exists e.
    + unfold handleUserDirectMessage. rewrite Hfrom. simpl.
      split; [reflexivity|]. split; [reflexivity|]. split.
      * exists []. split; [now rewrite app_nil_r|constructor].
      * intros from H. discriminate H.
Qed.

Lemma empty_photo_array_drops_the_message_witness :
  let message :=
    Telegram.mkMessage 12 (Some Examples.alice) 111 None None None
      (Some []) None None None None in
  let w := Runs.after_help_update in
  let w' := snd (handleIncomingMessage Examples.ok_env message w) in
  the_messages w' = the_messages w /\
  the_issues w' = the_issues w /\
  (exists sent,
     outbox w' = outbox w ++ sent /\
     Forall (fun x => is_welcome_call x = true) sent) /\
  (forall from,
     Telegram.from message = Some from ->
     in_support_group w message = false ->
     exists e, fst (handleIncomingMessage Examples.ok_env message w) = Thrown e).
Proof.
  intros message w.
  apply (empty_photo_array_drops_the_message Examples.ok_env message w).
  reflexivity.
Defined.

(** ** First contact *)

(** X20. The first message of an unknown sender is answered by the
    welcome before anything else happens, and never by a second one.
    When the platform rejects the welcome the event ends there: the
    handler fails, nothing else is sent, and neither a conversation nor
    the message is stored. *)
Theorem first_contact_is_welcomed_first env message from w :
  let telegramId := JS.toString (Telegram.id from) in
  let welcome :=
    Telegram.SendMessage (Telegram.ChatNum (Telegram.chat_id message))
      WELCOME None in
  Telegram.from message = Some from ->
  fst (getUserByTelegramId telegramId w) = Returned None ->
  exists (ok : bool) rest o w',
    handleUserDirectMessage env message w = (o, w') /\
    sent_since w w' = Telegram.mkExchange welcome ok :: rest /\
    Forall (fun x => is_welcome_call x = false) rest /\
    (ok = false ->
     rest = [] /\
     o = Thrown (GatewayError welcome) /\
     the_conversations w' = the_conversations w /\
     the_messages w' = the_messages w).
Proof.
  intros tid welcome Hfrom Hu.
  unfold getUserByTelegramId, gets in Hu. simpl in Hu. injection Hu as Hu.
  destruct (getOrCreateUser_new env message from tid w Hu)
    as (u & ok & w1 & E1 & _ & _ & _ & _ & Hout & Hconv & Hmsg & _).
  fold welcome in E1, Hout.
  unfold handleUserDirectMessage. rewrite Hfrom. fold tid.
  destruct ok.
  - rewrite (bind_returned _ _ _ _ _ E1).
    set (rest_of := conversation <- getOrCreateConversation env tid ;;
                    storeUserMessage env message from tid conversation ;;;
                    forwardToSupport env message from tid u conversation).
    assert (F : respects (sends (fun x => is_welcome_call x = false)) rest_of)
      by (unfold rest_of; router_frames).
    specialize (F w1). destruct F as (new & Hnew & Hall).
    destruct (rest_of w1) as [o w'] eqn:E. simpl in Hnew.
    exists true, new, o, w'. split; [reflexivity|]. split; [|split].
    + exact (sent_since_trans w w1 w' _ _ Hout Hnew).
    + exact Hall.
    + discriminate.
  - rewrite (bind_thrown _ _ _ _ _ E1).
    exists false, [], (Thrown (GatewayError welcome)), w1.
    split; [reflexivity|]. split; [|split].
    + now apply sent_since_app.
    + constructor.
    + intros _. now repeat split.
Qed.

Lemma first_contact_is_welcomed_first_witness :
  let welcome := Telegram.SendMessage (Telegram.ChatNum 111) WELCOME None in
  exists (ok : bool) rest o w',
    handleUserDirectMessage Examples.no_send_env Examples.msg_help
      Examples.support_world = (o, w') /\
    sent_since Examples.support_world w'
    = Telegram.mkExchange welcome ok :: rest /\
    Forall (fun x => is_welcome_call x = false) rest /\
    (ok = false ->
     rest = [] /\
     o = Thrown (GatewayError welcome) /\
     the_conversations w' = the_conversations Examples.support_world /\
     the_messages w' = the_messages Examples.support_world).
Proof.
  apply (first_contact_is_welcomed_first Examples.no_send_env
           Examples.msg_help Examples.alice Examples.support_world).
  - reflexivity.
  - reflexivity.
Defined.

(** ** The support group setting *)

Section Unconfigured.

Variable env : Telegram.Env.
Variable message : Telegram.Message.

Lemma forwardToSupport_unconfigured from telegramId user conversation w :
  JS.truthy (supportGroupId w) = false ->
  forwardToSupport env message from telegramId user conversation w
  = (Returned tt, w).
Proof.
  intros H. unfold forwardToSupport, getSupportGroupId, bind, gets.
  destruct (supportGroupId w) as [g|]; [|reflexivity].
  now rewrite H.
Qed.

Lemma handleUserDirectMessage_unconfigured w :
  JS.truthy (supportGroupId w) = false ->
  let w' := snd (handleUserDirectMessage env message w) in
  the_issues w' = the_issues w /\
  sends (fun x => is_welcome_call x = true) w w'.
Proof.
  intros Hg. unfold handleUserDirectMessage.
  destruct (Telegram.from message) as [from|].
  2:{ simpl. split; [reflexivity|].
      exists []. split; [now rewrite app_nil_r|constructor]. }
  set (tid := JS.toString (Telegram.id from)).
  set (R := both (same supportGroupId)
              (both (same the_issues)
                 (sends (fun x => is_welcome_call x = true)))).
  assert (PR : preorder R) by (unfold R; auto with frame).
  assert (F1 : respects R (getOrCreateUser env message from tid))
    by (unfold R; repeat apply respects_both; router_frames).
  assert (F2 : respects R (getOrCreateConversation env tid))
    by (unfold R; repeat apply respects_both; router_frames).
  assert (F3 : forall conv,
             respects R (storeUserMessage env message from tid conv))
    by (intros conv; unfold R; repeat apply respects_both; router_frames).
  specialize (F1 w).
  destruct (getOrCreateUser env message from tid w) as [[user|e] w1] eqn:E1;
    simpl in F1.
  2:{ rewrite (bind_thrown _ _ _ _ _ E1). simpl. apply F1. }
  rewrite (bind_returned _ _ _ _ _ E1).
  specialize (F2 w1).
  destruct (getOrCreateConversation env tid w1) as [[conv|e] w2] eqn:E2;
    simpl in F2.
  2:{ rewrite (bind_thrown _ _ _ _ _ E2). simpl.
      apply (pre_trans R PR _ _ _ F1 F2). }
  rewrite (bind_returned _ _ _ _ _ E2).
  specialize (F3 conv w2).
  destruct (storeUserMessage env message from tid conv w2) as [[m|e] w3] eqn:E3;
    simpl in F3.
  2:{ rewrite (bind_thrown _ _ _ _ _ E3). simpl.
      apply (pre_trans R PR _ _ _ (pre_trans R PR _ _ _ F1 F2) F3). }
  rewrite (bind_returned _ _ _ _ _ E3).
  assert (F : R w w3)
    by exact (pre_trans R PR _ _ _ (pre_trans R PR _ _ _ F1 F2) F3).
  rewrite forwardToSupport_unconfigured.
  - simpl. apply F.
  - destruct F as [Hs _]. unfold same in Hs. now rewrite Hs.
Qed.

End Unconfigured.

(** X21. Setting the support group through the route is read back by the
    route that gets it and changes neither the store nor the outbox.
    From then on a message is handled as a support message exactly when
    the group id is not empty and the chat id of the message prints as
    it; with the empty string every message is handled as a direct
    message, and then nothing is forwarded: at most the welcome is sent
    and no issue is opened.  A body without a string [groupId] is
    answered 500 and changes nothing. *)
Theorem support_group_setting_takes_effect env groupId w :
  let w1 := snd (Routes.post_support_group (Some groupId) w) in
  Routes.post_support_group (Some groupId) w
  = (Returned (Routes.Success groupId), w1) /\
  Routes.get_support_group w1
  = (Returned (Routes.Success (Some groupId)), w1) /\
  storage w1 = storage w /\
  outbox w1 = outbox w /\
  (forall message,
     handleIncomingMessage env message w1
     = if negb (groupId =? "")%string &&
          (JS.toString (Telegram.chat_id message) =? groupId)%string
       then handleSupportGroupMessage env message w1
       else handleUserDirectMessage env message w1) /\
  (groupId = ""%string ->
   forall message,
     let w2 := snd (handleIncomingMessage env message w1) in
     the_issues w2 = the_issues w1 /\
     exists sent,
       outbox w2 = outbox w1 ++ sent /\
       Forall (fun x => is_welcome_call x = true) sent) /\
  Routes.post_support_group None w
  = (Returned (Routes.Failure 500 "Failed to set support group ID"), w).
Proof.
  intros w1.
  split; [reflexivity|]. split; [reflexivity|].
  split; [reflexivity|]. split; [reflexivity|]. split; [|split].
  - intros message. rewrite handleIncomingMessage_dispatch.
    reflexivity.
  - intros -> message w2. unfold w2.
    rewrite handleIncomingMessage_dispatch.
    change (in_support_group w1 message) with false. cbv iota.
    apply (handleUserDirectMessage_unconfigured env message w1).
    reflexivity.
  - reflexivity.
Qed.

(** ** A conversation without a thread *)

(** X22. While a conversation has no thread reference and a support
    group is configured, every stored message of its owner starts the
    thread set-up again: after the profile photo calls the introduction
    is posted to the group once more, and when it is accepted the topic
    creation is attempted once more; no further topic is asked for in
    the event.  A rejected introduction ends the event. *)
Theorem thread_creation_is_retried
    env message from user conversation groupId mediaUrl w o w' :
  let telegramId := JS.toString (Telegram.id from) in
  Telegram.from message = Some from ->
  fst (getUserByTelegramId telegramId w) = Returned (Some user) ->
  fst (getConversationByTelegramUserId telegramId w)
  = Returned (Some conversation) ->
  Conversation.threadId conversation = None ->
  supportGroupId w = Some groupId ->
  groupId <> ""%string ->
  fst (getFileId message w) = Returned mediaUrl ->
  handleUserDirectMessage env message w = (o, w') ->
  exists setup now (posted : bool) rest,
    let intro :=
      Telegram.SendMessage (Telegram.ChatStr groupId)
        (userInfoText env from telegramId now)
        (Some (Telegram.mkOptions None None (Some "HTML"%string))) in
    let topic :=
      Telegram.CreateForumTopic (Telegram.ChatStr groupId)
        (Telegram.first_name from) in
    sent_since w w' = setup ++ Telegram.mkExchange intro posted :: rest /\
    Forall (fun x => is_thread_setup_call x = true) setup /\
    (posted = false -> rest = [] /\ o = Thrown (GatewayError intro)) /\
    (posted = true ->
     exists (opened : bool) rest',
       rest = Telegram.mkExchange topic opened :: rest' /\
       Forall (fun x => is_topic_call x = false) rest').
Proof.
  intros tid Hfrom Hu Hc Hthread Hgroup Hne Hfile Hrun.
  unfold getUserByTelegramId, gets in Hu. simpl in Hu. injection Hu as Hu.
  unfold getConversationByTelegramUserId, gets in Hc. simpl in Hc.
  injection Hc as Hc.
  assert (Hf : getFileId message w = (Returned mediaUrl, w)).
  { destruct (getFileId_pure message) as [o0 Ho]. rewrite Ho in Hfile |- *.
    simpl in Hfile. now rewrite Hfile. }
  destruct (createMessage_returns env
              (InsertMessage.mk (Conversation.id conversation)
                 (Some (JS.toString (Telegram.message_id message)))
                 tid "user" (Some (senderName from))
                 (JS.or_null (Telegram.text message))
                 (getMediaType message) mediaUrl) w)
    as (w1 & Hstore & _ & Hout1 & Hgroup1).
  assert (E3 : exists m, storeUserMessage env message from tid conversation w
                         = (Returned m, w1)).
  { eexists. unfold storeUserMessage, getMediaUrl.
    unfold bind at 1. unfold bind at 1. rewrite Hf.
    unfold ret at 1. unfold insertMessageSchema_parse. unfold bind at 1.
    unfold ret at 1. exact Hstore. }
  destruct E3 as [m E3].
  unfold handleUserDirectMessage in Hrun. rewrite Hfrom in Hrun.
  run_returned Hrun (getOrCreateUser_known env message from tid w user Hu).
  run_returned Hrun (getOrCreateConversation_known env tid w conversation Hc).
  run_returned Hrun E3.
  unfold forwardToSupport in Hrun. unfold bind at 1 in Hrun.
  unfold getSupportGroupId, gets in Hrun. rewrite Hgroup1, Hgroup in Hrun.
  rewrite (truthy_nonempty groupId Hne) in Hrun.
  unfold ensureThread in Hrun. rewrite Hthread in Hrun. simpl negb in Hrun.
  cbv iota in Hrun.
  destruct (bind_inv _ _ _ _ _ Hrun)
    as [(e & Hthrown & ->)|(c' & w4 & Hcreated & Hforward)].
  - destruct (createThread_run env from tid groupId user conversation w1 _ _
                Hthrown) as (w2 & now & Hphoto & Hcases).
    pose proof (fetchProfilePhoto_frame env tid user w1) as Fp.
    rewrite Hphoto in Fp. simpl in Fp.
    destruct Fp as (_ & _ & _ & _ & _ & _ & setup & Hsetup & Hall).
    destruct Hcases as [(Ho & _ & _ & Hout)|[(Ho & _)|(tm & op & Ho & _)]];
      try discriminate Ho.
    exists setup, now, false, []. cbv zeta. split; [|split; [exact Hall|split]].
    + apply sent_since_app. rewrite Hout, Hsetup, Hout1.
      now rewrite <- app_assoc.
    + intros _. split; [reflexivity|]. injection Ho as ->. reflexivity.
    + discriminate.
  - destruct (createThread_run env from tid groupId user conversation w1 _ _
                Hcreated) as (w2 & now & Hphoto & Hcases).
    pose proof (fetchProfilePhoto_frame env tid user w1) as Fp.
    rewrite Hphoto in Fp. simpl in Fp.
    destruct Fp as (_ & _ & _ & _ & _ & _ & setup & Hsetup & Hall).
    pose proof (forwarding_frame env message from groupId c' w4) as Ff.
    rewrite Hforward in Ff. simpl in Ff.
    destruct Ff as (_ & _ & rest' & Hrest & Hnone).
    destruct Hcases
      as [(Ho & _)|[(Ho & _ & _ & Hout)|(tm & op & Ho & _ & Hout & _)]];
      try discriminate Ho.
    + exists setup, now, true, (Telegram.mkExchange
                                  (Telegram.CreateForumTopic
                                     (Telegram.ChatStr groupId)
                                     (Telegram.first_name from)) false :: rest').
      cbv zeta. split; [|split; [exact Hall|split]].
      * apply sent_since_app. rewrite Hrest, Hout, Hsetup, Hout1.
        rewrite <- !app_assoc. reflexivity.
      * discriminate.
      * intros _. exists false, rest'. now split.
    + exists setup, now, true, (Telegram.mkExchange
                                  (Telegram.CreateForumTopic
                                     (Telegram.ChatStr groupId)
                                     (Telegram.first_name from)) true :: rest').
      cbv zeta. split; [|split; [exact Hall|split]].
      * apply sent_since_app. rewrite Hrest, Hout, Hsetup, Hout1.
        rewrite <- !app_assoc. reflexivity.
      * discriminate.
      * intros _. exists true, rest'. now split.
Qed.

Lemma thread_creation_is_retried_witness :
  let w := Examples.after_help_no_topic in
  let w' := snd (handleUserDirectMessage Examples.no_topic_env
                   Examples.msg_again w) in
  exists setup now (posted : bool) rest,
    let intro :=
      Telegram.SendMessage (Telegram.ChatStr "-100")
        (userInfoText Examples.no_topic_env Examples.alice "111" now)
        (Some (Telegram.mkOptions None None (Some "HTML"%string))) in
    let topic :=
      Telegram.CreateForumTopic (Telegram.ChatStr "-100") "Alice" in
    sent_since w w' = setup ++ Telegram.mkExchange intro posted :: rest /\
    Forall (fun x => is_thread_setup_call x = true) setup /\
    (posted = false -> rest = [] /\ Returned tt = Thrown (GatewayError intro)) /\
    (posted = true ->
     exists (opened : bool) rest',
       rest = Telegram.mkExchange topic opened :: rest' /\
       Forall (fun x => is_topic_call x = false) rest').
Proof.
  intros w w'.
  apply (thread_creation_is_retried Examples.no_topic_env Examples.msg_again
           Examples.alice
           (User.mk 1 "111" None "Alice" None None (Some false) None 1000 None)
           (Conversation.mk 1 "111" None "open" 1003 1001)
           "-100" None w (Returned tt) w').
  - reflexivity.
  - vm_compute. reflexivity.
  - vm_compute. reflexivity.
  - reflexivity.
  - reflexivity.
  - discriminate.
  - reflexivity.
  - vm_compute. reflexivity.
Defined.

(** ** The profile photo *)



(** ** The read routes *)

Lemma slice_from_In {A} (start : Z) (l : list A) x :
  In x (JS.slice_from start l) -> In x l.
Proof.
  unfold JS.slice_from. intros H.
  rewrite <- (firstn_skipn (Z.to_nat (if start <? 0
                                       then Z.max (Z.of_nat (List.length l) + start) 0
                                       else Z.min start (Z.of_nat (List.length l)))) l).
  apply in_or_app. now right.
Qed.

Lemma listSupportIssuesByUserId_members userId w :
  exists result,
    listSupportIssuesByUserId userId w = (Returned result, w) /\
    forall issue,
      In issue result <->
      In issue (JS.Map_values (the_issues w)) /\
      SupportIssue.userId issue = userId.
Proof.
  eexists. split; [reflexivity|]. intros issue.
  destruct (sort_newest_first SupportIssue.openedAt
              (filter (fun i => (SupportIssue.userId i =? userId)%string)
                 (JS.Map_values (the_issues w)))) as (Hperm & _).
  split.
  - intros Hin. apply (Permutation_in _ (Permutation_sym Hperm)) in Hin.
    apply filter_In in Hin. destruct Hin as [Hin He].
    split; [exact Hin|]. now apply String.eqb_eq.
  - intros [Hin He]. apply (Permutation_in _ Hperm).
    apply filter_In. split; [exact Hin|]. now apply String.eqb_eq.
Qed.

(** X24. [GET /api/conversations/:id] never changes the state and never
    answers 500.  It answers 400 exactly when [parseInt] reads no number
    off the parameter, 404 when the number is not the id of a stored
    conversation, and otherwise the conversation stored under that
    number; in particular the printed id of a stored conversation gets
    that conversation back. *)
Theorem get_conversation_answers id w :
  (exists r,
     Routes.get_conversation id w = (Returned r, w) /\
     match r with
     | Routes.Success c =>
         exists n, JS.parseInt id = JS.Num n /\
                   fst (getConversation n w) = Returned (Some c)
     | Routes.Failure status _ =>
         (status = 400 /\ JS.parseInt id = JS.NaN) \/
         (status = 404 /\
          exists n, JS.parseInt id = JS.Num n /\
                    fst (getConversation n w) = Returned None)
     | Routes.Text _ _ => False
     end) /\
  (forall n c,
     fst (getConversation n w) = Returned (Some c) ->
     Routes.get_conversation (JS.toString n) w
     = (Returned (Routes.Success c), w)).
Proof.
  split.
  - unfold Routes.get_conversation, try_catch, bind, getConversation, gets, ret.
    destruct (JS.parseInt id) as [|n] eqn:E.
    + eexists. split; [reflexivity|]. left. split; reflexivity.
    + simpl.
      destruct (JS.Map_get n (MemStorage.conversations (storage w)))
        as [c|] eqn:Hc.
      * eexists. split; [reflexivity|]. exists n. split; [reflexivity|].
        simpl. now rewrite Hc.
      * eexists. split; [reflexivity|]. right. split; [reflexivity|].
        exists n. split; [reflexivity|]. simpl. congruence.
  - intros n c H.
    unfold Routes.get_conversation, try_catch, bind, getConversation, gets, ret
      in H |- *.
    rewrite parseInt_toString. simpl in H |- *. injection H as H.
    now rewrite H.
Qed.

(** X25. [GET /api/users/:id] never changes the state and never answers
    500: it answers 400 when [parseInt] reads no number off the
    parameter, 404 when the number is not the id of a stored user, and
    otherwise that user with the issues [listSupportIssuesByUserId]
    returns for the user's external id; the printed id of a stored user
    gets that user back. *)
Theorem get_user_answers id w :
  (exists r,
     Routes.get_user id w = (Returned r, w) /\
     match r with
     | Routes.Success data =>
         exists n,
           JS.parseInt id = JS.Num n /\
           fst (getUser n w) = Returned (Some (Routes.the_user data)) /\
           fst (listSupportIssuesByUserId
                  (User.telegramId (Routes.the_user data)) w)
           = Returned (Routes.supportIssues data)
     | Routes.Failure status _ =>
         (status = 400 /\ JS.parseInt id = JS.NaN) \/
         (status = 404 /\
          exists n, JS.parseInt id = JS.Num n /\
                    fst (getUser n w) = Returned None)
     | Routes.Text _ _ => False
     end) /\
  (forall n user,
     fst (getUser n w) = Returned (Some user) ->
     exists issues,
       Routes.get_user (JS.toString n) w
       = (Returned (Routes.Success (Routes.mkUserData user issues)), w) /\
       forall issue,
         In issue issues <->
         In issue (JS.Map_values (the_issues w)) /\
         SupportIssue.userId issue = User.telegramId user).
Proof.
  split.
  - unfold Routes.get_user, try_catch, bind, getUser, listSupportIssuesByUserId,
      gets, ret.
    destruct (JS.parseInt id) as [|n] eqn:E.
    + eexists. split; [reflexivity|]. left. split; reflexivity.
    + simpl.
      destruct (JS.Map_get n (MemStorage.users (storage w))) as [u|] eqn:Hu.
      * eexists. split; [reflexivity|]. exists n. simpl.
        split; [reflexivity|]. split; [now rewrite Hu|reflexivity].
      * eexists. split; [reflexivity|]. right. split; [reflexivity|].
        exists n. split; [reflexivity|]. simpl. congruence.
  - intros n user H.
    destruct (listSupportIssuesByUserId_members
                (User.telegramId user) w) as (issues & Hrun & Hin).
    exists issues. split; [|exact Hin].
    assert (Hget : getUser n w = (Returned (Some user), w)).
    { unfold getUser, gets in H |- *. simpl in H. injection H as H.
      now rewrite H. }
    unfold Routes.get_user, try_catch. rewrite parseInt_toString.
    rewrite (bind_returned _ _ _ _ _ Hget).
    rewrite (bind_returned _ _ _ _ _ Hrun). reflexivity.
Qed.

Lemma sort_In {A} (cmp : A -> A -> Z) (l : list A) x :
  In x (JS.sort cmp l) -> In x l.
Proof.
  revert x. induction l as [|a l IH]; simpl; [trivial|].
  assert (Hins : forall y s, In y (JS.sort_insert cmp a s) -> y = a \/ In y s).
  { intros y s. induction s as [|b s IHs]; simpl.
    - intros [<-|[]]. now left.
    - destruct (cmp a b <=? 0); simpl.
      + intros [<-|[<-|H]]; [now left|right; now left|right; now right].
      + intros [<-|H]; [right; now left|].
        destruct (IHs H) as [->|H']; [now left|right; now right]. }
  intros x Hx. destruct (Hins x _ Hx) as [->|H]; [now left|right; now apply IH].
Qed.

(** X26. The two list routes never change the state and never answer
    500.  [GET /api/users] returns every stored user, latest joined
    first (ties in the order they were created); [GET
    /api/conversations] returns what [listConversations] returns with
    its default limit: at most the 50 conversations with the latest
    activity, latest first. *)
Theorem list_routes_answer_newest_first w :
  (exists users,
     Routes.get_users w = (Returned (Routes.Success users), w) /\
     Permutation (JS.Map_values (the_users w)) users /\
     StronglySorted (fun a b => User.joinedAt b <= User.joinedAt a) users /\
     (forall t,
        filter (fun u => User.joinedAt u =? t) users
        = filter (fun u => User.joinedAt u =? t)
            (JS.Map_values (the_users w)))) /\
  (exists conversations later,
     Routes.get_conversations w
     = (Returned (Routes.Success conversations), w) /\
     fst (listConversations (Some 50) w) = Returned conversations /\
     Permutation (JS.Map_values (the_conversations w)) (conversations ++ later) /\
     StronglySorted
       (fun a b => Conversation.lastMessageAt b <= Conversation.lastMessageAt a)
       (conversations ++ later) /\
     Z.of_nat (List.length conversations)
     = Z.min 50 (Z.of_nat (List.length (JS.Map_values (the_conversations w))))).
Proof.
  split.
  - destruct (sort_newest_first User.joinedAt (JS.Map_values (the_users w)))
      as (Hperm & Hsorted & Hstable).
    eexists. split; [reflexivity|]. now repeat split.
  - destruct (sort_newest_first Conversation.lastMessageAt
                (JS.Map_values (the_conversations w)))
      as (Hperm & Hsorted & _).
    set (sorted := JS.sort
           (fun a b => Conversation.lastMessageAt b - Conversation.lastMessageAt a)
           (JS.Map_values (the_conversations w))) in *.
    destruct (slice_to_prefix 50 sorted) as (later & Hsplit & Hlen).
    exists (JS.slice_to 50 sorted), later.
    split; [reflexivity|]. split; [reflexivity|].
    rewrite <- Hsplit. split; [exact Hperm|]. split; [exact Hsorted|].
    rewrite Hlen. simpl. now rewrite (Permutation_length Hperm).
Qed.

Lemma WellFormed_owner_stored w id c :
  WellFormed w ->
  JS.Map_get id (the_conversations w) = Some c ->
  exists user,
    user_of (Conversation.telegramUserId c) w = Some user /\
    User.telegramId user = Conversation.telegramUserId c.
Proof.
  intros WF H.
  assert (Hcore : In (id, conversation_core c) (conversation_index w)).
  { unfold conversation_index, Map_view. apply in_map_iff.
    exists (id, c). split; [reflexivity|now apply Map_get_In]. }
  assert (Hown : In (Conversation.telegramUserId c)
                   (JS.Map_values (user_index w))).
  { apply (wf_conversation_users w WF (conversation_core c)).
    eapply Map_In_values. exact Hcore. }
  destruct (user_of (Conversation.telegramUserId c) w) as [u|] eqn:Hu.
  - exists u. split; [reflexivity|].
    unfold user_of in Hu. apply find_some in Hu.
    now apply String.eqb_eq.
  - exfalso. now apply (user_of_none_index (Conversation.telegramUserId c) w).
Qed.

Lemma WellFormed_issue_thread w n c issue :
  WellFormed w ->
  JS.Map_get n (the_conversations w) = Some c ->
  find (fun i => SupportIssue.conversationId i =? n)
    (JS.Map_values (the_issues w)) = Some issue ->
  SupportIssue.conversationId issue = n /\
  JS.truthy (Conversation.threadId c) = true.
Proof.
  intros WF Hc Hf. apply find_some in Hf. destruct Hf as [Hin Heq].
  apply Z.eqb_eq in Heq. split; [exact Heq|].
  destruct (wf_issues w WF issue Hin) as (x & Hx & Ht).
  unfold conversation_index in Hx. rewrite Map_view_get, Heq, Hc in Hx.
  simpl in Hx. injection Hx as <-. exact Ht.
Qed.

(** X27. In every state the process reaches, [GET
    /api/conversations/:id/messages] with the printed id of a stored
    conversation answers with that conversation, at most 50 messages
    that all belong to it, its owner (always present: the stored user
    with the conversation's external id) and the support issue found for
    it; an issue is only present when the conversation has a thread
    reference.  The state is not changed. *)
Theorem get_conversation_messages_is_complete env w n c :
  reachable env w ->
  fst (getConversation n w) = Returned (Some c) ->
  exists messages user issue,
    Routes.get_conversation_messages (JS.toString n) w
    = (Returned
         (Routes.Success
            (Routes.mkConversationData c messages (Some user) issue)), w) /\
    fst (getMessagesByConversationId n None w) = Returned messages /\
    Forall (fun m => Message.conversationId m = n) messages /\
    (List.length messages <= 50)%nat /\
    User.telegramId user = Conversation.telegramUserId c /\
    fst (getSupportIssueByConversationId n w) = Returned issue /\
    (forall i, issue = Some i ->
               SupportIssue.conversationId i = n /\
               JS.truthy (Conversation.threadId c) = true).
Proof.
  intros Hr Hc. pose proof (reachable_WellFormed env w Hr) as WF.
  unfold getConversation, gets in Hc. simpl in Hc. injection Hc as Hc.
  fold (the_conversations w) in Hc.
  destruct (WellFormed_owner_stored w n c WF Hc) as (user & Hu & Htid).
  set (messages := JS.slice_from (- 50)
                     (JS.sort (fun a b => Message.sentAt a - Message.sentAt b)
                        (stored_messages n w))).
  set (issue := find (fun i => SupportIssue.conversationId i =? n)
                  (JS.Map_values (the_issues w))).
  exists messages, user, issue.
  split; [|split; [reflexivity|split; [|split; [|split; [exact Htid|split]]]]].
  - assert (Hget : getConversation n w = (Returned (Some c), w)).
    { unfold getConversation, gets. fold (the_conversations w).
      now rewrite Hc. }
    assert (Hmsg : getMessagesByConversationId n None w
                   = (Returned messages, w)) by reflexivity.
    assert (Hgu : getUserByTelegramId (Conversation.telegramUserId c) w
                  = (Returned (Some user), w)).
    { rewrite getUserByTelegramId_user_of. now rewrite Hu. }
    unfold Routes.get_conversation_messages, try_catch.
    rewrite parseInt_toString.
    rewrite (bind_returned _ _ _ _ _ Hget).
    rewrite (bind_returned _ _ _ _ _ Hmsg).
    rewrite (bind_returned _ _ _ _ _ Hgu). reflexivity.
  - apply Forall_forall. intros m Hm. unfold messages in Hm.
    apply slice_from_In, sort_In in Hm. unfold stored_messages in Hm.
    apply filter_In in Hm. destruct Hm as [_ Hm]. now apply Z.eqb_eq.
  - destruct (slice_from_neg_positive 50
                (JS.sort (fun a b => Message.sentAt a - Message.sentAt b)
                   (stored_messages n w))) as (older & _ & Hlen); [lia|].
    assert (Hb : Z.of_nat (List.length messages)
                 = Z.min 50 (Z.of_nat (List.length
                      (JS.sort (fun a b => Message.sentAt a - Message.sentAt b)
                         (stored_messages n w))))) by exact Hlen.
    lia.
  - reflexivity.
  - intros i Hi. exact (WellFormed_issue_thread w n c i WF Hc Hi).
Qed.

Lemma get_conversation_messages_is_complete_witness :
  let w := Runs.after_reply_update in
  let c := Conversation.mk 1 "111" (Some "502") "open" 1008 1001 in
  exists messages user issue,
    Routes.get_conversation_messages (JS.toString 1) w
    = (Returned
         (Routes.Success
            (Routes.mkConversationData c messages (Some user) issue)), w) /\
    fst (getMessagesByConversationId 1 None w) = Returned messages /\
    Forall (fun m => Message.conversationId m = 1) messages /\
    (List.length messages <= 50)%nat /\
    User.telegramId user = Conversation.telegramUserId c /\
    fst (getSupportIssueByConversationId 1 w) = Returned issue /\
    (forall i, issue = Some i ->
               SupportIssue.conversationId i = 1 /\
               JS.truthy (Conversation.threadId c) = true).
Proof.
  intros w c.
  apply (get_conversation_messages_is_complete Examples.ok_env w 1 c).
  - apply reach_update. apply reach_update.
    apply (reach_group Examples.ok_env "-100" initial_world), reach_initial.
  - vm_compute. reflexivity.
Defined.

(** ** What later events leave alone *)

Lemma reachable_later env w : reachable env w -> later env initial_world w.
Proof.
  induction 1 as [|update w _ IH|groupId w _ IH].
  - apply later_now.
  - now apply later_update.
  - now apply later_group.
Qed.

(** *** Messages *)

Lemma preorder_messages_kept : preorder messages_kept.
Proof.
  split.
  - intros w H. split; [exact H|trivial].
  - intros w1 w2 w3 H12 H23 H1.
    destruct (H12 H1) as [H2 K12]. destruct (H23 H2) as [H3 K23].
    split; [exact H3|]. intros k m H. now apply K23, K12.
Qed.

#[local] Hint Resolve preorder_messages_kept : frame.

Lemma messages_kept_quiet {A} (m : M A) :
  respects (same the_messages) m ->
  respects (same (fun w => MemStorage.next_messages (the_ids w))) m ->
  respects messages_kept m.
Proof.
  intros Hm Hn w H. specialize (Hm w). specialize (Hn w).
  unfold same in Hm, Hn. rewrite Hm, Hn. split; [exact H|trivial].
Qed.

#[local] Hint Extern 1 (respects messages_kept _) =>
  (apply messages_kept_quiet; [solve [frame_leaf] | solve [frame_leaf]])
  : frame_leaves.

Section MessagesKept.

Variable env : Telegram.Env.

Lemma createMessage_kept im : respects messages_kept (createMessage env im).
Proof.
  intros w Hk.
  destruct (createMessage_world env im w) as (n & _ & _ & Hid & m & _ & Hms).
  assert (Hfresh : ~ In (MemStorage.next_messages (the_ids w))
                        (JS.Map_keys (the_messages w))).
  { intros Hin. apply Hk in Hin. lia. }
  split.
  - rewrite Hms, Hid, Map_set_fresh, Map_keys_app by exact Hfresh.
    intros k Hin. apply in_app_or in Hin. destruct Hin as [Hin|[<-|[]]].
    + apply Hk in Hin. lia.
    + simpl. lia.
  - intros k m0 H. rewrite Hms. rewrite Map_get_set_other; [exact H|].
    intros E. apply Hfresh. subst k. eapply Map_get_key. exact H.
Qed.

#[local] Hint Resolve createMessage_kept : frames.

Lemma handleIncomingMessage_kept message :
  respects messages_kept (handleIncomingMessage env message).
Proof. router_frames. Qed.

Lemma processUpdate_kept update :
  respects messages_kept (processUpdate env update).
Proof.
  unfold processUpdate. apply respects_try_catch; [auto with frame| |].
  - destruct (Telegram.message update).
    + apply handleIncomingMessage_kept.
    + destruct (Telegram.edited_message update);
        apply respects_ret; auto with frame.
  - intros e. apply respects_ret. auto with frame.
Qed.

Lemma later_messages_kept w w' : later env w w' -> messages_kept w w'.
Proof.
  induction 1 as [|update w1 _ IH|groupId w1 _ IH].
  - apply (pre_refl _ preorder_messages_kept).
  - apply (pre_trans _ preorder_messages_kept _ w1); [exact IH|].
    apply processUpdate_kept.
  - apply (pre_trans _ preorder_messages_kept _ w1); [exact IH|].
    intros H. split; [exact H|trivial].
Qed.

End MessagesKept.

(** X28. A stored message is never changed or removed, and its
    identifier is never used again: in every state that comes after a
    reachable state, [getMessage] returns for an id what it returned
    before. *)
Theorem stored_messages_are_kept env w w' id m :
  reachable env w ->
  later env w w' ->
  fst (getMessage id w) = Returned (Some m) ->
  fst (getMessage id w') = Returned (Some m) /\
  id < MemStorage.next_messages (the_ids w').
Proof.
  intros Hr Hl H. unfold getMessage, gets in H |- *. simpl in H |- *.
  injection H as H. fold (the_messages w) in H. fold (the_messages w').
  destruct (later_messages_kept env initial_world w (reachable_later env w Hr))
    as [Hk _]; [intros k []|].
  destruct (later_messages_kept env w w' Hl Hk) as [Hk' Hkept].
  split; [now rewrite (Hkept id m H)|].
  apply Hk'. eapply Map_get_key. apply Hkept. exact H.
Qed.

Lemma stored_messages_are_kept_witness :
  let m :=
    Message.mk 1 1 (Some "7") "111" "user" (Some "Alice") (Some "help")
      None None 1002 in
  fst (getMessage 1 Runs.after_reply_update) = Returned (Some m) /\
  1 < MemStorage.next_messages (the_ids Runs.after_reply_update).
Proof.
  intros m.
  apply (stored_messages_are_kept Examples.ok_env Runs.after_help_update
           Runs.after_reply_update 1 m).
  - apply reach_update.
    apply (reach_group Examples.ok_env "-100" initial_world), reach_initial.
  - apply (later_update Examples.ok_env Runs.after_help_update
             Runs.reply_update Runs.after_help_update).
    apply later_now.
  - vm_compute. reflexivity.
Defined.

(** *** Support issues *)

Lemma keeps_issues_same {A} (m : M A) :
  respects (same the_issues) m -> respects (keeps issues_pending) m.
Proof. intros H w I. unfold issues_pending. rewrite (H w). exact I. Qed.

#[local] Hint Extern 1 (respects (keeps issues_pending) _) =>
  (apply keeps_issues_same; solve [frame_leaf]) : frame_leaves.

Lemma respects_bind_parse_issue {B} R d (f : InsertSupportIssue.t -> M B) :
  respects R (f d) ->
  respects R (bind (insertSupportIssueSchema_parse d) f).
Proof. intros H w. exact (H w). Qed.

Section IssuesPending.

Variable env : Telegram.Env.

Lemma createSupportIssue_pending userId conversationId :
  respects (keeps issues_pending)
    (createSupportIssue env
       (InsertSupportIssue.mk userId conversationId
          "New Support Request" "pending" None)).
Proof.
  intros w I issue Hin.
  unfold createSupportIssue, bind, next_supportIssue_id, newDate,
    supportIssues_set, modify, ret in Hin. simpl in Hin.
  unfold the_issues in Hin. simpl in Hin.
  apply Map_values_In in Hin. destruct Hin as [k Hk].
  apply Map_set_In in Hk. destruct Hk as [Hk|Hk].
  - injection Hk as _ ->. now repeat split.
  - apply I. eapply Map_In_values. exact Hk.
Qed.

#[local] Hint Resolve createSupportIssue_pending : frames.

Lemma handleIncomingMessage_pending message :
  respects (keeps issues_pending) (handleIncomingMessage env message).
Proof.
  repeat first
    [ match goal with
      | |- respects _ (bind (insertSupportIssueSchema_parse _) _) =>
          apply respects_bind_parse_issue
      end
    | frames_step
    | router_unfold ].
Qed.

Lemma processUpdate_pending update :
  respects (keeps issues_pending) (processUpdate env update).
Proof.
  unfold processUpdate. apply respects_try_catch; [auto with frame| |].
  - destruct (Telegram.message update).
    + apply handleIncomingMessage_pending.
    + destruct (Telegram.edited_message update);
        apply respects_ret; auto with frame.
  - intros e. apply respects_ret. auto with frame.
Qed.

Lemma reachable_issues_pending w : reachable env w -> issues_pending w.
Proof.
  induction 1 as [|update w _ IH|groupId w _ IH].
  - intros issue [].
  - exact (processUpdate_pending update w IH).
  - exact IH.
Qed.

Lemma processUpdate_issues_added update w :
  WellFormed w ->
  exists added, the_issues (snd (processUpdate env update w))
                = the_issues w ++ added.
Proof.
  intros WF. destruct (Telegram.message update) as [message|] eqn:Hm.
  - rewrite (processUpdate_world env update message w Hm).
    rewrite handleIncomingMessage_dispatch.
    destruct (in_support_group w message).
    + exists []. rewrite app_nil_r.
      assert (F : respects (same the_issues)
                    (handleSupportGroupMessage env message)) by router_frames.
      apply F.
    + destruct (Telegram.from message) as [from|] eqn:Hfrom.
      * destruct (handleUserDirectMessage env message w) as [o w'] eqn:E.
        destruct (thread_scenarios env message from w o w' WF Hfrom E)
          as (_ & [(_ & Hi & _)|[(_ & Hi & _)|(_ & c & issue & k & _ & _ & Hi & _)]]).
        -- exists []. simpl. now rewrite app_nil_r.
        -- exists []. simpl. now rewrite app_nil_r.
        -- now exists [(k, issue)].
      * unfold handleUserDirectMessage. rewrite Hfrom.
        exists []. simpl. now rewrite app_nil_r.
  - unfold processUpdate. rewrite Hm.
    destruct (Telegram.edited_message update); exists [];
      simpl; now rewrite app_nil_r.
Qed.

Lemma later_issues_added w w' :
  WellFormed w -> later env w w' ->
  WellFormed w' /\ exists added, the_issues w' = the_issues w ++ added.
Proof.
  intros WF. induction 1 as [|update w1 _ [WF1 [a1 E1]]|groupId w1 _ [WF1 [a1 E1]]].
  - split; [exact WF|]. exists []. now rewrite app_nil_r.
  - split; [now apply processUpdate_WellFormed|].
    destruct (processUpdate_issues_added update w1 WF1) as [a2 E2].
    exists (a1 ++ a2). now rewrite E2, E1, app_assoc.
  - split.
    + apply (WellFormed_transport w1); try reflexivity. exact WF1.
    + now exists a1.
Qed.

End IssuesPending.

(** X29. The router opens support issues and never touches them again:
    in every state the process reaches each stored issue is titled "New
    Support Request", pending, not closed and not assigned, and in every
    later state it is still stored under its id, unchanged. *)
Theorem support_issues_stay_as_opened env w w' id issue :
  reachable env w ->
  later env w w' ->
  fst (getSupportIssue id w) = Returned (Some issue) ->
  SupportIssue.title issue = "New Support Request"%string /\
  SupportIssue.status issue = "pending"%string /\
  SupportIssue.closedAt issue = None /\
  SupportIssue.assignedTo issue = None /\
  fst (getSupportIssue id w') = Returned (Some issue).
Proof.
  intros Hr Hl H. unfold getSupportIssue, gets in H |- *. simpl in H |- *.
  injection H as H. fold (the_issues w) in H. fold (the_issues w').
  destruct (reachable_issues_pending env w Hr issue (Map_get_value _ _ _ H))
    as (A & B & C & D).
  split; [exact A|]. split; [exact B|]. split; [exact C|]. split; [exact D|].
  destruct (later_issues_added env w w' (reachable_WellFormed env w Hr) Hl)
    as (_ & added & E).
  rewrite E. now rewrite (Map_get_app_l id (the_issues w) added issue H).
Qed.

Lemma support_issues_stay_as_opened_witness :
  let issue :=
    SupportIssue.mk 1 "111" 1 "New Support Request" "pending" 1006 None None in
  SupportIssue.title issue = "New Support Request"%string /\
  SupportIssue.status issue = "pending"%string /\
  SupportIssue.closedAt issue = None /\
  SupportIssue.assignedTo issue = None /\
  fst (getSupportIssue 1 Runs.after_reply_update) = Returned (Some issue).
Proof.
  intros issue.
  apply (support_issues_stay_as_opened Examples.ok_env Runs.after_help_update
           Runs.after_reply_update 1 issue).
  - apply reach_update.
    apply (reach_group Examples.ok_env "-100" initial_world), reach_initial.
  - apply (later_update Examples.ok_env Runs.after_help_update
             Runs.reply_update Runs.after_help_update).
    apply later_now.
  - vm_compute. reflexivity.
Defined.

(** *** Conversations *)









Section ConversationsKept.

Variable env : Telegram.Env.





End ConversationsKept.


